(** * Student roster data store: serializer and CRUD operations

    A shallow embedding of [Assessment_1/03_student_manager.py]: the
    [Student] record with its derived fields, the line-oriented file
    format read by [load_students] and written by [save_students], and
    the bodies of the menu actions of [StudentManagerApp] that query,
    sort and edit the in-memory list of students.

    Text is modelled by [string]; a character is a code point below
    256, classified (white space, line boundary, digit) the way Python
    classifies those code points.  Python integers are [Z].  Exceptions
    are explicit: a computation that may raise returns a [result]. *)

From Stdlib Require Import ZArith NArith List String Ascii Bool Lia.
From Stdlib Require Import QArith Lqa Permutation Sorted.
From Stdlib Require Import Floats Uint63.
Import ListNotations.

Local Open Scope string_scope.
Local Open Scope list_scope.
Local Open Scope Z_scope.

(** ** Exceptions *)

Inductive exn : Type :=
| ValueError
| IndexError
| OverflowError.

Definition result (A : Type) : Type := (exn + A)%type.

Definition ret {A : Type} (a : A) : result A := inr a.
Definition raise {A : Type} (e : exn) : result A := inl e.

Definition bind {A B : Type} (m : result A) (k : A -> result B) : result B :=
  match m with
  | inl e => inl e
  | inr a => k a
  end.

Notation "x <- m ;; k" := (bind m (fun x => k))
  (at level 61, m at next level, right associativity).

Fixpoint mapM {A B : Type} (f : A -> result B) (l : list A) : result (list B) :=
  match l with
  | [] => ret []
  | a :: r => b <- f a ;; bs <- mapM f r ;; ret (b :: bs)
  end.

(** ** Python string primitives *)

Module Py.

(** The code point of a character. *)
Definition ord (c : ascii) : N := N_of_ascii c.

(** [str.isspace] on one character: the code points below 256 that
    Python treats as white space (TAB..CR, FS..US, space, NEL, NBSP). *)
Definition is_space (c : ascii) : bool :=
  match ord c with
  | 9 | 10 | 11 | 12 | 13 | 28 | 29 | 30 | 31 | 32 | 133 | 160 => true
  | _ => false
  end%N.

(** The line boundaries of [str.splitlines] below 256:
    LF, VT, FF, CR, FS, GS, RS and NEL. *)
Definition is_linebreak (c : ascii) : bool :=
  match ord c with
  | 10 | 11 | 12 | 13 | 28 | 29 | 30 | 133 => true
  | _ => false
  end%N.

(** One character of [str.isdigit]: the decimal digits and the
    superscripts two, three and one. *)
Definition is_digit_char (c : ascii) : bool :=
  match ord c with
  | 48 | 49 | 50 | 51 | 52 | 53 | 54 | 55 | 56 | 57 | 178 | 179 | 185 => true
  | _ => false
  end%N.

(** The value of a decimal digit, as [int] reads it. *)
Definition digit_value (c : ascii) : option N :=
  let n := ord c in
  if ((48 <=? n) && (n <=? 57))%N then Some (n - 48)%N else None.

Definition digit_char (d : N) : ascii := ascii_of_N (48 + d).

Definition comma : ascii := ","%char.
Definition LF : ascii := "010"%char.
Definition CR : ascii := "013"%char.
Definition underscore : ascii := "_"%char.

Definition is_empty (s : string) : bool :=
  match s with
  | EmptyString => true
  | String _ _ => false
  end.

(** [c in s] for a single character [c]. *)
Fixpoint contains (c : ascii) (s : string) : bool :=
  match s with
  | EmptyString => false
  | String d r => Ascii.eqb d c || contains c r
  end.

Fixpoint forall_chars (p : ascii -> bool) (s : string) : bool :=
  match s with
  | EmptyString => true
  | String c r => p c && forall_chars p r
  end.

(** Dropping the leading, or the trailing, characters that satisfy
    [p]. *)
Fixpoint lstrip_by (p : ascii -> bool) (s : string) : string :=
  match s with
  | EmptyString => EmptyString
  | String c r => if p c then lstrip_by p r else s
  end.

Fixpoint rstrip_by (p : ascii -> bool) (s : string) : string :=
  match s with
  | EmptyString => EmptyString
  | String c r =>
      let r' := rstrip_by p r in
      if is_empty r' && p c then EmptyString else String c r'
  end.

(** [s.strip()] *)
Definition strip (s : string) : string :=
  rstrip_by is_space (lstrip_by is_space s).

(** [s.isdigit()]: at least one character, all of them digits. *)
Definition isdigit (s : string) : bool :=
  negb (is_empty s) && forall_chars is_digit_char s.

(** [s.split(sep)] for a one-character separator: [n] separators give
    [n + 1] fields, so the result is never empty. *)
Fixpoint split (sep : ascii) (s : string) : list string :=
  match s with
  | EmptyString => [EmptyString]
  | String c r =>
      if Ascii.eqb c sep then EmptyString :: split sep r
      else match split sep r with
           | [] => [String c EmptyString]
           | p :: ps => String c p :: ps
           end
  end.

(** [s.splitlines()]: a line ends at a line boundary, CR LF counts as
    one boundary, and no empty line is produced after the last one. *)
Fixpoint splitlines (s : string) : list string :=
  match s with
  | EmptyString => []
  | String c r =>
      if is_linebreak c then
        match r with
        | String c2 r2 =>
            if Ascii.eqb c CR && Ascii.eqb c2 LF
            then EmptyString :: splitlines r2
            else EmptyString :: splitlines r
        | EmptyString => [EmptyString]
        end
      else match splitlines r with
           | [] => [String c EmptyString]
           | l :: ls => String c l :: ls
           end
  end.

(** [sep.join(parts)]. *)
Definition join (sep : string) (parts : list string) : string :=
  String.concat sep parts.

(** *** [str] of an integer *)

Fixpoint digits_fuel (fuel : nat) (n : N) : string :=
  match fuel with
  | O => EmptyString
  | S f =>
      if (n <? 10)%N then String (digit_char n) EmptyString
      else (digits_fuel f (n / 10)%N
            ++ String (digit_char (n mod 10)%N) EmptyString)%string
  end.

(** The decimal digits of [n], most significant first; the binary size
    of [n] bounds their number. *)
Definition digits (n : N) : string := digits_fuel (S (N.size_nat n)) n.

Definition str (z : Z) : string :=
  if z <? 0 then String "-"%char (digits (Z.abs_N z)) else digits (Z.abs_N z).

(** *** [int] of a string *)

(** The white space [int] itself skips around the literal: ASCII
    [isspace], and the non-ASCII spaces, which it first maps to a
    blank. FS..US are not skipped. *)
Definition is_int_space (c : ascii) : bool :=
  match ord c with
  | 9 | 10 | 11 | 12 | 13 | 32 | 133 | 160 => true
  | _ => false
  end%N.

(** The digit scan of [int]: digits with single underscores between
    them. [prev_us] says the previous character was an underscore,
    [ndig] counts the digits and [acc] is the value read so far. *)
Fixpoint scan_digits (s : string) (prev_us : bool) (ndig : nat) (acc : N)
  : option (nat * N) :=
  match s with
  | EmptyString => if prev_us then None else Some (ndig, acc)
  | String c r =>
      if Ascii.eqb c underscore then
        if prev_us then None else scan_digits r true ndig acc
      else match digit_value c with
           | Some d => scan_digits r false (S ndig) (10 * acc + d)%N
           | None => None
           end
  end.

(** The default limit on the number of digits [int] converts. *)
Definition int_max_str_digits : nat := 4300.

(** The unsigned part of the literal: it may not start with an
    underscore, holds at least one digit and at most
    [int_max_str_digits] of them. *)
Definition int_body (s : string) : option N :=
  match s with
  | EmptyString => None
  | String c _ =>
      if Ascii.eqb c underscore then None
      else match scan_digits s false 0 0%N with
           | Some (ndig, v) =>
               if (int_max_str_digits <? ndig)%nat then None else Some v
           | None => None
           end
  end.

(** [int(s)]: optional surrounding white space, an optional sign, then
    the digits; anything else raises [ValueError]. *)
Definition int (s : string) : result Z :=
  let t := rstrip_by is_int_space (lstrip_by is_int_space s) in
  let '(neg, body) :=
    match t with
    | String c r =>
        if Ascii.eqb c "+" then (false, r)
        else if Ascii.eqb c "-" then (true, r)
        else (false, t)
    | EmptyString => (false, t)
    end in
  match int_body body with
  | Some v => ret (if neg then - Z.of_N v else Z.of_N v)
  | None => raise ValueError
  end.

(** *** [lower] and the substring test *)

(** [c.lower()] below 256: the ASCII capitals and the accented
    capitals (all of 192..222 but the multiplication sign). *)
Definition lower_char (c : ascii) : ascii :=
  let n := ord c in
  if (((65 <=? n) && (n <=? 90))
      || ((192 <=? n) && (n <=? 222) && negb (n =? 215)))%N
  then ascii_of_N (n + 32)
  else c.

Fixpoint lower (s : string) : string :=
  match s with
  | EmptyString => EmptyString
  | String c r => String (lower_char c) (lower r)
  end.

(** [p in s] *)
Fixpoint is_substring (p s : string) : bool :=
  String.prefix p s
  || match s with
     | EmptyString => false
     | String _ r => is_substring p r
     end.

End Py.


(** ** The model: [Student] and its derived fields *)

Record Student : Type := mkStudent {
  code : Z;
  name : string;
  cw1 : Z;
  cw2 : Z;
  cw3 : Z;
  exam : Z
}.

Definition cw_total (s : Student) : Z := cw1 s + cw2 s + cw3 s.

Definition total (s : Student) : Z := cw_total s + exam s.

(** [percent] is [(total / 160) * 100.0]. The source computes it in
    binary64; [percent] is its exact rational value and
    [percent_float] the binary64 computation itself (for a total from 0
    to 2^53, where the conversion of the integer is exact). The lemmas
    [percent_float_order] and [percent_float_thresholds] below relate
    the two on every total a record within the documented ranges has;
    the rounding and the overflow of binary64 on totals far outside
    them are those of [percent_binary64] below, the key of
    [sort_records]. *)
Definition percent_of (t : Z) : Q := (inject_Z t / 160) * 100.

Definition percent (s : Student) : Q := percent_of (total s).

Definition percent_float_of (t : Z) : float :=
  ((PrimFloat.of_uint63 (Uint63.of_Z t) / 160) * 100)%float.

Definition percent_float (s : Student) : float := percent_float_of (total s).

Definition grade_of (p : Q) : string :=
  if Qle_bool 70 p then "A"
  else if Qle_bool 60 p then "B"
  else if Qle_bool 50 p then "C"
  else if Qle_bool 40 p then "D"
  else "F".

Definition grade (s : Student) : string := grade_of (percent s).

Definition grade_of_float (p : float) : string :=
  if (70 <=? p)%float then "A"
  else if (60 <=? p)%float then "B"
  else if (50 <=? p)%float then "C"
  else if (40 <=? p)%float then "D"
  else "F".

(** *** [percent] on any total

    [self.total / 160] divides two integers: Python returns the
    binary64 number nearest to the exact quotient, ties to even, and
    raises [OverflowError] when that is no finite number; the product
    by [100.0] is then the product of binary64, which overflows to
    infinity without raising. Binary64 numbers are the [spec_float]s of
    the Standard Library at precision 53 and exponent bound 1024;
    [exact z] is the integer [z] as an operand, not yet rounded. *)
Module Binary64.

Definition prec : Z := 53.
Definition emax : Z := 1024.

Definition exact (z : Z) : spec_float :=
  match z with
  | Z0 => S754_zero false
  | Zpos p => S754_finite false p 0
  | Zneg p => S754_finite true p 0
  end.

(** [a / b] for integers [a] and [b], [b] positive. *)
Definition true_divide (a : Z) (b : positive) : result spec_float :=
  match SFdiv prec emax (exact a) (exact (Zpos b)) with
  | S754_infinity _ => raise OverflowError
  | q => ret q
  end.

(** [x * y] *)
Definition mul (x y : spec_float) : spec_float := SFmul prec emax x y.

(** The literal [100.0]: 100 is 7036874417766400 / 2^46. *)
Definition hundred : spec_float := S754_finite false 7036874417766400 (-46).

End Binary64.

Definition percent_binary64_of (t : Z) : result spec_float :=
  q <- Binary64.true_divide t 160 ;; ret (Binary64.mul q Binary64.hundred).

Definition percent_binary64 (s : Student) : result spec_float :=
  percent_binary64_of (total s).

(** ** File I/O *)

(** [xs[i]] *)
Definition index {A : Type} (xs : list A) (i : nat) : result A :=
  match nth_error xs i with
  | Some x => ret x
  | None => raise IndexError
  end.

(** The body of the [try] block of [load_students]: the six trimmed
    fields become a [Student]. Unpacking [map(int, parts[2:])] into four
    names raises [ValueError] when it does not yield four values. *)
Definition parse_fields (parts : list string) : result Student :=
  p0 <- index parts 0 ;;
  c <- Py.int p0 ;;
  n <- index parts 1 ;;
  ints <- mapM Py.int (skipn 2 parts) ;;
  match ints with
  | [c1; c2; c3; ex] => ret (mkStudent c n c1 c2 c3 ex)
  | _ => raise ValueError
  end.

(** One iteration of the loop of [load_students] on line [i] of the
    file: [None] is [continue], [Some s] is [rows.append(s)]. Only
    [ValueError] is caught. *)
Definition load_line (i : nat) (line : string) : result (option Student) :=
  let line := Py.strip line in
  if Py.is_empty line then ret None
  else if Nat.eqb i 0 && Py.isdigit line && negb (Py.contains Py.comma line)
  then ret None
  else
    let parts := map Py.strip (Py.split Py.comma line) in
    if negb (Nat.eqb (List.length parts) 6) then ret None
    else match parse_fields parts with
         | inr s => ret (Some s)
         | inl ValueError => ret None
         | inl e => raise e
         end.

Fixpoint load_loop (i : nat) (lines : list string) (rows : list Student)
  : result (list Student) :=
  match lines with
  | [] => ret rows
  | line :: rest =>
      r <- load_line i line ;;
      load_loop (S i) rest
        (match r with
         | Some s => rows ++ [s]
         | None => rows
         end)
  end.

(** The data file: [None] when it does not exist, else its text. *)
Definition file := option string.

Definition load_students (f : file) : result (list Student) :=
  match f with
  | None => ret []
  | Some text => load_loop 0 (Py.splitlines text) []
  end.

(** The f-string of [save_students]. *)
Definition format_student (s : Student) : string :=
  (Py.str (code s) ++ "," ++ name s ++ "," ++ Py.str (cw1 s) ++ ","
   ++ Py.str (cw2 s) ++ "," ++ Py.str (cw3 s) ++ "," ++ Py.str (exam s))%string.

(** The list [lines] built by [save_students]. *)
Definition save_lines (students : list Student) : list string :=
  Py.str (Z.of_nat (List.length students)) :: map format_student students.

(** The text [save_students] writes. *)
Definition save_text (students : list Student) : string :=
  Py.join (String Py.LF EmptyString) (save_lines students).

Definition save_students (students : list Student) : file :=
  Some (save_text students).

(** ** Python list built-ins used by the menu actions *)

Section ListSort.

Context {A K : Type}.
Variable key : A -> K.
Variable lt : K -> K -> bool.

(** [x] goes in front of the first element whose key is not below
    its own: elements with equal keys keep their order. *)
Fixpoint insert (x : A) (l : list A) : list A :=
  match l with
  | [] => [x]
  | y :: r => if lt (key y) (key x) then y :: insert x r else x :: y :: r
  end.

Fixpoint stable_sort (l : list A) : list A :=
  match l with
  | [] => []
  | x :: r => insert x (stable_sort r)
  end.

(** [l.sort(key=key, reverse=reverse)]: a stable sort that compares
    keys with [<] only; with [reverse] the list is reversed, sorted
    and reversed again, which keeps equal keys in their order. *)
Definition list_sort (reverse : bool) (l : list A) : list A :=
  if reverse then rev (stable_sort (rev l)) else stable_sort l.

(** [a] may stand in front of [b]. *)
Definition key_le (a b : A) : Prop := lt (key b) (key a) = false.

(** The keys of [a] and [k] are equal for [lt]. *)
Definition same_key (k : K) (a : A) : bool :=
  negb (lt (key a) k) && negb (lt k (key a)).

End ListSort.

(** [l.sort(key=key, reverse=reverse)] for a key that can raise: the
    key of every item is computed first, in the order of the list, and
    the items are then sorted along with their keys; when a key raises
    the list is left as it was and the exception goes to the caller. *)
Definition sort_by_key {A K : Type} (key : A -> result K) (lt : K -> K -> bool)
    (reverse : bool) (l : list A) : result (list A) :=
  keys <- mapM key l ;;
  ret (map snd (list_sort fst lt reverse (combine keys l))).

Section MaxMin.

Context {A : Type}.
Variable key : A -> Z.

(** The scan of [max(l, key=key)]: the best item changes only for a
    strictly larger key. *)
Fixpoint max_loop (best : A) (l : list A) : A :=
  match l with
  | [] => best
  | x :: r => max_loop (if key best <? key x then x else best) r
  end.

Fixpoint min_loop (best : A) (l : list A) : A :=
  match l with
  | [] => best
  | x :: r => min_loop (if key x <? key best then x else best) r
  end.

Definition py_max (l : list A) : result A :=
  match l with
  | [] => raise ValueError
  | x :: r => ret (max_loop x r)
  end.

Definition py_min (l : list A) : result A :=
  match l with
  | [] => raise ValueError
  | x :: r => ret (min_loop x r)
  end.

End MaxMin.

(** ** The application state and its menu actions *)

(** [self.students] and the data file. The dialogs are inputs: the
    value a dialog returned is an argument of the action. *)
Record App : Type := mkApp {
  students : list Student;
  data : file
}.

(** The message box an action ends with. *)
Inductive message : Type :=
| Duplicate (c : Z)
| Added (s : Student)
| Deleted (s : Student)
| Updated (s : Student).

Definition is_error (m : option message) : bool :=
  match m with
  | Some (Duplicate _) => true
  | _ => false
  end.

Definition has_code (c : Z) (l : list Student) : bool :=
  existsb (fun st => code st =? c) l.

(** The test on the code in the loop of [view_individual]: the first
    student whose code is the number asked for. *)
Definition find_by_code (l : list Student) (c : Z) : option Student :=
  find (fun s => c =? code s) l.

(** The loop of [view_individual] on the trimmed, lower-cased query:
    a student whose code is the number asked for ends the search and is
    the only one found; otherwise the students whose name holds the
    query are collected. [int] is not guarded there. *)
Fixpoint find_loop (query : string) (l found : list Student)
  : result (list Student) :=
  match l with
  | [] => ret found
  | s :: r =>
      hit <- (if Py.isdigit query
              then n <- Py.int query ;; ret (n =? code s)
              else ret false) ;;
      if (hit : bool) then ret [s]
      else find_loop query r
             (if Py.is_substring query (Py.lower (name s))
              then found ++ [s] else found)
  end.

(** [query] is what the search dialog returned, [pick] the student
    chosen when several were found; the result is the student shown. *)
Definition view_individual (app : App) (query : option string)
    (pick : option Student) : result (option Student) :=
  match students app with
  | [] => ret None
  | l =>
      match query with
      | None => ret None
      | Some q =>
          if Py.is_empty q then ret None
          else
            found <- find_loop (Py.lower (Py.strip q)) l [] ;;
            match found with
            | [] => ret None
            | [s] => ret (Some s)
            | _ => ret pick
            end
      end
  end.

Definition show_highest (app : App) : result (option Student) :=
  match students app with
  | [] => ret None
  | l => s <- py_max total l ;; ret (Some s)
  end.

Definition show_lowest (app : App) : result (option Student) :=
  match students app with
  | [] => ret None
  | l => s <- py_min total l ;; ret (Some s)
  end.

(** [asc] is the answer to the ascending-or-descending question. The
    keys are the binary64 percents, compared with [<] of binary64; when
    a percent raises [OverflowError] so does the action, and the roster
    stays as it was. *)
Definition sort_records (app : App) (asc : bool) : result App :=
  match students app with
  | [] => ret app
  | l =>
      sorted <- sort_by_key percent_binary64 SFltb (negb asc) l ;;
      ret (mkApp sorted (data app))
  end.

(** [dialog] is what the edit dialog returned. *)
Definition add_student (app : App) (dialog : option Student)
  : App * option message :=
  match dialog with
  | None => (app, None)
  | Some s =>
      if has_code (code s) (students app)
      then (app, Some (Duplicate (code s)))
      else
        let l := students app ++ [s] in
        (mkApp l (save_students l), Some (Added s))
  end.

(** [choice] is the student picked in the list dialog, [confirm] the
    answer to the confirmation question. *)
Definition delete_student (app : App) (choice : option Student) (confirm : bool)
  : App * option message :=
  match students app with
  | [] => (app, None)
  | _ =>
      match choice with
      | None => (app, None)
      | Some s =>
          if negb confirm then (app, None)
          else
            let l := filter (fun x => negb (code x =? code s)) (students app) in
            (mkApp l (save_students l), Some (Deleted s))
      end
  end.

(** The loop of [update_student]: the first student with code [c] is
    replaced by [s]. *)
Fixpoint replace_first (c : Z) (s : Student) (l : list Student) : list Student :=
  match l with
  | [] => []
  | st :: r => if code st =? c then s :: r else st :: replace_first c s r
  end.

Definition update_student (app : App) (choice dialog : option Student)
  : App * option message :=
  match students app with
  | [] => (app, None)
  | _ =>
      match choice with
      | None => (app, None)
      | Some s0 =>
          match dialog with
          | None => (app, None)
          | Some s =>
              if negb (code s =? code s0) && has_code (code s) (students app)
              then (app, Some (Duplicate (code s)))
              else
                let l := replace_first (code s0) s (students app) in
                (mkApp l (save_students l), Some (Updated s))
          end
      end
  end.

(** ** The edit dialog *)

(** The six entry fields of the dialog. *)
Record entries : Type := mkEntries {
  e_code : string;
  e_name : string;
  e_cw1 : string;
  e_cw2 : string;
  e_cw3 : string;
  e_exam : string
}.

(** The error box [submit] shows: integers wanted, code out of range,
    empty name, or the label and bounds of the first mark out of
    range. *)
Inductive invalid : Type :=
| NotIntegers
| BadCode
| EmptyName
| BadMark (label : string) (lo hi : Z).

(** The fields as the dialog shows them for the student to edit, and
    as it shows them for a new student. *)
Definition prefill (s : option Student) : entries :=
  match s with
  | Some s =>
      mkEntries (Py.str (code s)) (name s) (Py.str (cw1 s)) (Py.str (cw2 s))
        (Py.str (cw3 s)) (Py.str (exam s))
  | None =>
      mkEntries EmptyString EmptyString EmptyString EmptyString
        EmptyString EmptyString
  end.

(** The [try] block of [submit]: five integers and the trimmed name. *)
Definition read_entries (e : entries) : result (Z * string * Z * Z * Z * Z) :=
  c <- Py.int (Py.strip (e_code e)) ;;
  c1 <- Py.int (Py.strip (e_cw1 e)) ;;
  c2 <- Py.int (Py.strip (e_cw2 e)) ;;
  c3 <- Py.int (Py.strip (e_cw3 e)) ;;
  ex <- Py.int (Py.strip (e_exam e)) ;;
  ret (c, Py.strip (e_name e), c1, c2, c3, ex).

(** The loop of [submit] over the marks with their bounds and labels:
    the first mark out of its bounds. *)
Fixpoint first_bad_mark (marks : list (Z * Z * Z * string)) : option invalid :=
  match marks with
  | [] => None
  | (v, lo, hi, label) :: rest =>
      if negb ((lo <=? v) && (v <=? hi)) then Some (BadMark label lo hi)
      else first_bad_mark rest
  end.

(** [submit]: the student the dialog closes with, or the error box it
    shows while it stays open. Only [ValueError] is caught. *)
Definition submit (e : entries) : result (invalid + Student) :=
  match read_entries e with
  | inl ValueError => ret (inl NotIntegers)
  | inl x => raise x
  | inr (c, n, c1, c2, c3, ex) =>
      if negb ((1000 <=? c) && (c <=? 9999)) then ret (inl BadCode)
      else if Py.is_empty n then ret (inl EmptyName)
      else match first_bad_mark [(c1, 0, 20, "CW1"); (c2, 0, 20, "CW2");
                                 (c3, 0, 20, "CW3"); (ex, 0, 100, "Exam")] with
           | Some err => ret (inl err)
           | None => ret (inr (mkStudent c n c1 c2 c3 ex))
           end
  end.

(** What the user does in the dialog: press Save with the fields as
    they then are, or press Cancel. *)
Inductive dialog_action : Type :=
| Save (e : entries)
| Cancel.

(** [_edit_dialog]: the dialog stays open until a Save is accepted or
    Cancel is pressed; closed in any other way it returns nothing. *)
Fixpoint edit_dialog (actions : list dialog_action) : result (option Student) :=
  match actions with
  | [] => ret None
  | Cancel :: _ => ret None
  | Save e :: rest =>
      r <- submit e ;;
      match r with
      | inr s => ret (Some s)
      | inl _ => edit_dialog rest
      end
  end.

(** * The maths quiz

    [Assessment_1/01_maths_quiz.py]: the scoring helpers and the flow
    of [QuizApp]. What the random generator returned and what the user
    typed or answered are arguments of the actions. The two message
    texts of the feedback label that hold pictographs are constructors
    of [feedback]; the elapsed time of the report is real time and is
    left out. *)

Module Quiz.

(** The dictionary [DIFFICULTY_BOUNDS]; [None] is a missing key. *)
Definition DIFFICULTY_BOUNDS (level : Z) : option (string * Z * Z) :=
  if level =? 1 then Some ("Easy", 1, 9)
  else if level =? 2 then Some ("Moderate", 10, 99)
  else if level =? 3 then Some ("Advanced", 1000, 9999)
  else None.

Definition TOTAL_QUESTIONS : Z := 10.
Definition PTS_FIRST : Z := 10.
Definition PTS_SECOND : Z := 5.

Definition rank_from_percentage (pct : Z) : string :=
  if 90 <=? pct then "A+"
  else if 80 <=? pct then "A"
  else if 70 <=? pct then "B"
  else if 60 <=? pct then "C"
  else if 50 <=? pct then "D"
  else "F".

Definition compute (a : Z) (op : string) (b : Z) : Z :=
  if String.eqb op "+" then a + b else a - b.

(** The integer as a binary64 number (exact up to 2^53). *)
Definition float_of_Z (z : Z) : float :=
  if z <? 0 then (- PrimFloat.of_uint63 (Uint63.of_Z (- z)))%float
  else PrimFloat.of_uint63 (Uint63.of_Z z).

(** The integer nearest to [m * 2 ^ e], the even one of two. *)
Definition round_half_even (m : positive) (e : Z) : Z :=
  if 0 <=? e then Z.pos m * 2 ^ e
  else
    let d := 2 ^ (- e) in
    let q := Z.pos m / d in
    let r := Z.pos m mod d in
    if 2 * r <? d then q
    else if d <? 2 * r then q + 1
    else if Z.even q then q else q + 1.

(** [round(x)] of a binary64 number: the nearest integer, ties to the
    even one; it raises on an infinity and on a NaN ([None]). *)
Definition round (x : float) : option Z :=
  match Prim2SF x with
  | S754_zero _ => Some 0
  | S754_finite s m e =>
      Some (if s then - round_half_even m e else round_half_even m e)
  | _ => None
  end.

(** The text of the feedback label. *)
Inductive feedback : Type :=
| NoFeedback            (* the empty text *)
| Correct               (* "Correct!" after a check mark *)
| TryAgain              (* "Wrong ... : Try again!" *)
| AnswerWas (correct : Z)   (* "Wrong ... : The answer was {correct}." *)
| EnterWhole            (* "Please enter a whole number." *)
| EnterValid.           (* "Please enter a valid whole number (e.g., 42)." *)

(** The frame on show, or the window destroyed. *)
Inductive view : Type :=
| Menu
| Questions
| Closed.

Record QuizApp : Type := mkQuizApp {
  level : Z;
  q_index : Z;
  score : Z;
  attempt : Z;
  first_try_correct : Z;
  second_try_correct : Z;
  a : Z;
  b : Z;
  op : string;
  var_question : string;
  var_feedback : feedback;
  var_progress : string;
  var_score : string;
  shown : view
}.

(** The state [__init__] leaves, with the menu on show. *)
Definition init : QuizApp :=
  mkQuizApp 1 0 0 1 0 0 0 0 "+" "" NoFeedback "" "Score: 0" Menu.

(** The report of [displayResults], but for the elapsed time. *)
Record report : Type := mkReport {
  r_difficulty : string;
  r_score : Z;
  r_total : Z;
  r_pct : Z;
  r_grade : string;
  r_first : Z;
  r_second : Z
}.

(** What the random generator returned for one question: the two
    numbers of [randomInt] and the operation of [decideOperation]. *)
Record draw : Type := mkDraw {
  d_a : Z;
  d_b : Z;
  d_op : string
}.

(** [randomInt(level)], given the two numbers drawn. *)
Definition randomInt (lvl : Z) (x y : Z) : option (Z * Z) :=
  match DIFFICULTY_BOUNDS lvl with
  | Some _ => Some (x, y)
  | None => None
  end.

Definition reset_for_new_play (app : QuizApp) : QuizApp :=
  mkQuizApp (level app) 0 0 1 0 0 (a app) (b app) (op app)
    "" NoFeedback "" "Score: 0" (shown app).

Definition show_menu (app : QuizApp) : QuizApp :=
  mkQuizApp (level app) (q_index app) (score app) (attempt app)
    (first_try_correct app) (second_try_correct app) (a app) (b app) (op app)
    (var_question app) (var_feedback app) (var_progress app) (var_score app)
    Menu.

Definition displayProblem (app : QuizApp) (x : Z) (o : string) (y : Z)
    (clear_feedback : bool) : QuizApp :=
  mkQuizApp (level app) (q_index app) (score app) (attempt app)
    (first_try_correct app) (second_try_correct app) (a app) (b app) (op app)
    (Py.str x ++ " " ++ o ++ " " ++ Py.str y ++ " =")%string
    (if clear_feedback then NoFeedback else var_feedback app)
    (var_progress app) (var_score app) (shown app).

(** [pct] of [displayResults]. *)
Definition percentage (sc total_possible : Z) : option Z :=
  round ((float_of_Z sc / float_of_Z total_possible) * 100)%float.

(** [displayResults]: the report, then the menu again with the scores
    reset when the user plays again, else the window closes. [None]: an
    exception escapes. *)
Definition displayResults (app : QuizApp) (again : bool)
  : option (QuizApp * option report) :=
  let total_possible := TOTAL_QUESTIONS * PTS_FIRST in
  match percentage (score app) total_possible with
  | None => None
  | Some pct =>
      match DIFFICULTY_BOUNDS (level app) with
      | None => None
      | Some (difficulty, _, _) =>
          let r := mkReport difficulty (score app) total_possible pct
                     (rank_from_percentage pct)
                     (first_try_correct app) (second_try_correct app) in
          if again then Some (show_menu (reset_for_new_play app), Some r)
          else
            Some (mkQuizApp (level app) (q_index app) (score app) (attempt app)
                    (first_try_correct app) (second_try_correct app)
                    (a app) (b app) (op app) (var_question app)
                    (var_feedback app) (var_progress app) (var_score app)
                    Closed,
                  Some r)
      end
  end.

(** [next_question], given the draw for the question and the answer
    to "Play again?" should the results come up. *)
Definition next_question (app : QuizApp) (d : draw) (again : bool)
  : option (QuizApp * option report) :=
  let q := q_index app + 1 in
  let app1 :=
    mkQuizApp (level app) q (score app) (attempt app)
      (first_try_correct app) (second_try_correct app) (a app) (b app) (op app)
      (var_question app) (var_feedback app) (var_progress app) (var_score app)
      (shown app) in
  if TOTAL_QUESTIONS <? q then displayResults app1 again
  else
    match randomInt (level app) (d_a d) (d_b d) with
    | None => None
    | Some (x0, y0) =>
        let o := d_op d in
        let '(x, y) :=
          if String.eqb o "-" && negb (level app =? 3) && (x0 <? y0)
          then (y0, x0) else (x0, y0) in
        let app2 :=
          mkQuizApp (level app) q (score app) 1
            (first_try_correct app) (second_try_correct app) x y o
            (var_question app) (var_feedback app)
            ("Q" ++ Py.str q ++ "/" ++ Py.str TOTAL_QUESTIONS)%string
            (var_score app) (shown app) in
        Some (displayProblem app2 x o y true, None)
    end.

(** [isCorrect]: the verdict and the feedback it sets. *)
Definition isCorrect (x : Z) (o : string) (y : Z) (user_answer : Z)
    (app : QuizApp) : bool * feedback :=
  let correct := compute x o y in
  if user_answer =? correct then (true, Correct)
  else if attempt app =? 1 then (false, TryAgain)
  else (false, AnswerWas correct).

Definition set_feedback (app : QuizApp) (f : feedback) : QuizApp :=
  mkQuizApp (level app) (q_index app) (score app) (attempt app)
    (first_try_correct app) (second_try_correct app) (a app) (b app) (op app)
    (var_question app) f (var_progress app) (var_score app) (shown app).

(** [submit_answer] on the text of the entry. *)
Definition submit_answer (app : QuizApp) (entry : string) (d : draw)
    (again : bool) : option (QuizApp * option report) :=
  let txt := Py.strip entry in
  if Py.is_empty txt then Some (set_feedback app EnterWhole, None)
  else
    match Py.int txt with
    | inl ValueError => Some (set_feedback app EnterValid, None)
    | inl _ => None
    | inr ans =>
        let '(ok, f) := isCorrect (a app) (op app) (b app) ans app in
        let app1 := set_feedback app f in
        if ok then
          let first := attempt app1 =? 1 in
          let sc := score app1 + (if first then PTS_FIRST else PTS_SECOND) in
          let app2 :=
            mkQuizApp (level app1) (q_index app1) sc (attempt app1)
              (if first then first_try_correct app1 + 1
               else first_try_correct app1)
              (if first then second_try_correct app1
               else second_try_correct app1 + 1)
              (a app1) (b app1) (op app1) (var_question app1)
              (var_feedback app1) (var_progress app1)
              ("Score: " ++ Py.str sc)%string (shown app1) in
          next_question app2 d again
        else if attempt app1 =? 1 then
          let app2 :=
            mkQuizApp (level app1) (q_index app1) (score app1) 2
              (first_try_correct app1) (second_try_correct app1)
              (a app1) (b app1) (op app1) (var_question app1)
              (var_feedback app1) (var_progress app1) (var_score app1)
              (shown app1) in
          Some (displayProblem app2 (a app2) (op app2) (b app2) false, None)
        else next_question app1 d again
    end.

(** [start_quiz] with the level of the radio buttons. *)
Definition start_quiz (app : QuizApp) (lvl : Z) (d : draw)
  : option (QuizApp * option report) :=
  let app1 :=
    mkQuizApp lvl (q_index app) (score app) (attempt app)
      (first_try_correct app) (second_try_correct app) (a app) (b app) (op app)
      (var_question app) (var_feedback app) (var_progress app) (var_score app)
      (shown app) in
  let app2 := reset_for_new_play app1 in
  let app3 :=
    mkQuizApp (level app2) (q_index app2) (score app2) (attempt app2)
      (first_try_correct app2) (second_try_correct app2) (a app2) (b app2)
      (op app2) (var_question app2) (var_feedback app2) (var_progress app2)
      (var_score app2) Questions in
  next_question app3 d false.

End Quiz.

(** * The joke teller

    A shallow embedding of [Assessment_1/02_alexa_joke.py]: the reader
    of the file of jokes and the handler of the one button of the
    window.  The file is an argument, [None] when it does not exist;
    the text typed in the entry and the index that [random.choice]
    draws are arguments of the handler. *)

Module Jokes.

Definition PHRASE : string := "alexa tell me a joke".

Definition question_mark : ascii := "?"%char.

(** A setup and its punchline. *)
Definition joke : Type := (string * string)%type.

(** [s.split(sep, 1)] for a one-character separator: one split at
    most, at the first separator. *)
Fixpoint split_once (sep : ascii) (s : string) : list string :=
  match s with
  | EmptyString => [EmptyString]
  | String c r =>
      if Ascii.eqb c sep then [EmptyString; r]
      else match split_once sep r with
           | [] => [String c EmptyString]
           | p :: ps => String c p :: ps
           end
  end.

Definition fallback : list joke :=
  [("Why did the chicken cross the road?", "To get to the other side.")].

(** One round of the loop of [load_jokes]; unpacking into [s, pl]
    raises [ValueError] unless [split] returned two parts. *)
Definition load_jokes_line (jokes : list joke) (line : string)
  : result (list joke) :=
  let line := Py.strip line in
  if Py.is_empty line || negb (Py.contains question_mark line) then ret jokes
  else
    match split_once question_mark line with
    | [s; pl] => ret (jokes ++ [((Py.strip s ++ "?")%string, Py.strip pl)])
    | _ => raise ValueError
    end.

Fixpoint load_jokes_loop (jokes : list joke) (lines : list string)
  : result (list joke) :=
  match lines with
  | [] => ret jokes
  | line :: rest =>
      jokes' <- load_jokes_line jokes line ;; load_jokes_loop jokes' rest
  end.

Definition load_jokes (file : option string) : result (list joke) :=
  jokes <- match file with
           | Some text => load_jokes_loop [] (Py.splitlines text)
           | None => ret []
           end ;;
  match jokes with
  | [] => ret fallback
  | _ :: _ => ret jokes
  end.

(** [self.stage] *)
Inductive Stage : Type :=
| Idle
| SetupShown
| PunchlineShown.

(** The state of [App]: its attributes, and the texts of the labels
    [setup], [punch] and [status] and of the button. *)
Record App : Type := mkApp {
  jokes : list joke;
  cur : option joke;
  stage : Stage;
  setup : string;
  punch : string;
  status : string;
  btn : string
}.

(** [App.__init__]; a label made without a text shows none. *)
Definition init (file : option string) : result App :=
  loaded <- load_jokes file ;;
  ret (mkApp loaded None Idle "" "" "" "Start").

(** [random.choice(seq)], where [drawn] is the index that the generator
    picks below [len(seq)]; there is none for an empty sequence, and
    [IndexError] is raised. *)
Definition choice {A : Type} (seq : list A) (drawn : nat) : result A :=
  match nth_error seq drawn with
  | Some x => ret x
  | None => raise IndexError
  end.

Definition middle_dot : ascii := ascii_of_nat 183.

Definition new_joke (app : App) (drawn : nat) : result App :=
  j <- choice (jokes app) drawn ;;
  ret (mkApp (jokes app) (Some j) SetupShown (fst j) ""
         ("Press Enter or click reveal punchline to reveal punchline "
          ++ String middle_dot " Q to quit")%string
         "Reveal Punchline").

Definition show_punch (app : App) : App :=
  match cur app with
  | None => app
  | Some j =>
      mkApp (jokes app) (cur app) PunchlineShown (setup app) (snd j)
        "Type the phrase again, then press Enter/Start for a new joke"
        "Start"
  end.

(** [on_start], for the text [entry] of the entry. *)
Definition on_start (app : App) (entry : string) (drawn : nat) : result App :=
  match stage app with
  | SetupShown => ret (show_punch app)
  | Idle | PunchlineShown =>
      if String.eqb (Py.lower (Py.strip entry)) PHRASE then new_joke app drawn
      else ret (mkApp (jokes app) (cur app) (stage app) (setup app) (punch app)
                  "Please type exactly: Alexa tell me a joke" (btn app))
  end.

End Jokes.

(** ** Vocabulary of the properties *)

(** The documented ranges of the fields of a record. *)
Definition in_ranges (s : Student) : Prop :=
  1000 <= code s <= 9999 /\ name s <> EmptyString /\
  0 <= cw1 s <= 20 /\ 0 <= cw2 s <= 20 /\ 0 <= cw3 s <= 20 /\
  0 <= exam s <= 100.

(** A decimal digit, and a character of a numeral as [str] prints it. *)
Definition is_decimal (c : ascii) : bool :=
  match Py.digit_value c with
  | Some _ => true
  | None => false
  end.

Definition is_numeral_char (c : ascii) : bool :=
  is_decimal c || Ascii.eqb c "-".

Definition not_space (c : ascii) : bool := negb (Py.is_space c).
Definition not_linebreak (c : ascii) : bool := negb (Py.is_linebreak c).

(** A name that the file format carries unchanged: no white space at
    either end, no comma and no line boundary. *)
Definition clean_name (n : string) : Prop :=
  Py.strip n = n /\
  Py.contains Py.comma n = false /\
  Py.forall_chars not_linebreak n = true.

(** An integer that [str] prints within the digit limit of [int]. *)
Definition printable (z : Z) : Prop :=
  Z.abs z < 10 ^ Z.of_nat Py.int_max_str_digits.

(** A record that the file format carries unchanged. *)
Definition storable (s : Student) : Prop :=
  clean_name (name s) /\ printable (code s) /\ printable (cw1 s) /\
  printable (cw2 s) /\ printable (cw3 s) /\ printable (exam s).

(** The fields of the line written for a record. *)
Definition fields_of (s : Student) : list string :=
  [Py.str (code s); name s; Py.str (cw1 s); Py.str (cw2 s);
   Py.str (cw3 s); Py.str (exam s)].

(** A line without line boundary from which the loop reads the
    record [r]. *)
Definition well_formed_line (d : string) (r : Student) : Prop :=
  Py.forall_chars not_linebreak d = true /\ load_line 1 d = ret (Some r).

(** The separator of [save_students]. *)
Definition newline : string := String Py.LF EmptyString.

(** The first character of [s], if any, does not satisfy [p]. *)
Definition head_not (p : ascii -> bool) (s : string) : bool :=
  match s with
  | EmptyString => true
  | String c _ => negb (p c)
  end.

(** No character of [s] is [c]. *)
Definition differs (c : ascii) (d : ascii) : bool := negb (Ascii.eqb d c).

(** The data file holds what loading gives the roster in memory. *)
Definition in_sync (app : App) : Prop :=
  load_students (data app) = ret (students app).

(** No two students of the roster share a code. *)
Definition unique_codes (l : list Student) : Prop := NoDup (map code l).

(** The student [view_individual] shows for the students it found:
    the only one, or the one picked among several. *)
Definition chosen (found : list Student) (pick : option Student)
  : option Student :=
  match found with
  | [] => None
  | [s] => Some s
  | _ => pick
  end.

(** The students whose lower-cased name holds [q]. *)
Definition named (q : string) (l : list Student) : list Student :=
  filter (fun s => Py.is_substring q (Py.lower (name s))) l.

(** *** Sorting on the percent *)

(** Every percent of the roster is a number: none raises. *)
Definition computable (l : list Student) : Prop :=
  Forall (fun s => exists p, percent_binary64 s = ret p) l.

(** The percent of [s] where it is a number. *)
Definition percent_value (s : Student) : spec_float :=
  match percent_binary64 s with
  | inr p => p
  | inl _ => S754_zero false
  end.

(** [a.percent <= b.percent], between numbers. *)
Definition percent_le (a b : Student) : Prop :=
  exists p q, percent_binary64 a = ret p /\ percent_binary64 b = ret q /\
    SFleb p q = true.

(** [s.percent == p] *)
Definition has_percent (p : spec_float) (s : Student) : bool :=
  match percent_binary64 s with
  | inr q => SFeqb q p
  | inl _ => false
  end.

(** The place of a binary64 number in the order of [<]: the sign
    first, then the exponent and the digits, which count downwards for
    the negative numbers. NaN has no place. *)
Definition rank (x : spec_float) : Z * Z * Z :=
  match x with
  | S754_zero _ | S754_nan => (0, 0, 0)
  | S754_infinity s => (if s then -2 else 2, 0, 0)
  | S754_finite s m e => if s then (-1, - e, Z.neg m) else (1, e, Z.pos m)
  end.

Definition rank_lt (x y : Z * Z * Z) : bool :=
  let '(x1, x2, x3) := x in
  let '(y1, y2, y3) := y in
  (x1 <? y1) || ((x1 =? y1) && ((x2 <? y2) || ((x2 =? y2) && (x3 <? y3)))).

(** [x] is a number: not NaN. *)
Definition is_number (x : spec_float) : bool :=
  match x with
  | S754_nan => false
  | _ => true
  end.


(** [x] and [y] are the same number, written the same way. *)
Definition same_float (x y : spec_float) : bool :=
  match x, y with
  | S754_zero s, S754_zero s' => Bool.eqb s s'
  | S754_infinity s, S754_infinity s' => Bool.eqb s s'
  | S754_nan, S754_nan => true
  | S754_finite s m e, S754_finite s' m' e' =>
      Bool.eqb s s' && Pos.eqb m m' && Z.eqb e e'
  | _, _ => false
  end.

(** *** The quiz *)

(** [x] is a number [random.randint] can return at level [lvl]. *)
Definition in_bounds (lvl x : Z) : Prop :=
  exists difficulty lo hi,
    Quiz.DIFFICULTY_BOUNDS lvl = Some (difficulty, lo, hi) /\ lo <= x <= hi.

(** [o] is an operation [random.choice] can return. *)
Definition is_operation (o : string) : Prop := o = "+" \/ o = "-".

(** A draw the random generator can return at level [lvl]. *)
Definition possible (lvl : Z) (d : Quiz.draw) : Prop :=
  in_bounds lvl (Quiz.d_a d) /\ in_bounds lvl (Quiz.d_b d) /\
  is_operation (Quiz.d_op d).

(** The score is what the two counters of correct answers are worth. *)
Definition counted (app : Quiz.QuizApp) : Prop :=
  0 <= Quiz.first_try_correct app /\ 0 <= Quiz.second_try_correct app /\
  Quiz.score app
  = Quiz.PTS_FIRST * Quiz.first_try_correct app
    + Quiz.PTS_SECOND * Quiz.second_try_correct app.

(** A question of a quiz is on show: one of the ten, on its first or
    second attempt, with operands of the level, after at most one
    correct answer for each question before it. *)
Definition playing (app : Quiz.QuizApp) : Prop :=
  Quiz.shown app = Quiz.Questions /\
  1 <= Quiz.q_index app <= Quiz.TOTAL_QUESTIONS /\
  counted app /\
  Quiz.first_try_correct app + Quiz.second_try_correct app
  <= Quiz.q_index app - 1 /\
  (Quiz.attempt app = 1 \/ Quiz.attempt app = 2) /\
  in_bounds (Quiz.level app) (Quiz.a app) /\
  in_bounds (Quiz.level app) (Quiz.b app) /\
  is_operation (Quiz.op app).

(** A report of ten questions: at most one correct answer each, a
    score out of 100 that is its own percentage, and the grade of that
    percentage. *)
Definition fair_report (r : Quiz.report) : Prop :=
  Quiz.r_total r = 100 /\
  0 <= Quiz.r_first r /\ 0 <= Quiz.r_second r /\
  Quiz.r_first r + Quiz.r_second r <= 10 /\
  Quiz.r_score r = 10 * Quiz.r_first r + 5 * Quiz.r_second r /\
  Quiz.r_pct r = Quiz.r_score r /\
  Quiz.r_grade r = Quiz.rank_from_percentage (Quiz.r_score r).

(** After an answer that ends the work on a question, for [pts] points:
    before the tenth question is done the next one is on show, on its
    first attempt and with an empty feedback label; once the tenth is
    done there is a report, with these points in its score. *)
Definition moves_on (app app' : Quiz.QuizApp) (r : option Quiz.report)
    (pts : Z) : Prop :=
  match r with
  | None =>
      Quiz.q_index app < Quiz.TOTAL_QUESTIONS /\
      Quiz.q_index app' = Quiz.q_index app + 1 /\
      Quiz.score app' = Quiz.score app + pts /\
      Quiz.attempt app' = 1 /\
      Quiz.var_feedback app' = Quiz.NoFeedback
  | Some rep =>
      Quiz.q_index app = Quiz.TOTAL_QUESTIONS /\
      Quiz.r_score rep = Quiz.score app + pts
  end.

(** *** The jokes *)

(** A joke as [load_jokes] tells it: the setup ends with its question
    mark, the only one it holds, and no part starts or ends with white
    space. *)
Definition told (j : Jokes.joke) : Prop :=
  exists t, fst j = (t ++ "?")%string /\
    Py.contains Jokes.question_mark t = false /\
    Py.strip t = t /\ Py.strip (snd j) = snd j.

(** A joke without a line boundary. *)
Definition one_line (j : Jokes.joke) : Prop :=
  Py.forall_chars not_linebreak (fst j) = true /\
  Py.forall_chars not_linebreak (snd j) = true.

(** The line of the file for a joke: the setup, then the punchline. *)
Definition line_of (j : Jokes.joke) : string := (fst j ++ snd j)%string.

(** The labels show what the stage says: nothing before the first
    joke, then the setup of the current joke, a joke of the list, and
    after the reveal its punchline as well. *)
Definition on_show (app : Jokes.App) : Prop :=
  Jokes.jokes app <> [] /\
  match Jokes.stage app with
  | Jokes.Idle =>
      Jokes.cur app = None /\ Jokes.setup app = EmptyString /\
      Jokes.punch app = EmptyString
  | Jokes.SetupShown =>
      exists j, Jokes.cur app = Some j /\ In j (Jokes.jokes app) /\
        Jokes.setup app = fst j /\ Jokes.punch app = EmptyString
  | Jokes.PunchlineShown =>
      exists j, Jokes.cur app = Some j /\ In j (Jokes.jokes app) /\
        Jokes.setup app = fst j /\ Jokes.punch app = snd j
  end.

(** The states of the window for the file [file]: the first one, and
    those that presses of the button lead to. *)
Inductive reachable (file : option string) : Jokes.App -> Prop :=
| reachable_init (app : Jokes.App) :
    Jokes.init file = ret app -> reachable file app
| reachable_on_start (app app' : Jokes.App) (entry : string) (drawn : nat) :
    reachable file app ->
    (drawn < List.length (Jokes.jokes app))%nat ->
    Jokes.on_start app entry drawn = ret app' ->
    reachable file app'.

(** The records the loop of [load_students] appends for the lines
    [lines], the first of which is line [i] of the file. *)
Fixpoint rows_of (i : nat) (lines : list string) : list Student :=
  match lines with
  | [] => []
  | line :: rest =>
      match load_line i line with
      | inr (Some s) => s :: rows_of (S i) rest
      | _ => rows_of (S i) rest
      end
  end.

Definition alice : Student := mkStudent 1001 "Alice" 18 19 20 90.
Definition bob : Student := mkStudent 1002 "Bob" 10 11 12 50.
Definition carol : Student := mkStudent 1003 "Carol" 5 6 7 30.

(** * Properties *)

(** ** Derived fields *)

Lemma in_ranges_total (s : Student) : in_ranges s -> 0 <= total s <= 160.
Proof. unfold in_ranges, total, cw_total. lia. Qed.

Lemma Qle_bool_false (x y : Q) : Qle_bool x y = false <-> (y < x)%Q.
Proof.
  split; intro H.
  - apply Qnot_le_lt. intro L. apply Qle_bool_iff in L. congruence.
  - destruct (Qle_bool x y) eqn:E; [|reflexivity].
    apply Qle_bool_iff in E. exfalso. exact (Qlt_not_le _ _ H E).
Qed.

Lemma percent_of_le (a b : Z) : (percent_of a <= percent_of b)%Q <-> a <= b.
Proof.
  unfold percent_of, Qle, Qdiv, Qmult, Qinv, inject_Z; simpl. lia.
Qed.

Lemma percent_of_lt (a b : Z) : (percent_of a < percent_of b)%Q <-> a < b.
Proof.
  unfold percent_of, Qlt, Qdiv, Qmult, Qinv, inject_Z; simpl. lia.
Qed.

Lemma percent_of_eq (a b : Z) : (percent_of a == percent_of b)%Q <-> a = b.
Proof.
  unfold percent_of, Qeq, Qdiv, Qmult, Qinv, inject_Z; simpl. lia.
Qed.

Ltac qbool :=
  repeat match goal with
         | H : Qle_bool _ _ = true |- _ => apply Qle_bool_iff in H
         | H : Qle_bool _ _ = false |- _ => apply Qle_bool_false in H
         end.

(** A property checked on every total from 0 to 160 holds of every
    total in that range. *)
Lemma totals_forallb (p : Z -> bool) :
  forallb p (map Z.of_nat (seq 0 161)) = true ->
  forall t, 0 <= t <= 160 -> p t = true.
Proof.
  intros H t Ht.
  rewrite forallb_forall in H. apply H.
  rewrite <- (Z2Nat.id t) by lia.
  apply in_map, in_seq. lia.
Qed.

(** On the totals of the documented range the binary64 percent of the
    source compares with the grade thresholds as its exact value does. *)
Lemma percent_float_thresholds (t : Z) :
  0 <= t <= 160 ->
  grade_of_float (percent_float_of t) = grade_of (percent_of t).
Proof.
  intro Ht.
  apply (totals_forallb
           (fun t => String.eqb (grade_of_float (percent_float_of t))
                                (grade_of (percent_of t)))) in Ht.
  - now apply String.eqb_eq.
  - vm_compute. reflexivity.
Qed.

(** On those totals the binary64 percents are ordered as the exact
    ones, hence as the totals. *)
Lemma percent_float_order (a b : Z) :
  0 <= a <= 160 -> 0 <= b <= 160 ->
  PrimFloat.ltb (percent_float_of a) (percent_float_of b) = (a <? b).
Proof.
  intros Ha Hb.
  apply (totals_forallb
           (fun a => forallb
              (fun b => Bool.eqb
                 (PrimFloat.ltb (percent_float_of a) (percent_float_of b))
                 (a <? b))
              (map Z.of_nat (seq 0 161)))) in Ha.
  - apply Bool.eqb_prop.
    exact (totals_forallb _ Ha b Hb).
  - vm_compute. reflexivity.
Qed.

(** C8: the derived fields are the sums and the quotient the record
    documents, the grade follows the fixed thresholds on the percent,
    and Alice's record has total 147, percent 91.875 (91.9 to one
    decimal) and grade A, in exact and in binary64 arithmetic. *)
Theorem derived_fields_spec (s : Student) :
  cw_total s = cw1 s + cw2 s + cw3 s /\
  total s = cw_total s + exam s /\
  (percent s == inject_Z (total s) / 160 * 100)%Q /\
  ((70 <= percent s)%Q -> grade s = "A") /\
  ((60 <= percent s < 70)%Q -> grade s = "B") /\
  ((50 <= percent s < 60)%Q -> grade s = "C") /\
  ((40 <= percent s < 50)%Q -> grade s = "D") /\
  ((percent s < 40)%Q -> grade s = "F") /\
  (in_ranges s -> grade_of_float (percent_float s) = grade s) /\
  total alice = 147 /\
  (percent alice == 91.875)%Q /\
  (91.85 <= percent alice < 91.95)%Q /\
  percent_float alice = 91.875%float /\
  grade alice = "A" /\
  grade_of_float (percent_float alice) = "A".
Proof.
  unfold grade, grade_of.
  repeat split; try reflexivity;
    try (intro H;
         destruct (Qle_bool 70 (percent s)) eqn:E70;
         destruct (Qle_bool 60 (percent s)) eqn:E60;
         destruct (Qle_bool 50 (percent s)) eqn:E50;
         destruct (Qle_bool 40 (percent s)) eqn:E40;
         try reflexivity; qbool; exfalso; lra).
  - intro R. apply percent_float_thresholds, in_ranges_total, R.
  - vm_compute. intro; discriminate.
Qed.

(** ** Highest and lowest total *)

Section MaxMinFacts.

Context {A : Type}.
Variable key : A -> Z.

(** The scan keeps the first item of the largest key: every item in
    front of it has a strictly smaller key. *)
Lemma max_loop_first (l : list A) :
  forall best, exists l1 l2,
    best :: l = l1 ++ max_loop key best l :: l2 /\
    (forall t, In t l1 -> key t < key (max_loop key best l)) /\
    (forall t, In t l2 -> key t <= key (max_loop key best l)).
Proof.
  induction l as [|x r IH]; intro best; simpl.
  - exists [], []. repeat split; simpl; intros t [].
  - destruct (key best <? key x) eqn:E.
    + apply Z.ltb_lt in E.
      destruct (IH x) as (l1 & l2 & Heq & H1 & H2).
      exists (best :: l1), l2. split; [simpl; now rewrite Heq|]. split; [|exact H2].
      intros t [<-|Ht]; [|now apply H1].
      destruct l1 as [|y l1']; simpl in Heq; injection Heq as Hx _.
      * now rewrite <- Hx.
      * subst y. specialize (H1 x (or_introl eq_refl)). lia.
    + apply Z.ltb_ge in E.
      destruct (IH best) as (l1 & l2 & Heq & H1 & H2).
      destruct l1 as [|y l1']; simpl in Heq; injection Heq as Hb Hr.
      * exists [], (x :: l2).
        split; [simpl; now rewrite <- Hb, Hr|]. split; [intros t []|].
        intros t [<-|Ht]; [now rewrite <- Hb | now apply H2].
      * subst y. exists (best :: x :: l1'), l2.
        split; [simpl; do 2 f_equal; exact Hr|]. split; [|exact H2].
        pose proof (H1 best (or_introl eq_refl)) as Hbest.
        intros t [<-|[<-|Ht]]; [exact Hbest | lia | apply H1; now right].
Qed.

Lemma min_loop_first (l : list A) :
  forall best, exists l1 l2,
    best :: l = l1 ++ min_loop key best l :: l2 /\
    (forall t, In t l1 -> key (min_loop key best l) < key t) /\
    (forall t, In t l2 -> key (min_loop key best l) <= key t).
Proof.
  induction l as [|x r IH]; intro best; simpl.
  - exists [], []. repeat split; simpl; intros t [].
  - destruct (key x <? key best) eqn:E.
    + apply Z.ltb_lt in E.
      destruct (IH x) as (l1 & l2 & Heq & H1 & H2).
      exists (best :: l1), l2. split; [simpl; now rewrite Heq|]. split; [|exact H2].
      intros t [<-|Ht]; [|now apply H1].
      destruct l1 as [|y l1']; simpl in Heq; injection Heq as Hx _.
      * now rewrite <- Hx.
      * subst y. specialize (H1 x (or_introl eq_refl)). lia.
    + apply Z.ltb_ge in E.
      destruct (IH best) as (l1 & l2 & Heq & H1 & H2).
      destruct l1 as [|y l1']; simpl in Heq; injection Heq as Hb Hr.
      * exists [], (x :: l2).
        split; [simpl; now rewrite <- Hb, Hr|]. split; [intros t []|].
        intros t [<-|Ht]; [now rewrite <- Hb | now apply H2].
      * subst y. exists (best :: x :: l1'), l2.
        split; [simpl; do 2 f_equal; exact Hr|]. split; [|exact H2].
        pose proof (H1 best (or_introl eq_refl)) as Hbest.
        intros t [<-|[<-|Ht]]; [exact Hbest | lia | apply H1; now right].
Qed.

End MaxMinFacts.

(** C9: on a roster that is not empty [show_highest] shows the first
    record of maximum total and [show_lowest] the first record of
    minimum total; on an empty roster both show nothing. *)
Theorem highest_lowest_first (app : App) :
  (students app = [] ->
   show_highest app = ret None /\ show_lowest app = ret None) /\
  (students app <> [] ->
   (exists s l1 l2,
       show_highest app = ret (Some s) /\
       students app = l1 ++ s :: l2 /\
       (forall t, In t l1 -> total t < total s) /\
       (forall t, In t l2 -> total t <= total s)) /\
   (exists s l1 l2,
       show_lowest app = ret (Some s) /\
       students app = l1 ++ s :: l2 /\
       (forall t, In t l1 -> total s < total t) /\
       (forall t, In t l2 -> total s <= total t))).
Proof.
  unfold show_highest, show_lowest.
  destruct (students app) as [|x r]; split.
  - intros _. split; reflexivity.
  - intros H. now contradiction H.
  - discriminate.
  - intros _. split.
    + destruct (max_loop_first total r x) as (l1 & l2 & Heq & H1 & H2).
      exists (max_loop total x r), l1, l2. simpl. auto.
    + destruct (min_loop_first total r x) as (l1 & l2 & Heq & H1 & H2).
      exists (min_loop total x r), l1, l2. simpl. auto.
Qed.

(** ** Add, delete and update *)

Lemma has_code_true (c : Z) (l : list Student) :
  has_code c l = true <-> exists st, In st l /\ code st = c.
Proof.
  unfold has_code. rewrite existsb_exists.
  split; intros (st & Hin & H); exists st; split; auto; now apply Z.eqb_eq.
Qed.

Lemma has_code_false (c : Z) (l : list Student) :
  has_code c l = false <-> forall st, In st l -> code st <> c.
Proof.
  split.
  - intros H st Hin Hc.
    assert (T : has_code c l = true) by (apply has_code_true; eauto).
    congruence.
  - intro H. destruct (has_code c l) eqn:E; [|reflexivity].
    apply has_code_true in E. destruct E as (st & Hin & Hc).
    now destruct (H st Hin).
Qed.

Lemma find_by_code_none (l : list Student) (c : Z) :
  find_by_code l c = None <-> forall st, In st l -> code st <> c.
Proof.
  unfold find_by_code. split.
  - intros H st Hin Hc.
    apply (find_none _ _ H) in Hin. subst c. now rewrite Z.eqb_refl in Hin.
  - intro H. induction l as [|x r IH]; [reflexivity|]. simpl.
    destruct (c =? code x) eqn:E.
    + apply Z.eqb_eq in E. destruct (H x); [now left | congruence].
    + apply IH. intros st Hin. apply H. now right.
Qed.

(** The search skips a prefix that does not hold the code. *)
Lemma find_by_code_app (l1 l2 : list Student) (c : Z) :
  (forall st, In st l1 -> code st <> c) ->
  find_by_code (l1 ++ l2) c = find_by_code l2 c.
Proof.
  unfold find_by_code. induction l1 as [|x r IH]; intro H; [reflexivity|].
  simpl. destruct (c =? code x) eqn:E.
  - apply Z.eqb_eq in E. destruct (H x); [now left | congruence].
  - apply IH. intros st Hin. apply H. now right.
Qed.

Lemma find_by_code_head (s : Student) (l : list Student) :
  find_by_code (s :: l) (code s) = Some s.
Proof. unfold find_by_code. simpl. now rewrite Z.eqb_refl. Qed.

(** C4: [add_student] reports a duplicate and changes nothing when the
    code of the new record is already in the roster; otherwise it
    appends the record, saves and reports success, and looking its code
    up afterwards finds the record added. *)
Theorem add_student_spec (app : App) (s : Student) :
  ((exists st, In st (students app) /\ code st = code s) ->
   add_student app (Some s) = (app, Some (Duplicate (code s))) /\
   is_error (snd (add_student app (Some s))) = true) /\
  ((forall st, In st (students app) -> code st <> code s) ->
   exists app',
     add_student app (Some s) = (app', Some (Added s)) /\
     students app' = students app ++ [s] /\
     data app' = save_students (students app') /\
     find_by_code (students app') (code s) = Some s).
Proof.
  unfold add_student. split; intro H.
  - apply has_code_true in H. rewrite H. split; reflexivity.
  - pose proof H as H'. apply has_code_false in H'. rewrite H'.
    eexists. split; [reflexivity|]. simpl. repeat split.
    rewrite find_by_code_app by exact H. apply find_by_code_head.
Qed.

(** *** Delete *)

Lemma filter_code_app_unique (l1 l2 : list Student) (s : Student) :
  NoDup (map code (l1 ++ s :: l2)) ->
  filter (fun x => negb (code x =? code s)) (l1 ++ s :: l2) = l1 ++ l2.
Proof.
  intro N.
  assert (K : forall l, (forall x, In x l -> code x <> code s) ->
                        filter (fun x => negb (code x =? code s)) l = l).
  { induction l as [|y r IH]; intro H; [reflexivity|]. simpl.
    destruct (code y =? code s) eqn:E.
    - apply Z.eqb_eq in E. destruct (H y); [now left | exact E].
    - simpl. f_equal. apply IH. intros x Hx. apply H. now right. }
  rewrite map_app in N. simpl in N.
  pose proof (NoDup_remove_2 _ _ _ N) as Hs.
  rewrite filter_app. simpl. rewrite Z.eqb_refl. simpl.
  rewrite !K; [reflexivity| |];
    intros x Hx Hc; apply Hs, in_or_app; [right|left];
    rewrite <- Hc; now apply in_map.
Qed.

(** C5, as the code has it: [delete_student] acts on a record picked
    from the roster, so a record with its code exists; once confirmed it
    removes every record with that code and keeps the others in their
    order (with unique codes: exactly the record picked), saves and
    reports success, and looking the code up afterwards finds nothing. *)
Theorem delete_student_spec (app : App) (s : Student) :
  In s (students app) ->
  exists app',
    delete_student app (Some s) true = (app', Some (Deleted s)) /\
    students app' = filter (fun x => negb (code x =? code s)) (students app) /\
    (forall l1 l2, students app = l1 ++ s :: l2 ->
                   NoDup (map code (students app)) ->
                   students app' = l1 ++ l2) /\
    data app' = save_students (students app') /\
    find_by_code (students app') (code s) = None.
Proof.
  intro Hin. unfold delete_student.
  destruct (students app) as [|x r] eqn:E; [destruct Hin|].
  eexists. split; [reflexivity|]. cbn [students data negb].
  split; [reflexivity|]. split; [|split; [reflexivity|]].
  - intros l1 l2 Heq N. rewrite Heq in *. now apply filter_code_app_unique.
  - apply find_by_code_none. intros st Hst Hc.
    apply filter_In in Hst. destruct Hst as [_ Hst].
    rewrite Hc, Z.eqb_refl in Hst. discriminate.
Qed.

Lemma delete_student_spec_witness :
  exists app',
    delete_student (mkApp [alice; bob; carol] None) (Some bob) true
    = (app', Some (Deleted bob)) /\
    students app' = [alice; carol].
Proof.
  destruct (delete_student_spec (mkApp [alice; bob; carol] None) bob)
    as (app' & H1 & H2 & _).
  - simpl. auto.
  - exists app'. split; [exact H1|]. rewrite H2. reflexivity.
Defined.

(** C5 as stated fails: deleting a code no record has is reported as a
    success, not as a failure, and on an empty roster the action ends
    without any report. *)
Lemma delete_absent_is_not_reported :
  (forall st, In st [alice] -> code st <> code bob) /\
  delete_student (mkApp [alice] None) (Some bob) true
  = (mkApp [alice] (save_students [alice]), Some (Deleted bob)) /\
  is_error (snd (delete_student (mkApp [alice] None) (Some bob) true)) = false /\
  delete_student (mkApp [] None) (Some bob) true = (mkApp [] None, None).
Proof.
  repeat split.
  intros st [<-|[]]. discriminate.
Qed.

(** *** Update *)

Lemma replace_first_split (c : Z) (s : Student) (l : list Student) :
  (exists st, In st l /\ code st = c) ->
  exists l1 t l2,
    l = l1 ++ t :: l2 /\ code t = c /\
    (forall x, In x l1 -> code x <> c) /\
    replace_first c s l = l1 ++ s :: l2.
Proof.
  induction l as [|y r IH]; intros (st & Hin & Hc); [destruct Hin|].
  simpl. destruct (code y =? c) eqn:E.
  - apply Z.eqb_eq in E. exists [], y, r. repeat split; auto.
  - apply Z.eqb_neq in E.
    destruct IH as (l1 & t & l2 & Heq & Ht & Hl1 & Hr).
    { destruct Hin as [->|Hin]; [contradiction|]. eauto. }
    exists (y :: l1), t, l2. simpl. rewrite <- Heq, Hr.
    repeat split; auto. intros x [<-|Hx]; auto.
Qed.

Lemma replace_first_absent (c : Z) (s : Student) (l : list Student) :
  (forall st, In st l -> code st <> c) -> replace_first c s l = l.
Proof.
  induction l as [|y r IH]; intro H; [reflexivity|]. simpl.
  destruct (code y =? c) eqn:E.
  - apply Z.eqb_eq in E. destruct (H y); [now left | exact E].
  - f_equal. apply IH. intros st Hin. apply H. now right.
Qed.

Lemma replace_first_length (c : Z) (s : Student) (l : list Student) :
  List.length (replace_first c s l) = List.length l.
Proof.
  induction l as [|y r IH]; [reflexivity|]. simpl.
  destruct (code y =? c); simpl; congruence.
Qed.

(** C3, as the code has it: [update_student] edits a record [s0]
    picked from the roster, so a record with the old code exists. When
    the new code differs from the old one and another record has it, a
    duplicate is reported and nothing changes; otherwise the first
    record with the old code is replaced where it stands, the roster is
    saved and success is reported. *)
Theorem update_student_spec (app : App) (s0 s : Student) :
  In s0 (students app) ->
  (code s <> code s0 /\ (exists st, In st (students app) /\ code st = code s) ->
   update_student app (Some s0) (Some s) = (app, Some (Duplicate (code s)))) /\
  (code s = code s0 \/ (forall st, In st (students app) -> code st <> code s) ->
   exists l1 t l2,
     students app = l1 ++ t :: l2 /\ code t = code s0 /\
     (forall x, In x l1 -> code x <> code s0) /\
     update_student app (Some s0) (Some s)
     = (mkApp (l1 ++ s :: l2) (save_students (l1 ++ s :: l2)),
        Some (Updated s))).
Proof.
  intro Hin. unfold update_student.
  destruct (students app) as [|x r] eqn:E; [destruct Hin|].
  rewrite <- E in *. split.
  - intros [Hne Hex]. apply has_code_true in Hex. rewrite Hex.
    apply Z.eqb_neq in Hne. now rewrite Hne.
  - intro H.
    assert (G : negb (code s =? code s0) && has_code (code s) (students app)
                = false).
    { destruct H as [H|H].
      - rewrite H, Z.eqb_refl. reflexivity.
      - apply has_code_false in H. rewrite H. apply andb_false_r. }
    rewrite G.
    destruct (replace_first_split (code s0) s (students app))
      as (l1 & t & l2 & Heq & Ht & Hl1 & Hr); [eauto|].
    exists l1, t, l2. rewrite Hr. auto.
Qed.

Lemma update_student_spec_witness :
  update_student (mkApp [alice; bob; carol] None) (Some bob)
    (Some (mkStudent 1002 "Robert" 1 2 3 4))
  = (mkApp [alice; mkStudent 1002 "Robert" 1 2 3 4; carol]
       (save_students [alice; mkStudent 1002 "Robert" 1 2 3 4; carol]),
     Some (Updated (mkStudent 1002 "Robert" 1 2 3 4)))
  /\ update_student (mkApp [alice; bob; carol] None) (Some bob)
       (Some (mkStudent 1003 "Robert" 1 2 3 4))
     = (mkApp [alice; bob; carol] None, Some (Duplicate 1003)).
Proof.
  destruct (update_student_spec (mkApp [alice; bob; carol] None) bob
              (mkStudent 1002 "Robert" 1 2 3 4)) as [_ H]; [simpl; auto|].
  destruct (update_student_spec (mkApp [alice; bob; carol] None) bob
              (mkStudent 1003 "Robert" 1 2 3 4)) as [D _]; [simpl; auto|].
  split.
  - reflexivity.
  - apply D. split; [discriminate|]. exists carol. simpl. auto.
Defined.

(** C3 as stated fails: an update whose old code no record has leaves
    the roster as it is and reports success, not a failure, and on an
    empty roster the action ends without any report. *)
Lemma update_absent_is_not_reported :
  (forall st, In st [alice] -> code st <> code bob) /\
  update_student (mkApp [alice] None) (Some bob) (Some carol)
  = (mkApp [alice] (save_students [alice]), Some (Updated carol)) /\
  is_error (snd (update_student (mkApp [alice] None) (Some bob) (Some carol)))
  = false /\
  update_student (mkApp [] None) (Some bob) (Some carol) = (mkApp [] None, None).
Proof.
  repeat split.
  intros st [<-|[]]. discriminate.
Qed.

(** ** Sorting *)

Section StableSortFacts.

Context {A K : Type}.
Variable key : A -> K.
Variable lt : K -> K -> bool.

(** [lt] orders the keys as [<] orders numbers: a strict weak order. *)
Hypothesis lt_irrefl : forall x, lt x x = false.
Hypothesis lt_trans : forall x y z, lt x y = true -> lt y z = true -> lt x z = true.
Hypothesis lt_split : forall x y z, lt x z = true -> lt x y = true \/ lt y z = true.

Lemma insert_perm (x : A) (l : list A) : Permutation (insert key lt x l) (x :: l).
Proof.
  induction l as [|y r IH]; simpl; [reflexivity|].
  destruct (lt (key y) (key x)); [|reflexivity].
  rewrite IH. apply perm_swap.
Qed.

Lemma stable_sort_perm (l : list A) : Permutation (stable_sort key lt l) l.
Proof.
  induction l as [|x r IH]; simpl; [reflexivity|].
  rewrite insert_perm. now apply perm_skip.
Qed.

Lemma insert_sorted (x : A) (l : list A) :
  StronglySorted (key_le key lt) l -> StronglySorted (key_le key lt) (insert key lt x l).
Proof.
  induction 1 as [|y r Hr IH Hy]; simpl.
  - constructor; constructor.
  - destruct (lt (key y) (key x)) eqn:E.
    + constructor; [exact IH|].
      rewrite Forall_forall in *. intros z Hz.
      apply (Permutation_in _ (insert_perm x r)) in Hz.
      destruct Hz as [<-|Hz]; [|now apply Hy].
      unfold key_le. destruct (lt (key x) (key y)) eqn:E2; [|reflexivity].
      rewrite <- (lt_irrefl (key x)). symmetry. now apply lt_trans with (key y).
    + constructor; [now constructor|].
      constructor; [exact E|].
      rewrite Forall_forall in *. intros z Hz. specialize (Hy z Hz).
      unfold key_le in *. destruct (lt (key z) (key x)) eqn:E2; [|reflexivity].
      destruct (lt_split _ (key y) _ E2); congruence.
Qed.

Lemma stable_sort_sorted (l : list A) : StronglySorted (key_le key lt) (stable_sort key lt l).
Proof.
  induction l as [|x r IH]; simpl; [constructor | now apply insert_sorted].
Qed.

(** Inserting [x] puts it in front of the elements of its own key. *)
Lemma insert_filter (k : K) (x : A) (l : list A) :
  filter (same_key key lt k) (insert key lt x l) = filter (same_key key lt k) (x :: l).
Proof.
  induction l as [|y r IH]; [reflexivity|].
  simpl insert. destruct (lt (key y) (key x)) eqn:E; [|reflexivity].
  simpl filter in *. rewrite IH.
  destruct (same_key key lt k y) eqn:Ey, (same_key key lt k x) eqn:Ex; try reflexivity.
  exfalso. unfold same_key in *.
  apply andb_true_iff in Ey, Ex. destruct Ey as [Ey1 Ey2], Ex as [Ex1 Ex2].
  apply negb_true_iff in Ey1, Ey2, Ex1, Ex2.
  destruct (lt_split _ k _ E); congruence.
Qed.

(** Stability: the elements of one key come out in the order they
    went in. *)
Lemma stable_sort_filter (k : K) (l : list A) :
  filter (same_key key lt k) (stable_sort key lt l) = filter (same_key key lt k) l.
Proof.
  induction l as [|x r IH]; [reflexivity|].
  simpl stable_sort. rewrite insert_filter. simpl. now rewrite IH.
Qed.

Lemma stable_sort_id (l : list A) :
  StronglySorted (key_le key lt) l -> stable_sort key lt l = l.
Proof.
  induction 1 as [|x r Hr IH Hx]; [reflexivity|].
  simpl. rewrite IH. destruct r as [|y r']; [reflexivity|]. simpl.
  inversion Hx as [|? ? Hy _]; subst. unfold key_le in Hy. now rewrite Hy.
Qed.

Lemma stable_sort_idempotent (l : list A) :
  stable_sort key lt (stable_sort key lt l) = stable_sort key lt l.
Proof. apply stable_sort_id, stable_sort_sorted. Qed.

Lemma StronglySorted_snoc (R : A -> A -> Prop) (l : list A) (x : A) :
  StronglySorted R l -> Forall (fun y => R y x) l -> StronglySorted R (l ++ [x]).
Proof.
  induction 1 as [|y r Hr IH Hy]; intro H; simpl.
  - constructor; constructor.
  - inversion H; subst. constructor; [now apply IH|].
    apply Forall_app. split; [exact Hy | now constructor].
Qed.

Lemma StronglySorted_rev (R : A -> A -> Prop) (l : list A) :
  StronglySorted R l -> StronglySorted (fun a b => R b a) (rev l).
Proof.
  induction 1 as [|x r Hr IH Hx]; simpl; [constructor|].
  apply StronglySorted_snoc; [exact IH|].
  apply Forall_rev. exact Hx.
Qed.

Lemma list_sort_perm (reverse : bool) (l : list A) :
  Permutation (list_sort key lt reverse l) l.
Proof.
  unfold list_sort. destruct reverse; [|apply stable_sort_perm].
  rewrite <- Permutation_rev, stable_sort_perm. symmetry. apply Permutation_rev.
Qed.

Lemma list_sort_sorted (reverse : bool) (l : list A) :
  StronglySorted (fun a b => if reverse then (key_le key lt) b a else (key_le key lt) a b)
    (list_sort key lt reverse l).
Proof.
  unfold list_sort. destruct reverse; [|apply stable_sort_sorted].
  apply StronglySorted_rev, stable_sort_sorted.
Qed.

Lemma list_sort_filter (reverse : bool) (k : K) (l : list A) :
  filter (same_key key lt k) (list_sort key lt reverse l) = filter (same_key key lt k) l.
Proof.
  unfold list_sort. destruct reverse; [|apply stable_sort_filter].
  now rewrite filter_rev, stable_sort_filter, filter_rev, rev_involutive.
Qed.

Lemma list_sort_idempotent (reverse : bool) (l : list A) :
  list_sort key lt reverse (list_sort key lt reverse l)
  = list_sort key lt reverse l.
Proof.
  unfold list_sort. destruct reverse; [|apply stable_sort_idempotent].
  now rewrite rev_involutive, stable_sort_idempotent.
Qed.

End StableSortFacts.

(** Two keys that compare alike on the elements of a list sort it
    alike. *)
Lemma stable_sort_ext {A K1 K2 : Type} (key1 : A -> K1) (lt1 : K1 -> K1 -> bool)
    (key2 : A -> K2) (lt2 : K2 -> K2 -> bool) (l : list A) :
  (forall a b, In a l -> In b l -> lt1 (key1 a) (key1 b) = lt2 (key2 a) (key2 b)) ->
  stable_sort key1 lt1 l = stable_sort key2 lt2 l.
Proof.
  induction l as [|x r IH]; intro H; [reflexivity|].
  simpl. rewrite IH by (intros; apply H; now right).
  assert (S : forall m, (forall y, In y m -> In y r) ->
                        insert key1 lt1 x m = insert key2 lt2 x m).
  { induction m as [|y m IHm]; intro Hm; [reflexivity|]. simpl.
    rewrite H by (simpl; auto using in_eq).
    rewrite IHm by (intros; apply Hm; now right). reflexivity. }
  apply S. intros y Hy.
  pose proof (stable_sort_perm key2 lt2 r) as P.
  exact (Permutation_in _ P Hy).
Qed.

(** *** The order of binary64 *)

Lemma rank_lt_iff (x y : Z * Z * Z) :
  rank_lt x y = true <->
  (fst (fst x) < fst (fst y) \/
   (fst (fst x) = fst (fst y) /\
    (snd (fst x) < snd (fst y) \/
     (snd (fst x) = snd (fst y) /\ snd x < snd y)))).
Proof.
  destruct x as [[x1 x2] x3], y as [[y1 y2] y3]. cbn [rank_lt fst snd].
  rewrite !orb_true_iff, !andb_true_iff, !orb_true_iff, !andb_true_iff,
    !Z.ltb_lt, !Z.eqb_eq. tauto.
Qed.

Lemma rank_lt_false (x y : Z * Z * Z) :
  rank_lt x y = false <-> ~ (rank_lt x y = true).
Proof. destruct (rank_lt x y); split; congruence. Qed.

Lemma rank_lt_irrefl (x : Z * Z * Z) : rank_lt x x = false.
Proof. apply rank_lt_false. rewrite rank_lt_iff. lia. Qed.

Lemma rank_lt_trans (x y z : Z * Z * Z) :
  rank_lt x y = true -> rank_lt y z = true -> rank_lt x z = true.
Proof. rewrite !rank_lt_iff. lia. Qed.

Lemma rank_lt_split (x y z : Z * Z * Z) :
  rank_lt x z = true -> rank_lt x y = true \/ rank_lt y z = true.
Proof. rewrite !rank_lt_iff. lia. Qed.

Lemma rank_lt_total (x y : Z * Z * Z) :
  rank_lt x y = false -> rank_lt y x = false -> x = y.
Proof.
  rewrite !rank_lt_false, !rank_lt_iff.
  destruct x as [[x1 x2] x3], y as [[y1 y2] y3]. cbn [fst snd].
  intros H1 H2. repeat f_equal; lia.
Qed.

(** What [SFcompare] finds is the order of the ranks. *)
Lemma SFcompare_rank (x y : spec_float) :
  is_number x = true -> is_number y = true ->
  exists c, SFcompare x y = Some c /\
    match c with
    | Lt => rank_lt (rank x) (rank y) = true
    | Eq => rank x = rank y
    | Gt => rank_lt (rank y) (rank x) = true
    end.
Proof.
  intros Nx Ny.
  destruct x as [sx|sx| |sx mx ex]; try discriminate Nx;
    destruct y as [sy|sy| |sy my ey]; try discriminate Ny;
    cbn [SFcompare rank];
    try (destruct sx); try (destruct sy);
    try (eexists; split; [reflexivity|]; reflexivity).
  all: eexists; (split; [reflexivity|]).
  all: try (destruct (Z.compare_spec ex ey) as [E|E|E]).
  all: try (rewrite rank_lt_iff; cbn [fst snd]; lia).
  all: subst; change (Pos.compare_cont Eq mx my) with (Pos.compare mx my);
    destruct (Pos.compare_spec mx my) as [M|M|M]; cbn [CompOpp];
    try (rewrite rank_lt_iff; cbn [fst snd]; lia); subst; reflexivity.
Qed.

Lemma SFltb_rank (x y : spec_float) :
  is_number x = true -> is_number y = true ->
  SFltb x y = rank_lt (rank x) (rank y).
Proof.
  intros Nx Ny. destruct (SFcompare_rank x y Nx Ny) as (c & E & H).
  unfold SFltb. rewrite E. destruct c.
  - rewrite H. symmetry. apply rank_lt_irrefl.
  - now rewrite H.
  - symmetry. apply rank_lt_false. intro K.
    pose proof (rank_lt_trans _ _ _ H K) as T.
    rewrite rank_lt_irrefl in T. discriminate T.
Qed.

Lemma SFleb_rank (x y : spec_float) :
  is_number x = true -> is_number y = true ->
  SFleb x y = negb (rank_lt (rank y) (rank x)).
Proof.
  intros Nx Ny. destruct (SFcompare_rank x y Nx Ny) as (c & E & H).
  unfold SFleb. rewrite E. destruct c.
  - rewrite H, rank_lt_irrefl. reflexivity.
  - symmetry. apply negb_true_iff, rank_lt_false. intro K.
    pose proof (rank_lt_trans _ _ _ H K) as T.
    rewrite rank_lt_irrefl in T. discriminate T.
  - now rewrite H.
Qed.

Lemma SFeqb_rank (x y : spec_float) :
  is_number x = true -> is_number y = true ->
  SFeqb x y = negb (rank_lt (rank x) (rank y)) && negb (rank_lt (rank y) (rank x)).
Proof.
  intros Nx Ny. destruct (SFcompare_rank x y Nx Ny) as (c & E & H).
  unfold SFeqb. rewrite E. destruct c.
  - rewrite H, rank_lt_irrefl. reflexivity.
  - now rewrite H.
  - rewrite H, andb_false_r. reflexivity.
Qed.

(** *** Rounding gives a number *)

Lemma shr_1_nonneg (mrs : shr_record) : 0 <= shr_m mrs -> 0 <= shr_m (shr_1 mrs).
Proof.
  destruct mrs as [m r s]. cbn [shr_m]. intro H.
  destruct m as [|p|p]; [cbn; lia | | lia].
  destruct p; cbn; lia.
Qed.

Lemma iter_pos_shr_1_nonneg (p : positive) (mrs : shr_record) :
  0 <= shr_m mrs -> 0 <= shr_m (iter_pos shr_1 p mrs).
Proof.
  revert mrs. induction p as [p IH|p IH|]; intros mrs H; cbn [iter_pos].
  - apply IH, IH, shr_1_nonneg, H.
  - apply IH, IH, H.
  - apply shr_1_nonneg, H.
Qed.

Lemma shr_fexp_nonneg (m e : Z) (l : location) :
  0 <= m -> 0 <= shr_m (fst (shr_fexp Binary64.prec Binary64.emax m e l)).
Proof.
  intro H. unfold shr_fexp, shr.
  assert (R : 0 <= shr_m (shr_record_of_loc m l)).
  { unfold shr_record_of_loc. destruct l as [|[]]; exact H. }
  destruct (fexp Binary64.prec Binary64.emax (Zdigits2 m + e) - e);
    cbn [fst]; auto using iter_pos_shr_1_nonneg.
Qed.

Lemma round_nearest_even_nonneg (m : Z) (l : location) :
  0 <= m -> 0 <= round_nearest_even m l.
Proof.
  intro H. unfold round_nearest_even.
  destruct l as [|[]]; try destruct (Z.even m); lia.
Qed.

Lemma binary_round_aux_number (s : bool) (m e : Z) (l : location) :
  0 <= m ->
  is_number (binary_round_aux Binary64.prec Binary64.emax s m e l) = true.
Proof.
  intro H. unfold binary_round_aux.
  pose proof (shr_fexp_nonneg m e l H) as H1.
  destruct (shr_fexp Binary64.prec Binary64.emax m e l) as [mrs' e'].
  cbn [fst] in H1.
  pose proof (shr_fexp_nonneg
                (round_nearest_even (shr_m mrs') (loc_of_shr_record mrs'))
                e' loc_Exact (round_nearest_even_nonneg _ _ H1)) as H2.
  destruct (shr_fexp Binary64.prec Binary64.emax
              (round_nearest_even (shr_m mrs') (loc_of_shr_record mrs'))
              e' loc_Exact) as [mrs'' e''].
  cbn [fst] in H2.
  destruct (shr_m mrs'') as [|p|p]; [reflexivity | | lia].
  destruct (e'' <=? Binary64.emax - Binary64.prec); reflexivity.
Qed.

(** The quotient of two integers is a number when nothing is raised,
    and then it is finite. *)
Lemma true_divide_number (a : Z) (b : positive) (q : spec_float) :
  Binary64.true_divide a b = ret q ->
  is_number q = true /\ (forall s, q <> S754_infinity s).
Proof.
  unfold Binary64.true_divide. intro H.
  assert (N : is_number (SFdiv Binary64.prec Binary64.emax (Binary64.exact a)
                           (Binary64.exact (Z.pos b))) = true).
  { destruct a as [|p|p]; cbn [Binary64.exact SFdiv]; try reflexivity.
    all: unfold SFdiv_core_binary.
    all: match goal with
         | |- context [Z.div_eucl ?x ?y] =>
             pose proof (Z.div_pos x y) as D;
             change (Z.div x y) with (fst (Z.div_eucl x y)) in D;
             destruct (Z.div_eucl x y) as [q' r'] eqn:E
         end.
    all: apply binary_round_aux_number; apply D; [|lia].
    all: match goal with
         | |- 0 <= match ?s with _ => _ end =>
             destruct s; try lia; apply Z.shiftl_nonneg; lia
         end. }
  destruct (SFdiv Binary64.prec Binary64.emax (Binary64.exact a)
              (Binary64.exact (Z.pos b))) as [s|s| |s m e];
    try discriminate; injection H as <-; split; try reflexivity;
    intros ?; discriminate.
Qed.

Lemma percent_binary64_number (t : Z) (p : spec_float) :
  percent_binary64_of t = ret p -> is_number p = true.
Proof.
  unfold percent_binary64_of. intro H.
  destruct (Binary64.true_divide t 160) as [e|q] eqn:E; [discriminate|].
  destruct (true_divide_number _ _ _ E) as [N I].
  cbn [bind ret] in H. injection H as <-.
  unfold Binary64.mul, Binary64.hundred.
  destruct q as [s|s| |s m e]; try reflexivity; try discriminate N.
  cbn [SFmul]. apply binary_round_aux_number. lia.
Qed.

(** A percent raises nothing but [OverflowError]. *)
Lemma percent_binary64_error (t : Z) (e : exn) :
  percent_binary64_of t = inl e -> e = OverflowError.
Proof.
  unfold percent_binary64_of, Binary64.true_divide.
  destruct (SFdiv Binary64.prec Binary64.emax (Binary64.exact t)
              (Binary64.exact 160)); cbn [bind ret raise]; intro H;
    try discriminate H; unfold raise in H; congruence.
Qed.

(** *** Sorting with keys that are computed first *)

Lemma mapM_total {A B : Type} (f : A -> result B) (g : A -> B) (l : list A) :
  (forall a, In a l -> f a = ret (g a)) -> mapM f l = ret (map g l).
Proof.
  induction l as [|a l IH]; intro H; [reflexivity|].
  cbn [mapM map]. rewrite (H a (in_eq _ _)). cbn [bind ret].
  rewrite IH by (intros; apply H; now right). reflexivity.
Qed.

Lemma mapM_returns {A B : Type} (f : A -> result B) (l : list A) (bs : list B) :
  mapM f l = ret bs -> Forall (fun a => exists b, f a = ret b) l.
Proof.
  revert bs. induction l as [|a l IH]; intros bs H; [constructor|].
  cbn [mapM] in H. destruct (f a) as [e|b] eqn:E; [discriminate|].
  cbn [bind ret] in H. destruct (mapM f l) as [e|bs'] eqn:M; [discriminate|].
  constructor; [now exists b | now apply (IH bs')].
Qed.

Lemma mapM_raises {A B : Type} (f : A -> result B) (l : list A) (e : exn) :
  mapM f l = inl e -> exists a, In a l /\ f a = inl e.
Proof.
  induction l as [|a l IH]; intro H; [discriminate|].
  cbn [mapM] in H. destruct (f a) as [e'|b] eqn:E.
  - injection H as <-. exists a. split; [apply in_eq | exact E].
  - cbn [bind ret] in H. destruct (mapM f l) as [e'|bs] eqn:M; [|discriminate].
    injection H as <-. destruct (IH eq_refl) as (x & I & F).
    exists x. split; [now right | exact F].
Qed.

Section SortByKey.

Context {A K : Type}.
Variable key : A -> result K.
Variable value : A -> K.
Variable lt : K -> K -> bool.

Lemma combine_keyed (l : list A) :
  combine (map value l) l = map (fun a => (value a, a)) l.
Proof.
  induction l as [|a l IH]; [reflexivity|].
  cbn [map combine]. now rewrite IH.
Qed.

Lemma insert_keyed (x : A) (l : list A) :
  insert fst lt (value x, x) (map (fun a => (value a, a)) l)
  = map (fun a => (value a, a)) (insert value lt x l).
Proof.
  induction l as [|y l IH]; [reflexivity|].
  cbn [map insert fst].
  destruct (lt (value y) (value x)); [|reflexivity].
  cbn [map]. now rewrite IH.
Qed.

Lemma stable_sort_keyed (l : list A) :
  stable_sort fst lt (map (fun a => (value a, a)) l)
  = map (fun a => (value a, a)) (stable_sort value lt l).
Proof.
  induction l as [|x l IH]; [reflexivity|].
  cbn [map stable_sort]. now rewrite IH, insert_keyed.
Qed.

Lemma list_sort_keyed (reverse : bool) (l : list A) :
  map snd (list_sort fst lt reverse (map (fun a => (value a, a)) l))
  = list_sort value lt reverse l.
Proof.
  assert (S : forall m, map snd (map (fun a => (value a, a)) m) = m).
  { intro m. rewrite map_map. apply map_id. }
  unfold list_sort. destruct reverse.
  - now rewrite <- map_rev, stable_sort_keyed, <- map_rev, S.
  - now rewrite stable_sort_keyed, S.
Qed.

(** When no key raises, the sort is the sort on the values of the
    keys. *)
Lemma sort_by_key_total (reverse : bool) (l : list A) :
  (forall a, In a l -> key a = ret (value a)) ->
  sort_by_key key lt reverse l = ret (list_sort value lt reverse l).
Proof.
  intro H. unfold sort_by_key. rewrite (mapM_total key value l H).
  cbn [bind ret]. now rewrite combine_keyed, list_sort_keyed.
Qed.

End SortByKey.

(** *** [sort_records] *)

Lemma computable_value (l : list Student) :
  computable l <->
  (forall s, In s l -> percent_binary64 s = ret (percent_value s)).
Proof.
  unfold computable. rewrite Forall_forall. split; intros H s I.
  - destruct (H s I) as (p & E). unfold percent_value. now rewrite E.
  - eauto.
Qed.

Lemma percent_value_number (s : Student) : is_number (percent_value s) = true.
Proof.
  unfold percent_value.
  destruct (percent_binary64 s) as [e|p] eqn:E; [reflexivity|].
  exact (percent_binary64_number _ _ E).
Qed.

Lemma computable_perm (l m : list Student) :
  Permutation l m -> computable l -> computable m.
Proof. intros P. unfold computable. now rewrite P. Qed.

(** The order of the percents is the order of their ranks. *)
Lemma list_sort_rank (reverse : bool) (l : list Student) :
  list_sort percent_value SFltb reverse l
  = list_sort (fun s => rank (percent_value s)) rank_lt reverse l.
Proof.
  unfold list_sort.
  destruct reverse; [f_equal|]; apply stable_sort_ext; intros a b _ _;
    apply SFltb_rank; apply percent_value_number.
Qed.

(** What [sort_records] returns when every percent is a number. *)
Lemma sort_records_computable (app : App) (asc : bool) :
  computable (students app) ->
  sort_records app asc
  = ret (mkApp (list_sort (fun s => rank (percent_value s)) rank_lt (negb asc)
                  (students app))
           (data app)).
Proof.
  intro C. unfold sort_records.
  destruct (students app) as [|x r] eqn:E.
  - destruct app as [l d]. cbn [students] in E. subst l. now destruct asc.
  - rewrite (sort_by_key_total percent_binary64 percent_value)
      by now apply computable_value.
    cbn [bind ret]. now rewrite list_sort_rank.
Qed.

(** [sort_records] returns only when every percent is a number, and
    it raises nothing but [OverflowError]. *)
Lemma sort_records_returns (app app' : App) (asc : bool) :
  sort_records app asc = ret app' -> computable (students app).
Proof.
  unfold sort_records, sort_by_key. intro H.
  destruct (students app) as [|x r]; [constructor|].
  destruct (mapM percent_binary64 (x :: r)) as [e|ks] eqn:M; [discriminate|].
  exact (mapM_returns _ _ _ M).
Qed.

Lemma sort_records_raises (app : App) (asc : bool) (e : exn) :
  sort_records app asc = inl e ->
  e = OverflowError /\ ~ computable (students app).
Proof.
  intro H. split.
  - unfold sort_records, sort_by_key in H.
    destruct (students app) as [|x r]; [discriminate|].
    destruct (mapM percent_binary64 (x :: r)) as [e'|ks] eqn:M; [|discriminate].
    injection H as <-. destruct (mapM_raises _ _ _ M) as (s & _ & F).
    exact (percent_binary64_error _ _ F).
  - intro C. rewrite (sort_records_computable app asc C) in H. discriminate H.
Qed.

(** On a roster whose percents are numbers the sort returns. *)
Lemma sort_records_total (app : App) (asc : bool) :
  computable (students app) ->
  exists app', sort_records app asc = ret app' /\
    Permutation (students app') (students app).
Proof.
  intro C. rewrite (sort_records_computable app asc C).
  eexists. split; [reflexivity|]. apply list_sort_perm.
Qed.

Lemma sort_records_perm (app app' : App) (asc : bool) :
  sort_records app asc = ret app' ->
  Permutation (students app') (students app) /\ data app' = data app.
Proof.
  intro H. pose proof (sort_records_returns _ _ _ H) as C.
  rewrite (sort_records_computable app asc C) in H. injection H as <-.
  split; [|reflexivity]. cbn [students]. apply list_sort_perm.
Qed.

Lemma same_float_eq (x y : spec_float) : same_float x y = true -> x = y.
Proof.
  destruct x as [s|s| |s m e], y as [s'|s'| |s' m' e']; cbn; try discriminate;
    try reflexivity.
  - intro H. apply Bool.eqb_prop in H. now subst.
  - intro H. apply Bool.eqb_prop in H. now subst.
  - rewrite !andb_true_iff, Pos.eqb_eq, Z.eqb_eq. intros [[H1 H2] H3].
    apply Bool.eqb_prop in H1. now subst.
Qed.

(** Within the documented ranges every percent is a number, the one
    that the floats of the machine give. *)
Lemma percent_binary64_in_ranges (t : Z) :
  0 <= t <= 160 ->
  percent_binary64_of t = ret (Prim2SF (percent_float_of t)).
Proof.
  intro Ht.
  apply (totals_forallb
           (fun t => match percent_binary64_of t with
                     | inr p => same_float p (Prim2SF (percent_float_of t))
                     | inl _ => false
                     end)) in Ht.
  - destruct (percent_binary64_of t) as [e|p]; [discriminate|].
    apply same_float_eq in Ht. now rewrite Ht.
  - vm_compute. reflexivity.
Qed.

(** Outside the ranges: the totals 2^53 and 2^53 - 1 have one and the
    same percent; the largest total whose quotient by 160 is finite has
    an infinite percent, and the next total raises. *)
Example percent_binary64_large :
  percent_binary64_of 147 = ret (Prim2SF 91.875%float) /\
  percent_binary64_of (2 ^ 53) = ret (Prim2SF 5629499534213120%float) /\
  percent_binary64_of (2 ^ 53 - 1) = ret (Prim2SF 5629499534213120%float) /\
  percent_binary64_of (160 * (2 ^ 1024 - 2 ^ 970) - 1) = ret (S754_infinity false) /\
  percent_binary64_of (160 * (2 ^ 1024 - 2 ^ 970)) = raise OverflowError /\
  percent_binary64_of (- 10 ^ 311) = raise OverflowError.
Proof. repeat split; vm_compute; reflexivity. Qed.

Lemma in_ranges_computable (l : list Student) :
  Forall in_ranges l -> computable l.
Proof.
  apply Forall_impl. intros s R. eexists.
  apply percent_binary64_in_ranges, in_ranges_total, R.
Qed.

(** Within the documented ranges the binary64 percents are ordered as
    the exact ones. *)
Lemma percent_le_in_ranges (a b : Student) :
  in_ranges a -> in_ranges b ->
  (percent_le a b <-> (percent a <= percent b)%Q).
Proof.
  intros Ra Rb.
  pose proof (in_ranges_total a Ra) as Ta. pose proof (in_ranges_total b Rb) as Tb.
  assert (O : SFleb (Prim2SF (percent_float_of (total a)))
                (Prim2SF (percent_float_of (total b)))
              = (total a <=? total b)).
  { apply (totals_forallb
             (fun x => forallb
                (fun y => Bool.eqb
                   (SFleb (Prim2SF (percent_float_of x))
                      (Prim2SF (percent_float_of y)))
                   (x <=? y))
                (map Z.of_nat (seq 0 161)))) in Ta.
    - apply Bool.eqb_prop. exact (totals_forallb _ Ta _ Tb).
    - vm_compute. reflexivity. }
  unfold percent_le, percent, percent_binary64.
  rewrite !percent_binary64_in_ranges by assumption.
  rewrite percent_of_le, <- Z.leb_le, <- O. split.
  - intros (p & q & Ep & Eq & L). unfold ret in Ep, Eq.
    injection Ep as <-. injection Eq as <-. exact L.
  - intro L. eauto.
Qed.

Lemma StronglySorted_weaken_In {A : Type} (R S : A -> A -> Prop) (l : list A) :
  (forall a b, In a l -> In b l -> R a b -> S a b) ->
  StronglySorted R l -> StronglySorted S l.
Proof.
  intros H Hl. induction Hl as [|x r Hr IH Hx]; constructor.
  - apply IH. intros a b Ia Ib. apply H; now right.
  - rewrite Forall_forall in *. intros b Ib.
    apply H; [apply in_eq | now right | now apply Hx].
Qed.

Lemma filter_none {A : Type} (l : list A) : filter (fun _ => false) l = [].
Proof. induction l; simpl; auto. Qed.

(** Between numbers, [<=] and [==] of binary64 in terms of the
    ranks. *)
Lemma percent_le_rank (a b : Student) :
  (exists p, percent_binary64 a = ret p) ->
  (exists q, percent_binary64 b = ret q) ->
  rank_lt (rank (percent_value b)) (rank (percent_value a)) = false ->
  percent_le a b.
Proof.
  intros (p & Ea) (q & Eb) H. exists p, q. split; [exact Ea|]. split; [exact Eb|].
  unfold percent_value in H. rewrite Ea, Eb in H. cbv iota in H.
  rewrite SFleb_rank by (eapply percent_binary64_number; eassumption).
  unfold ret in H. now rewrite H.
Qed.

Lemma has_percent_rank (p : spec_float) (s : Student) :
  is_number p = true -> (exists q, percent_binary64 s = ret q) ->
  has_percent p s
  = same_key (fun s => rank (percent_value s)) rank_lt (rank p) s.
Proof.
  intros N (q & E). unfold has_percent, same_key, percent_value. rewrite E.
  apply SFeqb_rank; [|exact N]. exact (percent_binary64_number _ _ E).
Qed.

Lemma has_percent_nan (s : Student) : has_percent S754_nan s = false.
Proof.
  unfold has_percent. destruct (percent_binary64 s) as [e|q]; [reflexivity|].
  now destruct q.
Qed.

Lemma has_percent_filter (p : spec_float) (l m : list Student) :
  computable l -> computable m ->
  filter (same_key (fun s => rank (percent_value s)) rank_lt (rank p)) l
  = filter (same_key (fun s => rank (percent_value s)) rank_lt (rank p)) m ->
  filter (has_percent p) l = filter (has_percent p) m.
Proof.
  intros Cl Cm H.
  destruct (is_number p) eqn:N.
  - rewrite (filter_ext_in (has_percent p) _ l
               (fun s I => has_percent_rank p s N (proj1 (Forall_forall _ l) Cl s I))).
    rewrite (filter_ext_in (has_percent p) _ m
               (fun s I => has_percent_rank p s N (proj1 (Forall_forall _ m) Cm s I))).
    exact H.
  - destruct p; try discriminate N.
    rewrite !(filter_ext _ _ has_percent_nan). now rewrite !filter_none.
Qed.

(** C6: on a roster whose percents are all numbers, [sort_records] is
    a stable sort on the percent in the direction asked for: the result
    holds the same records, its percents do not decrease (ascending) or
    do not increase (descending), the records of one percent keep their
    order, the file is not touched, and sorting again the same way
    changes nothing. The percents are those the program compares, in
    binary64. *)
Theorem sort_records_stable (app : App) (asc : bool) :
  computable (students app) ->
  exists app',
    sort_records app asc = ret app' /\
    data app' = data app /\
    Permutation (students app') (students app) /\
    StronglySorted (fun a b => if asc then percent_le a b else percent_le b a)
      (students app') /\
    (forall p,
        filter (has_percent p) (students app')
        = filter (has_percent p) (students app)) /\
    sort_records app' asc = ret app'.
Proof.
  intro C. rewrite (sort_records_computable app asc C).
  eexists. split; [reflexivity|]. cbn [students data].
  pose proof (list_sort_perm (fun s => rank (percent_value s)) rank_lt
                (negb asc) (students app)) as P.
  assert (C' : computable
                 (list_sort (fun s => rank (percent_value s)) rank_lt
                    (negb asc) (students app))).
  { apply (computable_perm (students app)); [now symmetry | exact C]. }
  split; [reflexivity|]. split; [exact P|]. split; [|split].
  - pose proof (list_sort_sorted (fun s => rank (percent_value s)) rank_lt
                  rank_lt_irrefl rank_lt_trans rank_lt_split (negb asc)
                  (students app)) as S.
    eapply StronglySorted_weaken_In; [|exact S].
    unfold computable in C'. rewrite Forall_forall in C'.
    intros a b Ia Ib H. destruct asc; cbn [negb] in H;
      apply percent_le_rank; auto.
  - intro p. apply has_percent_filter; [exact C' | exact C|].
    apply (list_sort_filter (fun s => rank (percent_value s)) rank_lt
             rank_lt_split).
  - rewrite sort_records_computable by (cbn [students]; exact C').
    cbn [students data].
    now rewrite (list_sort_idempotent (fun s => rank (percent_value s)) rank_lt
                   rank_lt_irrefl rank_lt_trans rank_lt_split).
Qed.

Lemma sort_records_stable_witness :
  exists app',
    sort_records
      (mkApp [mkStudent 1001 "Ann" 0 0 0 (2 ^ 53);
              mkStudent 1002 "Ben" 0 0 0 (2 ^ 53 - 1);
              mkStudent 1003 "Cyd" 20 20 20 100;
              mkStudent 1004 "Dee" 0 0 0 (2 ^ 53)] None) false
    = ret app' /\
    students app'
    = [mkStudent 1001 "Ann" 0 0 0 (2 ^ 53);
       mkStudent 1002 "Ben" 0 0 0 (2 ^ 53 - 1);
       mkStudent 1004 "Dee" 0 0 0 (2 ^ 53);
       mkStudent 1003 "Cyd" 20 20 20 100].
Proof.
  destruct (sort_records_stable
              (mkApp [mkStudent 1001 "Ann" 0 0 0 (2 ^ 53);
                      mkStudent 1002 "Ben" 0 0 0 (2 ^ 53 - 1);
                      mkStudent 1003 "Cyd" 20 20 20 100;
                      mkStudent 1004 "Dee" 0 0 0 (2 ^ 53)] None) false)
    as (app' & H & _).
  - repeat constructor; eexists; vm_compute; reflexivity.
  - exists app'. split; [exact H|].
    vm_compute in H. injection H as <-. reflexivity.
Defined.

(** C6 as stated, for every roster, fails: a total that [load_students]
    accepts can be too large for its percent to be a number; the sort
    then raises [OverflowError] and orders nothing. *)
Lemma sort_records_overflow :
  load_students
    (Some ("1" ++ newline ++ "1001,Zed,0,0,0," ++ Py.str (10 ^ 311))%string)
  = ret [mkStudent 1001 "Zed" 0 0 0 (10 ^ 311)] /\
  percent_binary64 (mkStudent 1001 "Zed" 0 0 0 (10 ^ 311)) = raise OverflowError /\
  (forall asc d,
      sort_records (mkApp [mkStudent 1001 "Zed" 0 0 0 (10 ^ 311)] d) asc
      = raise OverflowError) /\
  (forall asc d,
      sort_records (mkApp [alice; mkStudent 1001 "Zed" 0 0 0 (10 ^ 311); bob] d) asc
      = raise OverflowError).
Proof.
  split; [vm_compute; reflexivity|]. split; [vm_compute; reflexivity|].
  split; intros [] d; vm_compute; reflexivity.
Qed.

(** ** Text: characters, trimming, splitting *)

Lemma decimal_char_facts (c : ascii) :
  is_decimal c = true ->
  Py.is_space c = false /\ Py.is_int_space c = false /\
  Py.is_linebreak c = false /\ Ascii.eqb c Py.comma = false /\
  Ascii.eqb c Py.underscore = false /\ Ascii.eqb c "+" = false /\
  Ascii.eqb c "-" = false /\ Py.is_digit_char c = true.
Proof.
  destruct c as [[] [] [] [] [] [] [] []]; intro H;
    try discriminate H; repeat split; reflexivity.
Qed.

Lemma numeral_char_facts (c : ascii) :
  is_numeral_char c = true ->
  Py.is_space c = false /\ Py.is_int_space c = false /\
  Py.is_linebreak c = false /\ Ascii.eqb c Py.comma = false.
Proof.
  destruct c as [[] [] [] [] [] [] [] []]; intro H;
    try discriminate H; repeat split; reflexivity.
Qed.

Lemma digit_char_value (d : N) :
  (d < 10)%N ->
  is_decimal (Py.digit_char d) = true /\
  Py.digit_value (Py.digit_char d) = Some d.
Proof.
  intro H.
  assert (D : In d [0; 1; 2; 3; 4; 5; 6; 7; 8; 9]%N) by (simpl; lia).
  repeat (destruct D as [<-|D]; [split; reflexivity|]). destruct D.
Qed.

Lemma forall_chars_app (p : ascii -> bool) (a b : string) :
  Py.forall_chars p (a ++ b)%string = Py.forall_chars p a && Py.forall_chars p b.
Proof.
  induction a as [|c a IH]; simpl; [reflexivity|].
  now rewrite IH, andb_assoc.
Qed.

Lemma forall_chars_impl (p q : ascii -> bool) (s : string) :
  (forall c, p c = true -> q c = true) ->
  Py.forall_chars p s = true -> Py.forall_chars q s = true.
Proof.
  intro H. induction s as [|c s IH]; simpl; [reflexivity|].
  intro E. apply andb_true_iff in E. destruct E as [E1 E2].
  now rewrite (H c E1), IH.
Qed.

Lemma contains_app (c : ascii) (a b : string) :
  Py.contains c (a ++ b)%string = Py.contains c a || Py.contains c b.
Proof.
  induction a as [|d a IH]; simpl; [reflexivity|].
  now rewrite IH, orb_assoc.
Qed.

Lemma contains_none (p : ascii -> bool) (c : ascii) (s : string) :
  (forall d, p d = true -> Ascii.eqb d c = false) ->
  Py.forall_chars p s = true -> Py.contains c s = false.
Proof.
  intro H. induction s as [|d s IH]; simpl; [reflexivity|].
  intro E. apply andb_true_iff in E. destruct E as [E1 E2].
  now rewrite (H d E1), IH.
Qed.

Lemma append_nonempty (a : string) (c : ascii) (b : string) :
  (a ++ String c b)%string <> EmptyString.
Proof. destruct a; discriminate. Qed.

Lemma length_append (a b : string) :
  String.length (a ++ b)%string = (String.length a + String.length b)%nat.
Proof. induction a as [|c a IH]; simpl; congruence. Qed.

(** Trimming leaves alone a string that [p] finds nothing in. *)
Lemma rstrip_by_clean (p : ascii -> bool) (t : string) :
  Py.forall_chars (fun c => negb (p c)) t = true -> Py.rstrip_by p t = t.
Proof.
  induction t as [|c t IH]; simpl; [reflexivity|].
  intro E. apply andb_true_iff in E. destruct E as [E1 E2].
  apply negb_true_iff in E1. rewrite (IH E2), E1, andb_false_r. reflexivity.
Qed.

Lemma rstrip_by_app (p : ascii -> bool) (s t : string) :
  Py.rstrip_by p t <> EmptyString ->
  Py.rstrip_by p (s ++ t)%string = (s ++ Py.rstrip_by p t)%string.
Proof.
  intro H. induction s as [|c s IH]; simpl; [reflexivity|].
  rewrite IH. destruct (s ++ Py.rstrip_by p t)%string eqn:E; [|reflexivity].
  destruct s; simpl in E; [contradiction | discriminate].
Qed.

Lemma lstrip_by_clean (p : ascii -> bool) (t : string) :
  Py.forall_chars (fun c => negb (p c)) t = true -> Py.lstrip_by p t = t.
Proof.
  destruct t as [|c t]; simpl; [reflexivity|].
  intro E. apply andb_true_iff in E. destruct E as [E1 _].
  apply negb_true_iff in E1. now rewrite E1.
Qed.

Lemma strip_clean (s : string) :
  Py.forall_chars not_space s = true -> Py.strip s = s.
Proof.
  intro H. unfold Py.strip.
  rewrite lstrip_by_clean by exact H. now apply rstrip_by_clean.
Qed.

(** A string that starts and ends with characters that are not white
    space is its own trimming. *)
Lemma strip_between (c : ascii) (s t : string) :
  Py.is_space c = false ->
  Py.forall_chars not_space t = true -> t <> EmptyString ->
  Py.strip (String c (s ++ t)) = String c (s ++ t).
Proof.
  intros Hc Ht Hne. unfold Py.strip. simpl Py.lstrip_by. rewrite Hc.
  change (String c (s ++ t)) with (String c s ++ t)%string.
  rewrite rstrip_by_app; rewrite rstrip_by_clean; auto.
Qed.

(** *** Splitting at a separator *)

Lemma split_no_sep (sep : ascii) (a : string) :
  Py.contains sep a = false -> Py.split sep a = [a].
Proof.
  induction a as [|c a IH]; simpl; [reflexivity|].
  intro E. apply orb_false_iff in E. destruct E as [E1 E2].
  now rewrite E1, (IH E2).
Qed.

Lemma split_app_sep (sep : ascii) (a b : string) :
  Py.contains sep a = false ->
  Py.split sep (a ++ String sep b)%string = a :: Py.split sep b.
Proof.
  induction a as [|c a IH]; simpl.
  - intros _. now rewrite Ascii.eqb_refl.
  - intro E. apply orb_false_iff in E. destruct E as [E1 E2].
    now rewrite E1, (IH E2).
Qed.

(** *** Lines *)

Lemma splitlines_single (l : string) :
  Py.forall_chars not_linebreak l = true -> l <> EmptyString ->
  Py.splitlines l = [l].
Proof.
  induction l as [|c l IH]; [intros _ H; now contradiction H|].
  simpl. intros E _. apply andb_true_iff in E. destruct E as [E1 E2].
  apply negb_true_iff in E1. rewrite E1.
  destruct l as [|d l]; [reflexivity|].
  rewrite IH; [reflexivity | exact E2 | discriminate].
Qed.

Lemma splitlines_app_LF (l rest : string) :
  Py.forall_chars not_linebreak l = true ->
  Py.splitlines (l ++ String Py.LF rest)%string = l :: Py.splitlines rest.
Proof.
  induction l as [|c l IH]; intro E.
  - simpl. destruct rest; reflexivity.
  - simpl in E. apply andb_true_iff in E. destruct E as [E1 E2].
    apply negb_true_iff in E1.
    change (Py.splitlines (String c (l ++ String Py.LF rest))
            = String c l :: Py.splitlines rest).
    cbn [Py.splitlines]. rewrite E1.
    fold Py.splitlines. now rewrite (IH E2).
Qed.

(** Lines without line boundaries, none of them empty, are what
    [splitlines] finds in their [join]. *)
Lemma splitlines_join (ls : list string) :
  Forall (fun l => Py.forall_chars not_linebreak l = true) ls ->
  Forall (fun l => l <> EmptyString) ls ->
  Py.splitlines (Py.join (String Py.LF EmptyString) ls) = ls.
Proof.
  unfold Py.join.
  induction ls as [|x r IH]; intros H1 H2; [reflexivity|].
  inversion H1 as [|? ? Hx Hr]; inversion H2 as [|? ? Nx Nr]; subst.
  destruct r as [|y r'].
  - simpl. now apply splitlines_single.
  - change (String.concat (String Py.LF EmptyString) (x :: y :: r'))
      with (x ++ String Py.LF (String.concat (String Py.LF EmptyString) (y :: r')))%string.
    rewrite splitlines_app_LF by exact Hx. now rewrite IH.
Qed.

(** ** Numerals: [int] reads back what [str] prints *)

Lemma digits_fuel_decimal (f : nat) :
  forall n, Py.forall_chars is_decimal (Py.digits_fuel f n) = true.
Proof.
  induction f as [|f IH]; intro n; simpl; [reflexivity|].
  destruct (n <? 10)%N eqn:E.
  - apply N.ltb_lt in E. simpl.
    now rewrite (proj1 (digit_char_value n E)).
  - assert (Hm : (n mod 10 < 10)%N) by (apply N.mod_lt; discriminate).
    rewrite forall_chars_app, IH. simpl.
    now rewrite (proj1 (digit_char_value _ Hm)).
Qed.

Lemma digits_fuel_nonempty (f : nat) (n : N) :
  Py.digits_fuel (S f) n <> EmptyString.
Proof.
  simpl. destruct (n <? 10)%N; [discriminate | apply append_nonempty].
Qed.

(** A number below [10 ^ k] has at most [k] digits. *)
Lemma digits_fuel_length (f : nat) :
  forall (n : N) (k : nat),
    (1 <= k)%nat -> (n < 10 ^ N.of_nat k)%N ->
    (String.length (Py.digits_fuel f n) <= k)%nat.
Proof.
  induction f as [|f IH]; intros n k Hk Hn; simpl; [lia|].
  destruct (n <? 10)%N eqn:E; simpl; [exact Hk|].
  apply N.ltb_ge in E.
  destruct k as [|k]; [lia|].
  rewrite Nat2N.inj_succ, N.pow_succ_r' in Hn.
  destruct k as [|k]; [simpl in Hn; lia|].
  rewrite length_append. simpl.
  assert (L : (String.length (Py.digits_fuel f (n / 10)) <= S k)%nat).
  { apply IH; [lia|]. apply N.Div0.div_lt_upper_bound. exact Hn. }
  lia.
Qed.

Lemma scan_digits_app (s t : string) :
  forall prev k a k' a',
    Py.scan_digits s prev k a = Some (k', a') ->
    Py.scan_digits (s ++ t)%string prev k a = Py.scan_digits t false k' a'.
Proof.
  induction s as [|c s IH]; intros prev k a k' a' H; simpl in *.
  - destruct prev; [discriminate|]. now injection H as -> ->.
  - destruct (Ascii.eqb c Py.underscore).
    + destruct prev; [discriminate|]. now apply IH.
    + destruct (Py.digit_value c); [|discriminate]. now apply IH.
Qed.

(** With fuel for the binary size of [n], the scan of the digits of
    [n] counts them and finds [n]. *)
Lemma scan_digits_fuel (f : nat) :
  forall n, (n < 2 ^ N.of_nat f)%N ->
    Py.scan_digits (Py.digits_fuel (S f) n) false 0 0%N
    = Some (String.length (Py.digits_fuel (S f) n), n).
Proof.
  assert (One : forall n, (n < 10)%N ->
            Py.scan_digits (String (Py.digit_char n) EmptyString) false 0 0%N
            = Some (1%nat, n)).
  { intros n Hn. simpl.
    destruct (digit_char_value n Hn) as [D V].
    rewrite (proj1 (proj2 (proj2 (proj2 (proj2 (decimal_char_facts _ D)))))), V.
    reflexivity. }
  induction f as [|f IH]; intros n Hn.
  - simpl in Hn. assert (n = 0%N) by lia. subst n. reflexivity.
  - change (Py.digits_fuel (S (S f)) n)
      with (if (n <? 10)%N then String (Py.digit_char n) EmptyString
            else (Py.digits_fuel (S f) (n / 10)
                  ++ String (Py.digit_char (n mod 10)) EmptyString)%string).
    destruct (n <? 10)%N eqn:E.
    + apply N.ltb_lt in E. now apply One.
    + apply N.ltb_ge in E.
      assert (Hq : (n / 10 < 2 ^ N.of_nat f)%N).
      { rewrite Nat2N.inj_succ, N.pow_succ_r' in Hn.
        apply N.Div0.div_lt_upper_bound. lia. }
      rewrite (scan_digits_app _ _ _ _ _ _ _ (IH _ Hq)).
      rewrite length_append. simpl String.length.
      assert (Hm : (n mod 10 < 10)%N) by (apply N.mod_lt; discriminate).
      destruct (digit_char_value _ Hm) as [D V].
      cbn [Py.scan_digits].
      rewrite (proj1 (proj2 (proj2 (proj2 (proj2 (decimal_char_facts _ D)))))), V.
      f_equal. f_equal.
      * now rewrite Nat.add_1_r.
      * symmetry. apply N.div_mod. discriminate.
Qed.

Lemma size_nat_bound (n : N) : (n < 2 ^ N.of_nat (N.size_nat n))%N.
Proof.
  destruct n as [|p]; [reflexivity|]. simpl N.size_nat.
  induction p as [p IH|p IH|]; simpl Pos.size_nat;
    rewrite Nat2N.inj_succ, N.pow_succ_r'; lia.
Qed.

Lemma scan_digits_digits (n : N) :
  Py.scan_digits (Py.digits n) false 0 0%N
  = Some (String.length (Py.digits n), n).
Proof. apply scan_digits_fuel, size_nat_bound. Qed.

Lemma digits_decimal (n : N) : Py.forall_chars is_decimal (Py.digits n) = true.
Proof. apply digits_fuel_decimal. Qed.

Lemma digits_nonempty (n : N) : Py.digits n <> EmptyString.
Proof. apply digits_fuel_nonempty. Qed.

Lemma int_body_digits (n : N) :
  (n < 10 ^ N.of_nat Py.int_max_str_digits)%N ->
  Py.int_body (Py.digits n) = Some n.
Proof.
  intro Hn. unfold Py.int_body.
  pose proof (digits_decimal n) as D.
  pose proof (digits_nonempty n) as NE.
  pose proof (scan_digits_digits n) as S.
  assert (L : (String.length (Py.digits n) <= Py.int_max_str_digits)%nat).
  { apply digits_fuel_length; [|exact Hn]. unfold Py.int_max_str_digits. lia. }
  destruct (Py.digits n) as [|c r] eqn:E; [now contradiction NE|].
  rewrite S.
  cbn [Py.forall_chars] in D. apply andb_true_iff in D. destruct D as [Dc _].
  rewrite (proj1 (proj2 (proj2 (proj2 (proj2 (decimal_char_facts _ Dc)))))).
  apply Nat.ltb_ge in L. now rewrite L.
Qed.

Lemma str_numeral (z : Z) : Py.forall_chars is_numeral_char (Py.str z) = true.
Proof.
  assert (D : Py.forall_chars is_numeral_char (Py.digits (Z.abs_N z)) = true).
  { apply forall_chars_impl with (p := is_decimal); [|apply digits_decimal].
    intros c H. unfold is_numeral_char. now rewrite H. }
  unfold Py.str. destruct (z <? 0); [|exact D].
  cbn [Py.forall_chars]. now rewrite D.
Qed.

Lemma str_nonempty (z : Z) : Py.str z <> EmptyString.
Proof.
  unfold Py.str. destruct (z <? 0); [discriminate | apply digits_nonempty].
Qed.

Lemma str_not_space (z : Z) : Py.forall_chars not_space (Py.str z) = true.
Proof.
  apply forall_chars_impl with (p := is_numeral_char); [|apply str_numeral].
  intros c H. unfold not_space. now rewrite (proj1 (numeral_char_facts c H)).
Qed.

Lemma str_not_linebreak (z : Z) : Py.forall_chars not_linebreak (Py.str z) = true.
Proof.
  apply forall_chars_impl with (p := is_numeral_char); [|apply str_numeral].
  intros c H. unfold not_linebreak.
  now rewrite (proj1 (proj2 (proj2 (numeral_char_facts c H)))).
Qed.

Lemma str_no_comma (z : Z) : Py.contains Py.comma (Py.str z) = false.
Proof.
  apply contains_none with (p := is_numeral_char); [|apply str_numeral].
  intros c H. exact (proj2 (proj2 (proj2 (numeral_char_facts c H)))).
Qed.

Lemma strip_str (z : Z) : Py.strip (Py.str z) = Py.str z.
Proof. apply strip_clean, str_not_space. Qed.

(** [int(str(z))] is [z] for every integer within the digit limit. *)
Lemma int_str (z : Z) : printable z -> Py.int (Py.str z) = ret z.
Proof.
  unfold printable. intro Hz.
  assert (Hn : (Z.abs_N z < 10 ^ N.of_nat Py.int_max_str_digits)%N).
  { apply N2Z.inj_lt. rewrite N2Z.inj_pow, N2Z.inj_abs_N, nat_N_Z. exact Hz. }
  assert (NS : Py.forall_chars (fun c => negb (Py.is_int_space c)) (Py.str z) = true).
  { apply forall_chars_impl with (p := is_numeral_char); [|apply str_numeral].
    intros c H. now rewrite (proj1 (proj2 (numeral_char_facts c H))). }
  unfold Py.int.
  rewrite (lstrip_by_clean _ _ NS), (rstrip_by_clean _ _ NS).
  unfold Py.str. destruct (z <? 0) eqn:E.
  - apply Z.ltb_lt in E. cbn [Ascii.eqb Bool.eqb].
    change (Ascii.eqb "-" "+") with false. change (Ascii.eqb "-" "-") with true.
    cbv iota beta. rewrite (int_body_digits _ Hn). unfold ret. f_equal.
    rewrite N2Z.inj_abs_N. lia.
  - apply Z.ltb_ge in E.
    pose proof (digits_decimal (Z.abs_N z)) as D.
    pose proof (digits_nonempty (Z.abs_N z)) as NE.
    pose proof (int_body_digits _ Hn) as B.
    destruct (Py.digits (Z.abs_N z)) as [|c r]; [now contradiction NE|].
    cbn [Py.forall_chars] in D. apply andb_true_iff in D. destruct D as [Dc _].
    destruct (decimal_char_facts _ Dc) as (_ & _ & _ & _ & _ & P & M & _).
    rewrite P, M, B. unfold ret. f_equal.
    rewrite N2Z.inj_abs_N. lia.
Qed.

Lemma small_printable (z : Z) : Z.abs z < 10000 -> printable z.
Proof.
  intro H. unfold printable.
  apply Z.lt_le_trans with (10 ^ 4); [exact H|].
  apply Z.pow_le_mono_r; [lia|].
  unfold Py.int_max_str_digits. lia.
Qed.

Lemma in_ranges_printable (s : Student) :
  in_ranges s ->
  printable (code s) /\ printable (cw1 s) /\ printable (cw2 s) /\
  printable (cw3 s) /\ printable (exam s).
Proof.
  unfold in_ranges. intros (C & _ & C1 & C2 & C3 & E).
  repeat split; apply small_printable; lia.
Qed.

(** ** Loading *)

(** [int] raises nothing but [ValueError]. *)
Lemma int_error (s : string) (e : exn) : Py.int s = inl e -> e = ValueError.
Proof.
  unfold Py.int.
  destruct (match Py.rstrip_by Py.is_int_space (Py.lstrip_by Py.is_int_space s) with
            | EmptyString => _
            | String c r => _
            end) as [neg body].
  destruct (Py.int_body body); unfold ret, raise; intro H; [discriminate|].
  now injection H as <-.
Qed.

Lemma mapM_int_error (l : list string) (e : exn) :
  mapM Py.int l = inl e -> e = ValueError.
Proof.
  induction l as [|x r IH]; simpl; [discriminate|].
  unfold bind at 1. destruct (Py.int x) eqn:Ex.
  - intro H. injection H as <-. now apply int_error in Ex.
  - unfold bind. destruct (mapM Py.int r); [|discriminate].
    intro H. injection H as <-. now apply IH.
Qed.

(** With six fields the [try] block raises nothing but [ValueError]:
    no index is out of range. *)
Lemma parse_fields_error (parts : list string) (e : exn) :
  List.length parts = 6%nat -> parse_fields parts = inl e -> e = ValueError.
Proof.
  intro L.
  destruct parts as [|p0 [|p1 [|p2 [|p3 [|p4 [|p5 [|]]]]]]]; try discriminate L.
  unfold parse_fields. cbn [index nth_error skipn]. unfold ret at 1. cbn [bind].
  destruct (Py.int p0) eqn:E0; cbn [bind].
  - intro H. injection H as <-. now apply int_error in E0.
  - destruct (mapM Py.int [p2; p3; p4; p5]) eqn:EM; cbn [bind].
    + intro H. injection H as <-. now apply mapM_int_error in EM.
    + destruct l as [|c1 [|c2 [|c3 [|ex [|]]]]]; unfold raise, ret; intro H;
        try discriminate H; now injection H as <-.
Qed.

(** Every line is read into a record or skipped. *)
Lemma load_line_total (i : nat) (line : string) :
  load_line i line = ret None \/ exists s, load_line i line = ret (Some s).
Proof.
  unfold load_line.
  destruct (Py.is_empty (Py.strip line)); [now left|].
  destruct (Nat.eqb i 0 && Py.isdigit (Py.strip line)
            && negb (Py.contains Py.comma (Py.strip line))); [now left|].
  destruct (Nat.eqb (List.length (map Py.strip (Py.split Py.comma (Py.strip line)))) 6)
    eqn:L; [|now left].
  apply Nat.eqb_eq in L. cbn [negb].
  destruct (parse_fields _) as [e|s] eqn:P; [|right; now exists s].
  apply parse_fields_error in P; [|exact L]. subst e. now left.
Qed.

Lemma load_loop_rows (lines : list string) :
  forall i rows, load_loop i lines rows = ret (rows ++ rows_of i lines).
Proof.
  induction lines as [|line rest IH]; intros i rows; simpl.
  - now rewrite app_nil_r.
  - destruct (load_line_total i line) as [E|[s E]]; rewrite E; cbn [bind ret].
    + apply IH.
    + rewrite IH. now rewrite <- app_assoc.
Qed.

Lemma rows_of_length (lines : list string) :
  forall i, (List.length (rows_of i lines) <= List.length lines)%nat.
Proof.
  induction lines as [|line rest IH]; intro i; simpl; [lia|].
  specialize (IH (S i)).
  destruct (load_line i line) as [e|[s|]]; simpl; lia.
Qed.

(** C10: [load_students] raises on no text: whatever the lines are,
    each is read into a record or skipped, and the result is the list of
    the records read, in the order of their lines. *)
Theorem load_students_total (f : file) :
  (forall i line,
      load_line i line = ret None \/ exists s, load_line i line = ret (Some s)) /\
  (forall lines,
      load_loop 0 lines [] = ret (rows_of 0 lines) /\
      (List.length (rows_of 0 lines) <= List.length lines)%nat) /\
  exists rows, load_students f = ret rows.
Proof.
  split; [exact load_line_total|]. split.
  - intro lines. split; [apply (load_loop_rows lines 0 []) | apply rows_of_length].
  - destruct f as [text|]; simpl; [|now exists []].
    exists (rows_of 0 (Py.splitlines text)). apply (load_loop_rows _ 0 []).
Qed.

(** A text with a blank line, a line of five fields, a line whose exam
    mark is no integer and two good lines loads as the two good lines. *)
Example load_skips_malformed :
  load_students (Some "3
1001,Alice,18,19,20,90

1002,Bob,10,11,12
1003,Carol,5,six,7,30
1004,Dan,1,2,3,4")
  = ret [alice; mkStudent 1004 "Dan" 1 2 3 4].
Proof. vm_compute. reflexivity. Qed.

(** *** The count line *)

(** A line that is blank once trimmed is skipped. *)
Lemma load_line_blank (i : nat) (line : string) :
  Py.strip line = EmptyString -> load_line i line = ret None.
Proof. intro H. unfold load_line. now rewrite H. Qed.

(** A line of digits without a comma is skipped wherever it stands:
    as the count line when it is the first, and for having one field
    when it is not. *)
Lemma load_line_digits (i : nat) (line : string) :
  Py.isdigit (Py.strip line) = true ->
  Py.contains Py.comma (Py.strip line) = false ->
  load_line i line = ret None.
Proof.
  intros D C. unfold load_line.
  destruct (Py.is_empty (Py.strip line)); [reflexivity|].
  rewrite D, C.
  destruct (Nat.eqb i 0); [reflexivity|]. cbn [andb].
  now rewrite (split_no_sep _ _ C).
Qed.

(** The number of a line does not matter to what is read from it. *)
Lemma load_line_index (i j : nat) (line : string) :
  load_line i line = load_line j line.
Proof.
  assert (K : forall k, load_line k line = load_line 1 line).
  { intro k. unfold load_line.
    destruct (Py.is_empty (Py.strip line)); [reflexivity|].
    destruct (Nat.eqb k 0); [|reflexivity]. cbn [Nat.eqb andb].
    destruct (Py.isdigit (Py.strip line)); [|reflexivity].
    destruct (Py.contains Py.comma (Py.strip line)) eqn:C; [reflexivity|].
    cbn [negb]. now rewrite (split_no_sep _ _ C). }
  now rewrite (K i), (K j).
Qed.

Lemma rows_of_index (lines : list string) :
  forall i j, rows_of i lines = rows_of j lines.
Proof.
  induction lines as [|line rest IH]; intros i j; [reflexivity|].
  simpl. rewrite (load_line_index i j line), (IH (S i) (S j)). reflexivity.
Qed.

Lemma rows_of_app (l1 l2 : list string) :
  forall i, rows_of i (l1 ++ l2) = rows_of i l1 ++ rows_of i l2.
Proof.
  induction l1 as [|line rest IH]; intro i; simpl.
  - reflexivity.
  - rewrite IH, (rows_of_index l2 (S i) i).
    destruct (load_line i line) as [e|[s|]]; reflexivity.
Qed.

(** *** Data lines *)

Lemma append_assoc (a b c : string) :
  ((a ++ b) ++ c)%string = (a ++ (b ++ c))%string.
Proof. induction a as [|x a IH]; simpl; congruence. Qed.

Lemma strip_app3 (a m b : string) :
  Py.forall_chars not_space a = true -> a <> EmptyString ->
  Py.forall_chars not_space b = true -> b <> EmptyString ->
  Py.strip (a ++ m ++ b)%string = (a ++ m ++ b)%string.
Proof.
  intros Ha Na Hb Nb. destruct a as [|c a]; [now contradiction Na|].
  cbn [Py.forall_chars] in Ha. apply andb_true_iff in Ha. destruct Ha as [Hc _].
  apply negb_true_iff in Hc.
  change (String c a ++ m ++ b)%string with (String c (a ++ m ++ b)).
  rewrite <- append_assoc. now apply strip_between.
Qed.

Lemma format_student_strip (s : Student) :
  Py.strip (format_student s) = format_student s.
Proof.
  unfold format_student.
  repeat rewrite <- (append_assoc _ _ (Py.str (exam s))).
  repeat rewrite (append_assoc (Py.str (code s))).
  apply strip_app3; auto using str_not_space, str_nonempty.
Qed.

Lemma format_student_comma (s : Student) :
  Py.contains Py.comma (format_student s) = true.
Proof.
  unfold format_student. rewrite contains_app.
  cbn. now rewrite orb_true_r.
Qed.

Lemma format_student_split (s : Student) :
  Py.contains Py.comma (name s) = false ->
  Py.split Py.comma (format_student s) = fields_of s.
Proof.
  intro Hn. unfold format_student, fields_of.
  assert (C : forall x, ("," ++ x)%string = String Py.comma x) by reflexivity.
  rewrite !C.
  repeat (rewrite split_app_sep; [f_equal | auto using str_no_comma]).
  apply split_no_sep, str_no_comma.
Qed.

Lemma format_student_nonempty (s : Student) : format_student s <> EmptyString.
Proof.
  unfold format_student. pose proof (str_nonempty (code s)) as N.
  destruct (Py.str (code s)); [now contradiction N | discriminate].
Qed.

Lemma format_student_not_linebreak (s : Student) :
  Py.forall_chars not_linebreak (name s) = true ->
  Py.forall_chars not_linebreak (format_student s) = true.
Proof.
  intro Hn. unfold format_student.
  repeat rewrite forall_chars_app.
  rewrite !str_not_linebreak, Hn. reflexivity.
Qed.

Lemma parse_fields_of (s : Student) :
  printable (code s) -> printable (cw1 s) -> printable (cw2 s) ->
  printable (cw3 s) -> printable (exam s) ->
  parse_fields (fields_of s) = ret s.
Proof.
  intros Pc P1 P2 P3 Pe. unfold parse_fields, fields_of.
  cbn [index nth_error skipn mapM bind ret].
  repeat (rewrite int_str by assumption; cbn [bind ret]).
  destruct s; reflexivity.
Qed.

(** The line written for a storable record is read back as that
    record, wherever it stands in the file. *)
Lemma load_line_format (i : nat) (s : Student) :
  storable s -> load_line i (format_student s) = ret (Some s).
Proof.
  intros ((Hs & Hc & _) & Pc & P1 & P2 & P3 & Pe). unfold load_line.
  rewrite format_student_strip.
  pose proof (format_student_nonempty s) as NE.
  destruct (Py.is_empty (format_student s)) eqn:E;
    [destruct (format_student s); [now contradiction NE | discriminate]|].
  rewrite format_student_comma, andb_false_r.
  rewrite (format_student_split s Hc).
  assert (M : map Py.strip (fields_of s) = fields_of s).
  { unfold fields_of. cbn [map]. now rewrite !strip_str, Hs. }
  rewrite M. cbn [List.length fields_of Nat.eqb negb].
  now rewrite parse_fields_of.
Qed.

Lemma rows_of_format (l : list Student) :
  Forall storable l -> forall i, rows_of i (map format_student l) = l.
Proof.
  induction 1 as [|s r Hs Hr IH]; intro i; [reflexivity|].
  cbn [map rows_of]. rewrite (load_line_format i s Hs), IH. reflexivity.
Qed.

(** The count written by [save_students] is a line of digits. *)
Lemma count_line_digits (k : nat) :
  Py.isdigit (Py.strip (Py.str (Z.of_nat k))) = true /\
  Py.contains Py.comma (Py.strip (Py.str (Z.of_nat k))) = false.
Proof.
  rewrite strip_str. split; [|apply str_no_comma].
  unfold Py.isdigit, Py.str.
  assert (E : (Z.of_nat k <? 0) = false) by (apply Z.ltb_ge; lia).
  rewrite E.
  pose proof (digits_nonempty (Z.abs_N (Z.of_nat k))) as NE.
  assert (D : Py.forall_chars Py.is_digit_char (Py.digits (Z.abs_N (Z.of_nat k)))
              = true).
  { apply forall_chars_impl with (p := is_decimal); [|apply digits_decimal].
    intros c H. apply (decimal_char_facts c H). }
  rewrite D.
  destruct (Py.digits (Z.abs_N (Z.of_nat k))); [now contradiction NE | reflexivity].
Qed.

Lemma save_lines_split (l : list Student) :
  Forall (fun s => Py.forall_chars not_linebreak (name s) = true) l ->
  Py.splitlines (save_text l) = save_lines l.
Proof.
  intro H. unfold save_text, save_lines.
  apply splitlines_join; constructor.
  - apply str_not_linebreak.
  - apply Forall_map. eapply Forall_impl; [|exact H].
    intros s. apply format_student_not_linebreak.
  - apply str_nonempty.
  - apply Forall_map, Forall_forall. intros s _. apply format_student_nonempty.
Qed.

(** Loading what was saved gives back a roster of storable records. *)
Lemma load_save_storable (l : list Student) :
  Forall storable l -> load_students (save_students l) = ret l.
Proof.
  intro H. unfold save_students, load_students.
  rewrite save_lines_split.
  - rewrite load_loop_rows. unfold save_lines. cbn [rows_of app].
    destruct (count_line_digits (List.length l)) as [D C].
    rewrite (load_line_digits 0 _ D C).
    now rewrite rows_of_format.
  - eapply Forall_impl; [|exact H]. intros s ((_ & _ & L) & _). exact L.
Qed.

Lemma in_ranges_storable (s : Student) :
  in_ranges s -> clean_name (name s) -> storable s.
Proof.
  intros R C. split; [exact C | now apply in_ranges_printable].
Qed.

(** ** Saving and loading *)

(** For every roster the text written is the join, by line feeds, of
    the decimal count and of one comma-joined string per record, in
    the order of the roster. *)
Lemma save_lines_shape (l : list Student) :
  save_students l = Some (Py.join newline (save_lines l)) /\
  save_lines l = Py.str (Z.of_nat (List.length l)) :: map format_student l /\
  Py.scan_digits (Py.str (Z.of_nat (List.length l))) false 0 0%N
  = Some (String.length (Py.str (Z.of_nat (List.length l))),
          N.of_nat (List.length l)) /\
  (forall i s, nth_error l i = Some s ->
               nth_error (save_lines l) (S i)
               = Some (Py.join "," (fields_of s))).
Proof.
  split; [reflexivity|]. split; [reflexivity|]. split.
  - unfold Py.str.
    assert (E : (Z.of_nat (List.length l) <? 0) = false) by (apply Z.ltb_ge; lia).
    rewrite E, scan_digits_digits. do 2 f_equal. lia.
  - intros i s H. unfold save_lines. cbn [nth_error].
    rewrite nth_error_map, H. reflexivity.
Qed.

(** C2, as the code has it: when no name holds a line boundary, the
    text [save_students] writes has a first line that is the number of
    records in decimal, followed by exactly that many lines, the
    comma-joined fields of each record in the order of the roster. *)
Theorem save_students_lines (l : list Student) :
  Forall (fun s => Py.forall_chars not_linebreak (name s) = true) l ->
  exists count data,
    save_students l = Some (save_text l) /\
    Py.splitlines (save_text l) = count :: data /\
    count = Py.str (Z.of_nat (List.length l)) /\
    Py.scan_digits count false 0 0%N
    = Some (String.length count, N.of_nat (List.length l)) /\
    List.length data = List.length l /\
    (forall i s, nth_error l i = Some s ->
                 nth_error data i = Some (Py.join "," (fields_of s))).
Proof.
  intro H.
  destruct (save_lines_shape l) as (_ & _ & S & N).
  exists (Py.str (Z.of_nat (List.length l))), (map format_student l).
  split; [reflexivity|]. split; [now apply save_lines_split|].
  split; [reflexivity|]. split; [exact S|]. split; [apply length_map|].
  intros i s Hi. exact (N i s Hi).
Qed.

Lemma save_students_lines_witness :
  exists count data,
    Py.splitlines (save_text [alice; bob]) = count :: data /\
    count = "2" /\
    data = ["1001,Alice,18,19,20,90"; "1002,Bob,10,11,12,50"].
Proof.
  destruct (save_students_lines [alice; bob]) as (count & data & _ & H & C & _).
  - repeat constructor.
  - exists count, data. split; [exact H|].
    assert (E : count :: data = Py.splitlines (save_text [alice; bob]))
      by (symmetry; exact H).
    vm_compute in E. now injection E as -> ->.
Defined.

(** C2 as stated fails: a record whose name holds a line feed is
    written over two lines, so the text has a count line that says 1
    and two lines after it, neither of which is the line of a record. *)
Lemma save_splits_name_with_line_feed :
  in_ranges (mkStudent 1001 ("Ann" ++ newline ++ "Lee") 18 19 20 90) /\
  Py.splitlines
    (save_text [mkStudent 1001 ("Ann" ++ newline ++ "Lee") 18 19 20 90])
  = ["1"; "1001,Ann"; "Lee,18,19,20,90"] /\
  load_students
    (save_students [mkStudent 1001 ("Ann" ++ newline ++ "Lee") 18 19 20 90])
  = ret [].
Proof.
  repeat split; simpl; try lia; try discriminate; vm_compute; reflexivity.
Qed.

(** C1, as the code has it: a roster of records within the documented
    ranges whose names have no white space at either end, no comma and
    no line boundary is loaded back from the text saved for it as it
    was: the same records in the same order. *)
Theorem load_save_roundtrip (l : list Student) :
  NoDup (map code l) ->
  Forall in_ranges l ->
  Forall (fun s => clean_name (name s)) l ->
  load_students (save_students l) = ret l /\
  (forall rows, load_students (save_students l) = ret rows -> Permutation rows l).
Proof.
  intros _ R C.
  assert (E : load_students (save_students l) = ret l).
  { apply load_save_storable. rewrite Forall_forall in *.
    intros s Hs. apply in_ranges_storable; auto. }
  split; [exact E|]. intros rows H. rewrite E in H. injection H as <-.
  reflexivity.
Qed.

Lemma load_save_roundtrip_witness :
  load_students (save_students [alice; bob; carol]) = ret [alice; bob; carol].
Proof.
  apply (load_save_roundtrip [alice; bob; carol]).
  - repeat constructor; simpl; intuition discriminate.
  - repeat constructor; simpl; try lia; discriminate.
  - repeat constructor.
Defined.

(** C1 as stated fails: each of these rosters has one record, within
    the documented ranges, and is not loaded back from its own text. A
    comma in the name makes seven fields and a line boundary makes two
    short lines, so nothing is loaded; white space around the name is
    lost. *)
Lemma load_save_loses_names :
  (in_ranges (mkStudent 1001 "Lee, Ann" 18 19 20 90) /\
   load_students (save_students [mkStudent 1001 "Lee, Ann" 18 19 20 90])
   = ret []) /\
  (in_ranges (mkStudent 1001 ("Ann" ++ newline ++ "Lee") 18 19 20 90) /\
   load_students
     (save_students [mkStudent 1001 ("Ann" ++ newline ++ "Lee") 18 19 20 90])
   = ret []) /\
  (in_ranges (mkStudent 1001 " Ann " 18 19 20 90) /\
   load_students (save_students [mkStudent 1001 " Ann " 18 19 20 90])
   = ret [mkStudent 1001 "Ann" 18 19 20 90]).
Proof.
  repeat split; simpl; try lia; try discriminate; vm_compute; reflexivity.
Qed.

(** C7: a line of digits without a comma that comes first, or after
    blank lines only, is skipped and its number is compared with
    nothing: a text that starts with the line 2 and goes on with three
    well-formed lines loads as their three records. *)
Theorem count_line_not_checked :
  (forall blanks line rest,
      Forall (fun b => Py.strip b = EmptyString) blanks ->
      Py.isdigit (Py.strip line) = true ->
      Py.contains Py.comma (Py.strip line) = false ->
      load_loop 0 (blanks ++ line :: rest) [] = load_loop 0 rest []) /\
  (forall d1 d2 d3 r1 r2 r3,
      well_formed_line d1 r1 -> well_formed_line d2 r2 ->
      well_formed_line d3 r3 ->
      load_students (Some (Py.join newline ["2"; d1; d2; d3]))
      = ret [r1; r2; r3]) /\
  (forall r1 r2 r3,
      storable r1 -> storable r2 -> storable r3 ->
      load_students
        (Some (Py.join newline
                 ["2"; format_student r1; format_student r2; format_student r3]))
      = ret [r1; r2; r3]).
Proof.
  assert (G : forall d1 d2 d3 r1 r2 r3,
      well_formed_line d1 r1 -> well_formed_line d2 r2 ->
      well_formed_line d3 r3 ->
      load_students (Some (Py.join newline ["2"; d1; d2; d3]))
      = ret [r1; r2; r3]); [|split; [|split; [exact G|]]].
  3: { assert (W : forall r, storable r -> well_formed_line (format_student r) r).
       { intros r S. split; [|now apply load_line_format].
         apply format_student_not_linebreak. apply S. }
       intros r1 r2 r3 S1 S2 S3. apply G; now apply W. }
  2: { intros blanks line rest B D C.
    rewrite !load_loop_rows. cbn [app]. rewrite rows_of_app.
    assert (E : rows_of 0 blanks = []).
    { generalize 0%nat. induction B as [|b bs Hb _ IH]; intro i; [reflexivity|].
      cbn [rows_of]. rewrite (load_line_blank i b Hb). apply IH. }
    rewrite E. cbn [app rows_of].
    rewrite (load_line_digits 0 line D C).
    now rewrite (rows_of_index rest 1 0). }
  - intros d1 d2 d3 r1 r2 r3 [L1 W1] [L2 W2] [L3 W3].
    assert (NE : forall d r, load_line 1 d = ret (Some r) -> d <> EmptyString).
    { intros d r H ->. discriminate H. }
    unfold load_students.
    rewrite splitlines_join.
    + rewrite load_loop_rows. cbn [rows_of app].
      rewrite (load_line_digits 0 "2") by reflexivity.
      rewrite (load_line_index 2 1 d2), (load_line_index 3 1 d3), W1, W2, W3.
      reflexivity.
    + repeat constructor; assumption.
    + repeat constructor; eauto; discriminate.
Qed.

Lemma count_line_not_checked_witness :
  load_students (Some "2
1001,Alice,18,19,20,90
1002,Bob,10,11,12,50
1003,Carol,5,6,7,30")
  = ret [alice; bob; carol].
Proof.
  apply (proj1 (proj2 count_line_not_checked)
           "1001,Alice,18,19,20,90" "1002,Bob,10,11,12,50" "1003,Carol,5,6,7,30");
    split; vm_compute; reflexivity.
Defined.

(** ** Looking a code up *)

Lemma lower_char_decimal (c : ascii) : is_decimal c = true -> Py.lower_char c = c.
Proof.
  destruct c as [[] [] [] [] [] [] [] []]; intro H;
    try discriminate H; reflexivity.
Qed.

Lemma lower_decimal (s : string) :
  Py.forall_chars is_decimal s = true -> Py.lower s = s.
Proof.
  induction s as [|c s IH]; simpl; [reflexivity|].
  intro E. apply andb_true_iff in E. destruct E as [E1 E2].
  now rewrite (lower_char_decimal c E1), (IH E2).
Qed.

(** The query that is the decimal numeral of [c]. *)
Lemma str_query (c : Z) :
  0 <= c ->
  Py.lower (Py.strip (Py.str c)) = Py.str c /\ Py.isdigit (Py.str c) = true /\
  Py.is_empty (Py.str c) = false.
Proof.
  intro H.
  destruct (count_line_digits (Z.to_nat c)) as [D _].
  rewrite Z2Nat.id, strip_str in D by exact H.
  rewrite strip_str. split; [|split; [exact D|]].
  - apply lower_decimal. unfold Py.str.
    assert (E : (c <? 0) = false) by (apply Z.ltb_ge; lia).
    rewrite E. apply digits_decimal.
  - pose proof (str_nonempty c) as NE.
    destruct (Py.str c); [now contradiction NE | reflexivity].
Qed.

(** The loop of [view_individual] asked for the numeral of a code: it
    finds the first student of that code, if there is one, and
    otherwise the students whose name holds the numeral. *)
Lemma find_loop_code (c : Z) (l : list Student) :
  0 <= c -> printable c ->
  forall found,
    find_loop (Py.str c) l found
    = match find_by_code l c with
      | Some s => ret [s]
      | None =>
          ret (found ++ filter (fun s => Py.is_substring (Py.str c)
                                           (Py.lower (name s))) l)
      end.
Proof.
  intros H P. destruct (str_query c H) as (_ & D & _).
  unfold find_by_code.
  induction l as [|x r IH]; intro found; cbn [find_loop find filter].
  - now rewrite app_nil_r.
  - rewrite D, (int_str c P). cbn [bind ret].
    destruct (c =? code x); [reflexivity|].
    rewrite IH. destruct (find (fun s => c =? code s) r); [reflexivity|].
    destruct (Py.is_substring (Py.str c) (Py.lower (name x))); [|reflexivity].
    now rewrite <- app_assoc.
Qed.

(** Asked for the numeral of a code that a student has,
    [view_individual] shows the student [find_by_code] finds. *)
Lemma view_individual_code (app : App) (c : Z) (s : Student) (pick : option Student) :
  0 <= c -> printable c ->
  find_by_code (students app) c = Some s ->
  view_individual app (Some (Py.str c)) pick = ret (Some s).
Proof.
  intros H P F. unfold view_individual.
  destruct (students app) as [|x r] eqn:E; [discriminate F|].
  destruct (str_query c H) as (Q & _ & NE). rewrite NE, Q.
  rewrite (find_loop_code c (x :: r) H P), F. reflexivity.
Qed.

(** ** Worked examples *)

Lemma add_student_spec_witness :
  (exists app',
      add_student (mkApp [alice; bob] None) (Some carol)
      = (app', Some (Added carol)) /\
      students app' = [alice; bob; carol] /\
      find_by_code (students app') 1003 = Some carol) /\
  add_student (mkApp [alice; bob] None) (Some (mkStudent 1002 "Rob" 1 2 3 4))
  = (mkApp [alice; bob] None, Some (Duplicate 1002)).
Proof.
  split.
  - destruct (proj2 (add_student_spec (mkApp [alice; bob] None) carol))
      as (app' & H1 & H2 & _ & H4).
    + intros st [<-|[<-|[]]]; discriminate.
    + exists app'. auto.
  - apply (proj1 (add_student_spec (mkApp [alice; bob] None)
                    (mkStudent 1002 "Rob" 1 2 3 4))).
    exists bob. simpl. auto.
Defined.

Lemma highest_lowest_first_witness :
  exists s l1 l2,
    show_highest (mkApp [carol; alice; bob; alice] None) = ret (Some s) /\
    [carol; alice; bob; alice] = l1 ++ s :: l2 /\
    (forall t, In t l1 -> total t < total s) /\
    (forall t, In t l2 -> total t <= total s).
Proof.
  apply (proj2 (highest_lowest_first (mkApp [carol; alice; bob; alice] None))).
  discriminate.
Defined.

(** * Further properties *)

(** ** Trimming and splitting, in general *)

Lemma lstrip_by_head (p : ascii -> bool) (s : string) :
  head_not p (Py.lstrip_by p s) = true.
Proof.
  induction s as [|c s IH]; simpl; [reflexivity|].
  destruct (p c) eqn:E; [exact IH|]. simpl. now rewrite E.
Qed.

Lemma rstrip_by_head (p : ascii -> bool) (s : string) :
  head_not p s = true -> head_not p (Py.rstrip_by p s) = true.
Proof.
  destruct s as [|c s]; simpl; [reflexivity|].
  intro H. apply negb_true_iff in H. rewrite H, andb_false_r. simpl.
  now rewrite H.
Qed.

Lemma head_not_lstrip (p : ascii -> bool) (s : string) :
  head_not p s = true -> Py.lstrip_by p s = s.
Proof.
  destruct s as [|c s]; simpl; [reflexivity|].
  intro H. apply negb_true_iff in H. now rewrite H.
Qed.

Lemma rstrip_by_idempotent (p : ascii -> bool) (s : string) :
  Py.rstrip_by p (Py.rstrip_by p s) = Py.rstrip_by p s.
Proof.
  induction s as [|c s IH]; simpl; [reflexivity|].
  destruct (Py.is_empty (Py.rstrip_by p s) && p c) eqn:E; [reflexivity|].
  simpl. now rewrite IH, E.
Qed.

Lemma strip_idempotent (s : string) : Py.strip (Py.strip s) = Py.strip s.
Proof.
  unfold Py.strip.
  rewrite (head_not_lstrip _ (Py.rstrip_by _ _)).
  - apply rstrip_by_idempotent.
  - apply rstrip_by_head, lstrip_by_head.
Qed.

Lemma forall_chars_lstrip (q p : ascii -> bool) (s : string) :
  Py.forall_chars q s = true -> Py.forall_chars q (Py.lstrip_by p s) = true.
Proof.
  induction s as [|c s IH]; simpl; [reflexivity|].
  intro H. destruct (p c); [|exact H].
  apply andb_true_iff in H. now apply IH.
Qed.

Lemma forall_chars_rstrip (q p : ascii -> bool) (s : string) :
  Py.forall_chars q s = true -> Py.forall_chars q (Py.rstrip_by p s) = true.
Proof.
  induction s as [|c s IH]; simpl; [reflexivity|].
  intro H. apply andb_true_iff in H. destruct H as [H1 H2].
  destruct (Py.is_empty (Py.rstrip_by p s) && p c); [reflexivity|].
  simpl. now rewrite H1, IH.
Qed.

Lemma forall_chars_strip (q : ascii -> bool) (s : string) :
  Py.forall_chars q s = true -> Py.forall_chars q (Py.strip s) = true.
Proof.
  intro H. unfold Py.strip. now apply forall_chars_rstrip, forall_chars_lstrip.
Qed.

Lemma contains_differs (c : ascii) (s : string) :
  Py.contains c s = false <-> Py.forall_chars (differs c) s = true.
Proof.
  unfold differs. induction s as [|d s IH]; simpl; [tauto|].
  rewrite orb_false_iff, andb_true_iff, negb_true_iff, IH. tauto.
Qed.

Lemma contains_strip (c : ascii) (s : string) :
  Py.contains c s = false -> Py.contains c (Py.strip s) = false.
Proof.
  rewrite !contains_differs. apply forall_chars_strip.
Qed.

(** No field that [split] finds holds the separator. *)
Lemma split_parts_no_sep (sep : ascii) (s : string) :
  Forall (fun x => Py.contains sep x = false) (Py.split sep s).
Proof.
  induction s as [|c s IH]; simpl; [now repeat constructor|].
  destruct (Ascii.eqb c sep) eqn:E; [now constructor|].
  destruct (Py.split sep s) as [|x r]; [now repeat constructor; simpl; rewrite E|].
  inversion IH; subst. constructor; [|assumption].
  simpl. rewrite E. assumption.
Qed.

Lemma split_parts_forall (q : ascii -> bool) (sep : ascii) (s : string) :
  Py.forall_chars q s = true ->
  Forall (fun x => Py.forall_chars q x = true) (Py.split sep s).
Proof.
  induction s as [|c s IH]; simpl; [now repeat constructor|].
  intro H. apply andb_true_iff in H. destruct H as [H1 H2].
  specialize (IH H2).
  destruct (Ascii.eqb c sep); [now constructor|].
  destruct (Py.split sep s) as [|x r]; [now repeat constructor; simpl; rewrite H1|].
  inversion IH; subst. constructor; [|assumption].
  simpl. now rewrite H1.
Qed.

(** No line that [splitlines] finds holds a line boundary. *)
Lemma splitlines_no_linebreak (s : string) :
  Forall (fun l => Py.forall_chars not_linebreak l = true) (Py.splitlines s).
Proof.
  assert (G : forall n s, (String.length s <= n)%nat ->
            Forall (fun l => Py.forall_chars not_linebreak l = true)
              (Py.splitlines s)).
  { clear s. induction n as [|n IH]; intros s L.
    - destruct s; [constructor | simpl in L; lia].
    - destruct s as [|c r]; [constructor|].
      simpl in L. cbn [Py.splitlines].
      destruct (Py.is_linebreak c) eqn:E.
      + destruct r as [|c2 r2]; [now repeat constructor|].
        destruct (Ascii.eqb c Py.CR && Ascii.eqb c2 Py.LF).
        * constructor; [reflexivity|]. apply IH. simpl in L. lia.
        * constructor; [reflexivity|]. apply IH. lia.
      + assert (R : Forall (fun l => Py.forall_chars not_linebreak l = true)
                      (Py.splitlines r)) by (apply IH; lia).
        fold Py.splitlines.
        destruct (Py.splitlines r) as [|l ls].
        * repeat constructor. simpl. unfold not_linebreak at 1. now rewrite E.
        * inversion R; subst. constructor; [|assumption].
          simpl. unfold not_linebreak at 1. now rewrite E. }
  apply (G (String.length s)). lia.
Qed.

(** ** What [int] returns is within the digit limit *)

Lemma digit_value_lt (c : ascii) (d : N) :
  Py.digit_value c = Some d -> (d < 10)%N.
Proof.
  unfold Py.digit_value.
  destruct ((48 <=? Py.ord c) && (Py.ord c <=? 57))%N eqn:E; [|discriminate].
  apply andb_true_iff in E. destruct E as [E1 E2].
  apply N.leb_le in E1, E2. intro H. injection H as <-. lia.
Qed.

Lemma scan_digits_bound (s : string) :
  forall prev k a k' a',
    Py.scan_digits s prev k a = Some (k', a') ->
    (a < 10 ^ N.of_nat k)%N -> (a' < 10 ^ N.of_nat k')%N.
Proof.
  induction s as [|c s IH]; intros prev k a k' a' H B;
    cbn [Py.scan_digits] in H.
  - destruct prev; [discriminate|]. now injection H as <- <-.
  - destruct (Ascii.eqb c Py.underscore).
    + destruct prev; [discriminate|]. now apply (IH _ _ _ _ _ H).
    + destruct (Py.digit_value c) as [d|] eqn:D; [|discriminate].
      apply (IH _ _ _ _ _ H).
      apply digit_value_lt in D.
      rewrite Nat2N.inj_succ, N.pow_succ_r'. lia.
Qed.

Lemma int_body_bound (s : string) (v : N) :
  Py.int_body s = Some v -> (v < 10 ^ N.of_nat Py.int_max_str_digits)%N.
Proof.
  unfold Py.int_body. destruct s as [|c r]; [discriminate|].
  destruct (Ascii.eqb c Py.underscore); [discriminate|].
  destruct (Py.scan_digits (String c r) false 0 0%N) as [[ndig w]|] eqn:S;
    [|discriminate].
  destruct (Py.int_max_str_digits <? ndig)%nat eqn:L; [discriminate|].
  intro H. injection H as <-.
  apply Nat.ltb_ge in L.
  apply N.lt_le_trans with (10 ^ N.of_nat ndig)%N.
  - apply (scan_digits_bound _ _ _ _ _ _ S). reflexivity.
  - apply N.pow_le_mono_r; [discriminate | lia].
Qed.

Lemma int_printable (s : string) (z : Z) : Py.int s = ret z -> printable z.
Proof.
  unfold Py.int, printable.
  destruct (match Py.rstrip_by Py.is_int_space (Py.lstrip_by Py.is_int_space s) with
            | EmptyString => _
            | String c r => _
            end) as [neg body].
  destruct (Py.int_body body) as [v|] eqn:B; [|discriminate].
  apply int_body_bound in B.
  unfold ret. intro H. injection H as <-.
  assert (E : Z.abs (if neg then - Z.of_N v else Z.of_N v) = Z.of_N v)
    by (destruct neg; lia).
  rewrite E, <- nat_N_Z.
  change 10 with (Z.of_N 10). rewrite <- N2Z.inj_pow. now apply N2Z.inj_lt.
Qed.

Lemma mapM_int_printable (l : list string) (zs : list Z) :
  mapM Py.int l = ret zs -> Forall printable zs.
Proof.
  revert zs. induction l as [|x r IH]; intros zs; simpl.
  - unfold ret. intro H. injection H as <-. constructor.
  - destruct (Py.int x) as [e|z] eqn:E; cbn [bind]; [discriminate|].
    destruct (mapM Py.int r) as [e|ws]; cbn [bind]; [discriminate|].
    unfold ret. intro H. injection H as <-.
    constructor; [now apply int_printable in E | now apply IH].
Qed.

(** ** Every record that is loaded is storable *)

Lemma load_line_storable (i : nat) (line : string) (s : Student) :
  Py.forall_chars not_linebreak line = true ->
  load_line i line = ret (Some s) -> storable s.
Proof.
  intro NL. unfold load_line.
  destruct (Py.is_empty (Py.strip line)); [discriminate|].
  destruct (Nat.eqb i 0 && Py.isdigit (Py.strip line)
            && negb (Py.contains Py.comma (Py.strip line))); [discriminate|].
  pose proof (split_parts_no_sep Py.comma (Py.strip line)) as NC.
  pose proof (split_parts_forall not_linebreak Py.comma (Py.strip line)
                (forall_chars_strip _ _ NL)) as NB.
  destruct (Py.split Py.comma (Py.strip line))
    as [|p0 [|p1 [|p2 [|p3 [|p4 [|p5 [|]]]]]]]; try discriminate.
  cbn [map List.length Nat.eqb negb].
  unfold parse_fields. cbn [index nth_error skipn bind ret].
  destruct (Py.int (Py.strip p0)) as [e|c] eqn:E0; cbn [bind];
    [destruct e; discriminate|].
  destruct (mapM Py.int [Py.strip p2; Py.strip p3; Py.strip p4; Py.strip p5])
    as [e|zs] eqn:EM; cbn [bind]; [destruct e; discriminate|].
  apply mapM_int_printable in EM.
  destruct zs as [|c1 [|c2 [|c3 [|ex [|]]]]]; try discriminate.
  unfold ret. intro H. injection H as <-.
  inversion EM as [|? ? P1 EM1]; inversion EM1 as [|? ? P2 EM2];
    inversion EM2 as [|? ? P3 EM3]; inversion EM3 as [|? ? Pe _]; subst.
  inversion NC as [|? ? _ NC1]; inversion NC1 as [|? ? C1 _]; subst.
  inversion NB as [|? ? _ NB1]; inversion NB1 as [|? ? B1 _]; subst.
  repeat split; cbn [name code cw1 cw2 cw3 exam]; try assumption.
  - apply strip_idempotent.
  - now apply contains_strip.
  - now apply forall_chars_strip.
  - now apply int_printable in E0.
Qed.

Lemma rows_of_storable (lines : list string) :
  Forall (fun l => Py.forall_chars not_linebreak l = true) lines ->
  forall i, Forall storable (rows_of i lines).
Proof.
  induction 1 as [|line rest NL _ IH]; intro i; cbn [rows_of]; [constructor|].
  destruct (load_line i line) as [e|[s|]] eqn:E; try apply IH.
  constructor; [|apply IH]. exact (load_line_storable i line s NL E).
Qed.

Lemma load_students_rows_storable (f : file) (rows : list Student) :
  load_students f = ret rows -> Forall storable rows.
Proof.
  destruct f as [text|]; simpl.
  - rewrite load_loop_rows. unfold ret. intro H. injection H as <-.
    apply rows_of_storable, splitlines_no_linebreak.
  - unfold ret. intro H. injection H as <-. constructor.
Qed.

(** ** Load and save, composed *)

Lemma load_students_rows (f : file) :
  load_students f
  = ret (match f with
         | Some text => rows_of 0 (Py.splitlines text)
         | None => []
         end).
Proof.
  destruct f as [text|]; [|reflexivity]. apply (load_loop_rows _ 0 []).
Qed.

(** X1: whatever the data file holds, saving the roster loaded from it
    and loading again gives that same roster: the first load already
    normalises the records. *)
Theorem load_save_load (f : file) :
  exists rows,
    load_students f = ret rows /\
    load_students (save_students rows) = ret rows.
Proof.
  pose proof (load_students_rows f) as H.
  eexists. split; [exact H|].
  apply load_save_storable. exact (load_students_rows_storable f _ H).
Qed.

(** X2: every record that [load_students] returns has a name without
    white space at either end, without comma and without line boundary,
    and integers within the digit limit of [int]: whatever the file
    holds, the roster loaded is one the file format can carry. *)
Theorem loaded_records_storable (f : file) (rows : list Student) (s : Student) :
  load_students f = ret rows -> In s rows ->
  Py.strip (name s) = name s /\
  Py.contains Py.comma (name s) = false /\
  Py.forall_chars not_linebreak (name s) = true /\
  Forall printable [code s; cw1 s; cw2 s; cw3 s; exam s].
Proof.
  intros H Hin.
  pose proof (load_students_rows_storable f rows H) as S.
  rewrite Forall_forall in S.
  destruct (S s Hin) as ((N1 & N2 & N3) & Pc & P1 & P2 & P3 & Pe).
  repeat split; try assumption. repeat constructor; assumption.
Qed.

Lemma loaded_records_storable_witness :
  Py.strip (name bob) = name bob /\
  Py.contains Py.comma (name bob) = false /\
  Py.forall_chars not_linebreak (name bob) = true /\
  Forall printable [code bob; cw1 bob; cw2 bob; cw3 bob; exam bob].
Proof.
  apply (loaded_records_storable
           (Some "1
 1002 , Bob ,10, 11,12,50 ") [bob] bob).
  - vm_compute. reflexivity.
  - simpl. auto.
Defined.

(** X3: loading goes line by line: the records of two runs of lines
    put end to end are the records of the first followed by those of
    the second, wherever the lines stand; in particular lines given
    twice are loaded twice. *)
Theorem load_loop_app (l1 l2 : list string) :
  exists r1 r2,
    load_loop 0 l1 [] = ret r1 /\
    load_loop 0 l2 [] = ret r2 /\
    load_loop 0 (l1 ++ l2) [] = ret (r1 ++ r2).
Proof.
  exists (rows_of 0 l1), (rows_of 0 l2).
  rewrite !load_loop_rows. cbn [app].
  now rewrite rows_of_app.
Qed.

(** ** The roster under the menu actions *)

(** Dropping students keeps the codes apart. *)
Lemma unique_codes_filter (keep : Student -> bool) (l : list Student) :
  unique_codes l -> unique_codes (filter keep l).
Proof.
  unfold unique_codes. intro U.
  induction l as [|s l IH]; [exact U|].
  cbn [map] in U. apply NoDup_cons_iff in U. destruct U as [Fresh U].
  cbn [filter]. destruct (keep s); [|exact (IH U)].
  cbn [map]. apply NoDup_cons; [|exact (IH U)].
  rewrite in_map_iff in *. intros (t & E & I).
  apply Fresh. exists t. apply filter_In in I. tauto.
Qed.

Lemma replace_first_codes (c : Z) (s : Student) (l : list Student) (x : Z) :
  In x (map code (replace_first c s l)) -> In x (map code l) \/ x = code s.
Proof.
  induction l as [|y r IH]; simpl; [tauto|].
  destruct (code y =? c); simpl.
  - intros [H|H]; auto.
  - intros [H|H]; auto. destruct (IH H); auto.
Qed.

Lemma replace_first_unique (c : Z) (s : Student) (l : list Student) :
  unique_codes l ->
  code s = c \/ ~ In (code s) (map code l) ->
  unique_codes (replace_first c s l).
Proof.
  unfold unique_codes.
  induction l as [|y r IH]; simpl; intros N H; [constructor|].
  inversion N as [|? ? Hy Hr]; subst.
  destruct (code y =? c) eqn:E; simpl.
  - apply Z.eqb_eq in E. constructor; [|exact Hr].
    destruct H as [H|H]; [congruence | tauto].
  - apply Z.eqb_neq in E. constructor.
    + intro K. apply replace_first_codes in K. destruct K as [K|K]; [tauto|].
      destruct H as [H|H]; [congruence|]. apply H. now left.
    + apply IH; [exact Hr|]. destruct H as [H|H]; [now left | right; tauto].
Qed.

(** X4: no menu action lets two students share a code: a roster
    with unique codes has unique codes after [add_student],
    [delete_student], [update_student] and [sort_records], whatever
    the dialogs returned; a sort that raises leaves the roster as it
    was. *)
Theorem unique_codes_kept (app : App) :
  unique_codes (students app) ->
  (forall dialog, unique_codes (students (fst (add_student app dialog)))) /\
  (forall choice confirm,
      unique_codes (students (fst (delete_student app choice confirm)))) /\
  (forall choice dialog,
      unique_codes (students (fst (update_student app choice dialog)))) /\
  (forall asc app',
      sort_records app asc = ret app' -> unique_codes (students app')).
Proof.
  intro U. split; [|split; [|split]].
  - intros [s|]; [|exact U]. unfold add_student.
    destruct (has_code (code s) (students app)) eqn:E; [exact U|].
    cbn [fst students]. unfold unique_codes in *.
    rewrite map_app. simpl.
    apply (Permutation_NoDup (l := code s :: map code (students app))).
    + apply Permutation_cons_append.
    + constructor; [|exact U].
      intro H. apply in_map_iff in H. destruct H as (st & Hc & Hin).
      exact (proj1 (has_code_false _ _) E st Hin Hc).
  - intros choice confirm. unfold delete_student.
    destruct (students app) as [|x r] eqn:E;
      [cbn [fst]; rewrite E; exact U|].
    destruct choice as [s|]; [|cbn [fst]; rewrite E; exact U].
    destruct confirm; [|cbn [fst negb]; rewrite E; exact U].
    cbn [negb fst students]. now apply unique_codes_filter.
  - intros choice dialog. unfold update_student.
    destruct (students app) as [|x r] eqn:E;
      [cbn [fst]; rewrite E; exact U|].
    destruct choice as [s0|]; [|cbn [fst]; rewrite E; exact U].
    destruct dialog as [s|]; [|cbn [fst]; rewrite E; exact U].
    destruct (negb (code s =? code s0) && has_code (code s) (x :: r))
      eqn:G; [cbn [fst]; rewrite E; exact U|].
    cbn [fst students]. apply replace_first_unique; [exact U|].
    apply andb_false_iff in G. destruct G as [G|G].
    + left. apply negb_false_iff, Z.eqb_eq in G. exact G.
    + right. intro H. apply in_map_iff in H. destruct H as (st & Hc & Hin).
      exact (proj1 (has_code_false _ _) G st Hin Hc).
  - intros asc app' H. unfold unique_codes in *.
    apply (Permutation_NoDup (l := map code (students app))); [|exact U].
    apply Permutation_map. symmetry. exact (proj1 (sort_records_perm _ _ _ H)).
Qed.

Lemma unique_codes_kept_witness :
  unique_codes (students (fst (add_student (mkApp [alice; bob] None) (Some carol)))).
Proof.
  apply (unique_codes_kept (mkApp [alice; bob] None)).
  repeat constructor; simpl; intuition discriminate.
Defined.

Lemma replace_first_Forall (P : Student -> Prop) (c : Z) (s : Student)
    (l : list Student) :
  P s -> Forall P l -> Forall P (replace_first c s l).
Proof.
  intros Hs. induction 1 as [|y r Hy Hr IH]; simpl; [constructor|].
  destruct (code y =? c); constructor; assumption.
Qed.

Lemma filter_Forall {A : Type} (P : A -> Prop) (p : A -> bool) (l : list A) :
  Forall P l -> Forall P (filter p l).
Proof.
  rewrite !Forall_forall. intros H x Hx. apply filter_In in Hx. now apply H.
Qed.

(** X5: the data file follows the roster. When the records of the
    roster and the record the dialog returned are storable, the file is
    in step with the roster after [add_student], [delete_student] and
    [update_student] if it was before; and whenever one of them
    reports success the file it wrote loads back as the new roster. *)
Theorem file_follows_roster (app : App) (s : Student) :
  Forall storable (students app) -> storable s ->
  (in_sync app ->
   in_sync (fst (add_student app (Some s))) /\
   (forall choice confirm, in_sync (fst (delete_student app choice confirm))) /\
   (forall choice, in_sync (fst (update_student app choice (Some s))))) /\
  (forall app', add_student app (Some s) = (app', Some (Added s)) ->
                in_sync app') /\
  (forall app' choice confirm x,
      delete_student app choice confirm = (app', Some (Deleted x)) ->
      in_sync app') /\
  (forall app' choice,
      update_student app choice (Some s) = (app', Some (Updated s)) ->
      in_sync app').
Proof.
  intros S Hs.
  assert (A : forall app' m, add_student app (Some s) = (app', m) ->
                             app' = app \/ in_sync app').
  { intros app' m. unfold add_student.
    destruct (has_code (code s) (students app)); intro H; injection H as <- <-;
      [now left | right].
    unfold in_sync. cbn [students data].
    apply load_save_storable, Forall_app. split; [exact S | now constructor]. }
  assert (D : forall app' choice confirm m,
             delete_student app choice confirm = (app', m) ->
             (app' = app /\ m = None) \/ in_sync app').
  { intros app' choice confirm m. unfold delete_student.
    destruct (students app) as [|y r] eqn:E;
      [intro H; injection H as <- <-; now left|].
    rewrite <- E in *.
    destruct choice as [x|]; [|intro H; injection H as <- <-; now left].
    destruct confirm; cbn [negb]; intro H; injection H as <- <-; [right | now left].
    unfold in_sync. cbn [students data].
    apply load_save_storable, filter_Forall. exact S. }
  assert (U : forall app' choice m,
             update_student app choice (Some s) = (app', m) ->
             (app' = app /\ m <> Some (Updated s)) \/ in_sync app').
  { intros app' choice m. unfold update_student.
    destruct (students app) as [|y r] eqn:E;
      [intro H; injection H as <- <-; now left|].
    rewrite <- E in *.
    destruct choice as [s0|]; [|intro H; injection H as <- <-; now left].
    destruct (negb (code s =? code s0) && has_code (code s) (students app));
      intro H; injection H as <- <-; [now left | right].
    unfold in_sync. cbn [students data].
    apply load_save_storable, replace_first_Forall; assumption. }
  split; [intro I; split; [|split]|split; [|split]].
  - destruct (add_student app (Some s)) as [app' m] eqn:E.
    destruct (A app' m eq_refl) as [->|H]; assumption.
  - intros choice confirm.
    destruct (delete_student app choice confirm) as [app' m] eqn:E.
    destruct (D app' choice confirm m E) as [[-> _]|H]; assumption.
  - intro choice.
    destruct (update_student app choice (Some s)) as [app' m] eqn:E.
    destruct (U app' choice m E) as [[-> _]|H]; assumption.
  - intros app' H. unfold add_student in H.
    destruct (has_code (code s) (students app)); [discriminate|].
    injection H as <-. unfold in_sync. cbn [students data].
    apply load_save_storable, Forall_app. split; [exact S | now constructor].
  - intros app' choice confirm x H.
    destruct (D app' choice confirm _ H) as [[_ K]|K]; [discriminate | exact K].
  - intros app' choice H.
    destruct (U app' choice _ H) as [[_ K]|K]; [now contradiction K | exact K].
Qed.

Lemma file_follows_roster_witness :
  in_sync (fst (add_student (mkApp [alice; bob] None) (Some carol))).
Proof.
  assert (S : forall x, in_ranges x -> clean_name (name x) -> storable x)
    by exact in_ranges_storable.
  destruct (file_follows_roster (mkApp [alice; bob] None) carol)
    as (_ & H & _).
  - repeat constructor; apply S; repeat split; simpl; try lia; discriminate.
  - apply S; repeat split; simpl; try lia; discriminate.
  - apply H. reflexivity.
Defined.

(** X6: [sort_records] does not write the data file. After a sort the
    file still loads as the roster in its former order, so it is in
    step with the sorted roster only if the sort changed nothing. *)
Theorem sort_is_not_saved (app app' : App) (asc : bool) :
  in_sync app -> sort_records app asc = ret app' ->
  data app' = data app /\
  load_students (data app') = ret (students app) /\
  (in_sync app' <-> students app' = students app).
Proof.
  intros I H.
  destruct (sort_records_perm _ _ _ H) as [_ D].
  unfold in_sync in *. rewrite D, I. split; [reflexivity|]. split; [reflexivity|].
  split; intro E.
  - unfold ret in E. now injection E as <-.
  - now rewrite E.
Qed.

Lemma sort_is_not_saved_witness :
  load_students (data (mkApp [alice; bob] (save_students [bob; alice])))
  = ret [bob; alice] /\
  sort_records (mkApp [bob; alice] (save_students [bob; alice])) false
  = ret (mkApp [alice; bob] (save_students [bob; alice])).
Proof.
  split; [|vm_compute; reflexivity].
  apply (sort_is_not_saved (mkApp [bob; alice] (save_students [bob; alice]))
           (mkApp [alice; bob] (save_students [bob; alice])) false);
    vm_compute; reflexivity.
Defined.

(** X7: deleting the student just added gives back the roster as it
    was before the addition. *)
Theorem add_then_delete (app : App) (s : Student) :
  (forall st, In st (students app) -> code st <> code s) ->
  exists app' app'',
    add_student app (Some s) = (app', Some (Added s)) /\
    delete_student app' (Some s) true = (app'', Some (Deleted s)) /\
    students app'' = students app /\
    data app'' = save_students (students app).
Proof.
  intro H. unfold add_student.
  rewrite (proj2 (has_code_false _ _) H).
  eexists. eexists. split; [reflexivity|].
  unfold delete_student. cbn [students].
  assert (F : filter (fun x => negb (code x =? code s)) (students app ++ [s])
              = students app).
  { rewrite filter_app. simpl. rewrite Z.eqb_refl. simpl. rewrite app_nil_r.
    apply forallb_filter_id. apply forallb_forall. intros x Hx.
    apply negb_true_iff, Z.eqb_neq. now apply H. }
  destruct (students app ++ [s]) as [|y r] eqn:E;
    [destruct (students app); discriminate|].
  cbn [negb]. rewrite F. repeat split.
Qed.

Lemma add_then_delete_witness :
  exists app' app'',
    add_student (mkApp [alice; bob] None) (Some carol) = (app', Some (Added carol)) /\
    delete_student app' (Some carol) true = (app'', Some (Deleted carol)) /\
    students app'' = [alice; bob] /\
    data app'' = save_students [alice; bob].
Proof.
  apply (add_then_delete (mkApp [alice; bob] None) carol).
  intros st [<-|[<-|[]]]; discriminate.
Defined.

(** ** The edit dialog *)

Lemma read_entries_ok (e : entries) (c : Z) (n : string) (c1 c2 c3 ex : Z) :
  read_entries e = ret (c, n, c1, c2, c3, ex) <->
  Py.int (Py.strip (e_code e)) = ret c /\
  Py.strip (e_name e) = n /\
  Py.int (Py.strip (e_cw1 e)) = ret c1 /\
  Py.int (Py.strip (e_cw2 e)) = ret c2 /\
  Py.int (Py.strip (e_cw3 e)) = ret c3 /\
  Py.int (Py.strip (e_exam e)) = ret ex.
Proof.
  unfold read_entries, ret.
  destruct (Py.int (Py.strip (e_code e))) as [x|z]; cbn [bind];
    [split; [discriminate | intros (H & _); discriminate H]|].
  destruct (Py.int (Py.strip (e_cw1 e))) as [x|z1]; cbn [bind];
    [split; [discriminate | intros (_ & _ & H & _); discriminate H]|].
  destruct (Py.int (Py.strip (e_cw2 e))) as [x|z2]; cbn [bind];
    [split; [discriminate | intros (_ & _ & _ & H & _); discriminate H]|].
  destruct (Py.int (Py.strip (e_cw3 e))) as [x|z3]; cbn [bind];
    [split; [discriminate | intros (_ & _ & _ & _ & H & _); discriminate H]|].
  destruct (Py.int (Py.strip (e_exam e))) as [x|z4]; cbn [bind];
    [split; [discriminate | intros (_ & _ & _ & _ & _ & H); discriminate H]|].
  split.
  - intro H. injection H as <- <- <- <- <- <-. repeat split.
  - intros (H0 & <- & H1 & H2 & H3 & H4).
    injection H0 as <-. injection H1 as <-. injection H2 as <-.
    injection H3 as <-. injection H4 as <-. reflexivity.
Qed.

Lemma read_entries_error (e : entries) (x : exn) :
  read_entries e = inl x -> x = ValueError.
Proof.
  unfold read_entries.
  destruct (Py.int (Py.strip (e_code e))) eqn:E0; cbn [bind];
    [intro H; injection H as <-; exact (int_error _ _ E0)|].
  destruct (Py.int (Py.strip (e_cw1 e))) eqn:E1; cbn [bind];
    [intro H; injection H as <-; exact (int_error _ _ E1)|].
  destruct (Py.int (Py.strip (e_cw2 e))) eqn:E2; cbn [bind];
    [intro H; injection H as <-; exact (int_error _ _ E2)|].
  destruct (Py.int (Py.strip (e_cw3 e))) eqn:E3; cbn [bind];
    [intro H; injection H as <-; exact (int_error _ _ E3)|].
  destruct (Py.int (Py.strip (e_exam e))) eqn:E4; cbn [bind];
    [intro H; injection H as <-; exact (int_error _ _ E4)|].
  discriminate.
Qed.

Lemma is_empty_false (s : string) : Py.is_empty s = false <-> s <> EmptyString.
Proof. destruct s; simpl; split; congruence. Qed.

(** What [submit] does with the values it has read. *)
Lemma submit_read (e : entries) (c : Z) (n : string) (c1 c2 c3 ex : Z) :
  read_entries e = ret (c, n, c1, c2, c3, ex) ->
  (in_ranges (mkStudent c n c1 c2 c3 ex) ->
   submit e = ret (inr (mkStudent c n c1 c2 c3 ex))) /\
  (forall s, submit e = ret (inr s) ->
             s = mkStudent c n c1 c2 c3 ex /\ in_ranges s).
Proof.
  intro R.
  assert (E : submit e
              = if negb ((1000 <=? c) && (c <=? 9999)) then ret (inl BadCode)
                else if Py.is_empty n then ret (inl EmptyName)
                else match first_bad_mark
                             [(c1, 0, 20, "CW1"); (c2, 0, 20, "CW2");
                              (c3, 0, 20, "CW3"); (ex, 0, 100, "Exam")] with
                     | Some err => ret (inl err)
                     | None => ret (inr (mkStudent c n c1 c2 c3 ex))
                     end)
    by (unfold submit; rewrite R; reflexivity).
  rewrite E. clear E. unfold in_ranges.
  cbn [code name cw1 cw2 cw3 exam first_bad_mark].
  destruct ((1000 <=? c) && (c <=? 9999)) eqn:Ec; cbn [negb];
    [|split; [intro H; exfalso; lia | intros ? K; unfold ret in K; discriminate K]].
  destruct (Py.is_empty n) eqn:En;
    [split; [intros (_ & H & _); destruct n; [now contradiction H | discriminate]
            | intros ? K; unfold ret in K; discriminate K]|].
  apply is_empty_false in En.
  destruct ((0 <=? c1) && (c1 <=? 20)) eqn:E1; cbn [negb];
    [|split; [intro H; exfalso; lia | intros ? K; unfold ret in K; discriminate K]].
  destruct ((0 <=? c2) && (c2 <=? 20)) eqn:E2; cbn [negb];
    [|split; [intro H; exfalso; lia | intros ? K; unfold ret in K; discriminate K]].
  destruct ((0 <=? c3) && (c3 <=? 20)) eqn:E3; cbn [negb];
    [|split; [intro H; exfalso; lia | intros ? K; unfold ret in K; discriminate K]].
  destruct ((0 <=? ex) && (ex <=? 100)) eqn:E4; cbn [negb];
    [|split; [intro H; exfalso; lia | intros ? K; unfold ret in K; discriminate K]].
  split; [reflexivity|].
  intros s H. unfold ret in H. injection H as <-.
  cbn [code name cw1 cw2 cw3 exam]. repeat split; try assumption; lia.
Qed.

(** X8: the edit dialog accepts the fields exactly when the five
    numbers are integers for [int], the code is from 1000 to 9999, the
    trimmed name is not empty, the course-work marks are from 0 to 20
    and the exam mark from 0 to 100; the student it returns has those
    integers and the trimmed name. [submit] never raises. *)
Theorem submit_accepts (e : entries) :
  (forall s,
      submit e = ret (inr s) <->
      Py.int (Py.strip (e_code e)) = ret (code s) /\
      Py.strip (e_name e) = name s /\
      Py.int (Py.strip (e_cw1 e)) = ret (cw1 s) /\
      Py.int (Py.strip (e_cw2 e)) = ret (cw2 s) /\
      Py.int (Py.strip (e_cw3 e)) = ret (cw3 s) /\
      Py.int (Py.strip (e_exam e)) = ret (exam s) /\
      in_ranges s) /\
  exists r, submit e = ret r.
Proof.
  split.
  - intro s. split.
    + intro H.
      destruct (read_entries e) as [x|[[[[[c n] c1] c2] c3] ex]] eqn:R.
      * unfold submit in H. rewrite R in H. destruct x; discriminate H.
      * destruct (proj2 (submit_read e _ _ _ _ _ _ R) s H) as [-> I].
        apply read_entries_ok in R. cbn [code name cw1 cw2 cw3 exam].
        tauto.
    + intros (H0 & Hn & H1 & H2 & H3 & H4 & I).
      assert (R : read_entries e
                  = ret (code s, name s, cw1 s, cw2 s, cw3 s, exam s))
        by (apply read_entries_ok; tauto).
      destruct s as [c n c1 c2 c3 ex].
      exact (proj1 (submit_read e _ _ _ _ _ _ R) I).
  - unfold submit.
    destruct (read_entries e) as [x|[[[[[c n] c1] c2] c3] ex]] eqn:R.
    + apply read_entries_error in R. subst x. eexists. reflexivity.
    + destruct (negb ((1000 <=? c) && (c <=? 9999))); [eexists; reflexivity|].
      destruct (Py.is_empty n); [eexists; reflexivity|].
      destruct (first_bad_mark _); eexists; reflexivity.
Qed.

Lemma submit_accepts_witness :
  submit (mkEntries " 1003" " Carol " "5" "6" "+7" "3_0") = ret (inr carol).
Proof.
  apply (proj1 (submit_accepts (mkEntries " 1003" " Carol " "5" "6" "+7" "3_0"))
           carol).
  repeat split; simpl; try lia; discriminate.
Defined.

Lemma submit_prefill_eq (s : Student) :
  in_ranges s -> Py.strip (name s) = name s ->
  submit (prefill (Some s)) = ret (inr s).
Proof.
  intros I N.
  destruct (in_ranges_printable s I) as (Pc & P1 & P2 & P3 & Pe).
  assert (R : read_entries (prefill (Some s))
              = ret (code s, name s, cw1 s, cw2 s, cw3 s, exam s)).
  { apply read_entries_ok.
    cbn [prefill e_code e_name e_cw1 e_cw2 e_cw3 e_exam].
    rewrite !strip_str, !int_str by assumption. auto 10. }
  destruct s as [c n c1 c2 c3 ex].
  exact (proj1 (submit_read _ _ _ _ _ _ _ R) I).
Qed.

(** X9: opened on a student whose fields are within the documented
    ranges and whose name has no white space at either end, the dialog
    saved without a change returns that very student. *)
Theorem submit_prefill (s : Student) :
  in_ranges s -> Py.strip (name s) = name s ->
  submit (prefill (Some s)) = ret (inr s) /\
  edit_dialog [Save (prefill (Some s))] = ret (Some s).
Proof.
  intros I N.
  pose proof (submit_prefill_eq s I N) as H.
  split; [exact H|]. cbn [edit_dialog]. rewrite H. reflexivity.
Qed.

Lemma submit_prefill_witness :
  submit (prefill (Some alice)) = ret (inr alice) /\
  edit_dialog [Save (prefill (Some alice))] = ret (Some alice).
Proof.
  apply (submit_prefill alice); [|reflexivity].
  repeat split; simpl; try lia; discriminate.
Defined.

Lemma submit_sound (e : entries) (s : Student) :
  submit e = ret (inr s) -> in_ranges s /\ Py.strip (name s) = name s.
Proof.
  intro H.
  destruct (read_entries e) as [x|[[[[[c n] c1] c2] c3] ex]] eqn:R.
  - unfold submit in H. rewrite R in H. destruct x; discriminate H.
  - destruct (proj2 (submit_read e _ _ _ _ _ _ R) s H) as [-> I].
    split; [exact I|]. apply read_entries_ok in R.
    destruct R as (_ & <- & _). apply strip_idempotent.
Qed.

Lemma submit_returns (e : entries) : exists r, submit e = ret r.
Proof.
  unfold submit.
  destruct (read_entries e) as [x|[[[[[c n] c1] c2] c3] ex]] eqn:R.
  - apply read_entries_error in R. subst x. eexists. reflexivity.
  - destruct (negb ((1000 <=? c) && (c <=? 9999))); [eexists; reflexivity|].
    destruct (Py.is_empty n); [eexists; reflexivity|].
    destruct (first_bad_mark _); eexists; reflexivity.
Qed.

Lemma edit_dialog_sound (actions : list dialog_action) :
  exists d, edit_dialog actions = ret d /\
            forall s, d = Some s -> in_ranges s /\ Py.strip (name s) = name s.
Proof.
  induction actions as [|a rest IH]; cbn [edit_dialog].
  - exists None. split; [reflexivity | discriminate].
  - destruct a as [e|]; [|exists None; split; [reflexivity | discriminate]].
    destruct (submit_returns e) as [[err|s] H]; rewrite H; cbn [bind ret].
    + exact IH.
    + exists (Some s). split; [reflexivity|].
      intros s' K. injection K as <-. exact (submit_sound e s H).
Qed.

(** X10: however the user goes about it, the edit dialog returns
    nothing or a student within the documented ranges, and so a roster
    within the ranges stays within them under [add_student] and
    [update_student] fed by the dialog, under [delete_student] and
    under [sort_records], which raises nothing on such a roster. *)
Theorem ranges_kept (app : App) (actions : list dialog_action) :
  exists d,
    edit_dialog actions = ret d /\
    (forall s, d = Some s -> in_ranges s /\ Py.strip (name s) = name s) /\
    (Forall in_ranges (students app) ->
     Forall in_ranges (students (fst (add_student app d))) /\
     (forall choice,
         Forall in_ranges (students (fst (update_student app choice d)))) /\
     (forall choice confirm,
         Forall in_ranges (students (fst (delete_student app choice confirm)))) /\
     (forall asc, exists app',
         sort_records app asc = ret app' /\
         Forall in_ranges (students app'))).
Proof.
  destruct (edit_dialog_sound actions) as (d & H & S).
  exists d. split; [exact H|]. split; [exact S|].
  intro R. split; [|split; [|split]].
  - destruct d as [s|]; [|exact R]. unfold add_student.
    destruct (has_code (code s) (students app)); [exact R|].
    cbn [fst students]. apply Forall_app. split; [exact R|].
    constructor; [|constructor]. now apply S.
  - intro choice. unfold update_student.
    destruct (students app) as [|y r] eqn:E;
      [cbn [fst]; rewrite E; exact R|].
    rewrite <- E in *.
    destruct choice as [s0|]; [|exact R].
    destruct d as [s|]; [|exact R].
    destruct (negb (code s =? code s0) && has_code (code s) (students app));
      [exact R|].
    cbn [fst students]. apply replace_first_Forall; [|exact R]. now apply S.
  - intros choice confirm. unfold delete_student.
    destruct (students app) as [|y r] eqn:E;
      [cbn [fst]; rewrite E; exact R|].
    rewrite <- E in *.
    destruct choice as [x|]; [|exact R].
    destruct confirm; [|exact R].
    cbn [negb fst students]. now apply filter_Forall.
  - intro asc.
    destruct (sort_records_total app asc (in_ranges_computable _ R))
      as (app' & Hs & P).
    exists app'. split; [exact Hs|].
    rewrite Forall_forall in *. intros x Hx. apply R.
    exact (Permutation_in _ P Hx).
Qed.

Lemma replace_first_same (s : Student) (l : list Student) :
  unique_codes l -> In s l -> replace_first (code s) s l = l.
Proof.
  unfold unique_codes.
  induction l as [|y r IH]; simpl; intros N H; [reflexivity|].
  inversion N as [|? ? Hy Hr]; subst.
  destruct (code y =? code s) eqn:E.
  - apply Z.eqb_eq in E. destruct H as [->|H]; [reflexivity|].
    exfalso. apply Hy. rewrite E. now apply in_map.
  - apply Z.eqb_neq in E. destruct H as [->|H]; [now contradiction E|].
    f_equal. now apply IH.
Qed.

(** X11: on a roster with unique codes, choosing a student within
    the documented ranges (name without white space at either end),
    and saving the dialog without a change, reports the update and
    leaves the roster as it was. *)
Theorem update_unchanged (app : App) (s : Student) :
  unique_codes (students app) -> In s (students app) ->
  in_ranges s -> Py.strip (name s) = name s ->
  exists d,
    edit_dialog [Save (prefill (Some s))] = ret d /\
    update_student app (Some s) d
    = (mkApp (students app) (save_students (students app)), Some (Updated s)).
Proof.
  intros U Hin I N. exists (Some s). split.
  - cbn [edit_dialog]. rewrite (submit_prefill_eq s I N). reflexivity.
  - unfold update_student.
    destruct (students app) as [|y r] eqn:E; [destruct Hin|].
    rewrite <- E in *. rewrite Z.eqb_refl. cbn [negb andb].
    now rewrite replace_first_same.
Qed.

Lemma update_unchanged_witness :
  exists d,
    edit_dialog [Save (prefill (Some bob))] = ret d /\
    update_student (mkApp [alice; bob; carol] None) (Some bob) d
    = (mkApp [alice; bob; carol] (save_students [alice; bob; carol]),
       Some (Updated bob)).
Proof.
  apply (update_unchanged (mkApp [alice; bob; carol] None) bob).
  - repeat constructor; simpl; intuition discriminate.
  - simpl. auto.
  - repeat split; simpl; try lia; discriminate.
  - reflexivity.
Defined.

(** ** Searching a student *)

Lemma find_loop_names (q : string) (l : list Student) :
  Py.isdigit q = false ->
  forall found, find_loop q l found = ret (found ++ named q l).
Proof.
  intro D. unfold named.
  induction l as [|x r IH]; intro found; cbn [find_loop filter].
  - now rewrite app_nil_r.
  - rewrite D. cbn [bind ret]. rewrite IH.
    destruct (Py.is_substring q (Py.lower (name x))); [|reflexivity].
    now rewrite <- app_assoc.
Qed.

Lemma find_loop_number (q : string) (n : Z) (l : list Student) :
  Py.isdigit q = true -> Py.int q = ret n ->
  forall found,
    find_loop q l found
    = match find_by_code l n with
      | Some s => ret [s]
      | None => ret (found ++ named q l)
      end.
Proof.
  intros D I. unfold find_by_code, named.
  induction l as [|x r IH]; intro found; cbn [find_loop find filter].
  - now rewrite app_nil_r.
  - rewrite D, I. cbn [bind ret].
    destruct (n =? code x); [reflexivity|].
    rewrite IH. destruct (find (fun s => n =? code s) r); [reflexivity|].
    destruct (Py.is_substring q (Py.lower (name x))); [|reflexivity].
    now rewrite <- app_assoc.
Qed.

Lemma view_individual_found (app : App) (q : string) (pick : option Student)
    (found : list Student) :
  students app <> [] -> q <> EmptyString ->
  find_loop (Py.lower (Py.strip q)) (students app) [] = ret found ->
  view_individual app (Some q) pick = ret (chosen found pick).
Proof.
  intros NE Q F. unfold view_individual.
  destruct (students app) as [|x r]; [now contradiction NE|].
  destruct q; [now contradiction Q|]. cbn [Py.is_empty].
  rewrite F. cbn [bind ret]. unfold chosen.
  destruct found as [|s [|]]; reflexivity.
Qed.

(** X12: a query that is a number shows the first student whose code
    is that number; when no student has that code, the number is
    searched in the names like any other text. *)
Theorem view_individual_number (app : App) (q : string) (n : Z)
    (pick : option Student) :
  students app <> [] -> q <> EmptyString ->
  Py.isdigit (Py.lower (Py.strip q)) = true ->
  Py.int (Py.lower (Py.strip q)) = ret n ->
  view_individual app (Some q) pick
  = match find_by_code (students app) n with
    | Some s => ret (Some s)
    | None => ret (chosen (named (Py.lower (Py.strip q)) (students app)) pick)
    end.
Proof.
  intros NE Q D I.
  pose proof (find_loop_number _ n (students app) D I []) as F.
  destruct (find_by_code (students app) n) as [s|].
  - now rewrite (view_individual_found app q pick [s] NE Q F).
  - now rewrite (view_individual_found app q pick _ NE Q F).
Qed.

Lemma view_individual_number_witness :
  view_individual (mkApp [mkStudent 1005 "Agent 1002" 1 2 3 4; bob] None)
    (Some " 1002 ") None = ret (Some bob) /\
  view_individual (mkApp [mkStudent 1005 "Agent 1002" 1 2 3 4; carol] None)
    (Some " 1002 ") None = ret (Some (mkStudent 1005 "Agent 1002" 1 2 3 4)).
Proof.
  split.
  - rewrite (view_individual_number _ " 1002 " 1002); try reflexivity; discriminate.
  - rewrite (view_individual_number _ " 1002 " 1002); try reflexivity; discriminate.
Defined.

(** X13: a query that is not a number shows a student whose name holds
    it, whatever the case of the letters: the only such student, or the
    one picked among several, in the order of the roster. *)
Theorem view_individual_name (app : App) (q : string) (pick : option Student) :
  students app <> [] -> q <> EmptyString ->
  Py.isdigit (Py.lower (Py.strip q)) = false ->
  view_individual app (Some q) pick
  = ret (chosen (named (Py.lower (Py.strip q)) (students app)) pick).
Proof.
  intros NE Q D.
  apply (view_individual_found app q pick _ NE Q).
  apply (find_loop_names _ (students app) D []).
Qed.

Lemma view_individual_name_witness :
  view_individual (mkApp [alice; bob; carol] None) (Some " ARO ") None
  = ret (Some carol).
Proof.
  rewrite (view_individual_name _ " ARO "); try reflexivity; discriminate.
Defined.

(** X14: the number test of [view_individual] is [isdigit], which
    holds of digits that [int] does not read (a superscript two, or
    more digits than the limit): on such a query, with a roster that is
    not empty, [view_individual] raises [ValueError]. *)
Theorem view_individual_raises (app : App) (q : string) (pick : option Student) :
  students app <> [] -> q <> EmptyString ->
  Py.isdigit (Py.lower (Py.strip q)) = true ->
  Py.int (Py.lower (Py.strip q)) = raise ValueError ->
  view_individual app (Some q) pick = raise ValueError.
Proof.
  intros NE Q D I. unfold view_individual.
  destruct (students app) as [|x r]; [now contradiction NE|].
  destruct q; [now contradiction Q|]. cbn [Py.is_empty find_loop].
  rewrite D, I. reflexivity.
Qed.

Lemma view_individual_raises_witness :
  view_individual (mkApp [alice] None)
    (Some (String (ascii_of_nat 178) EmptyString)) None
  = raise ValueError.
Proof.
  apply (view_individual_raises (mkApp [alice] None)); try reflexivity;
    discriminate.
Defined.

Lemma is_substring_empty (s : string) : Py.is_substring EmptyString s = true.
Proof. destruct s; reflexivity. Qed.

(** X15: a query of white space only is not taken for an empty one: it
    matches every name, so the only student of the roster is shown, or
    the one picked among all of them. *)
Theorem view_individual_blank (app : App) (q : string) (pick : option Student) :
  q <> EmptyString -> Py.strip q = EmptyString ->
  view_individual app (Some q) pick = ret (chosen (students app) pick).
Proof.
  intros Q B.
  destruct (students app) as [|x r] eqn:E.
  - unfold view_individual. now rewrite E.
  - assert (NE : students app <> []) by (rewrite E; discriminate).
    rewrite (view_individual_found app q pick (students app) NE Q);
      [now rewrite E|].
    rewrite B. cbn [Py.lower].
    rewrite (find_loop_names EmptyString (students app) eq_refl []).
    unfold named. cbn [List.app]. f_equal.
    apply forallb_filter_id, forallb_forall. intros s _.
    apply is_substring_empty.
Qed.

Lemma view_individual_blank_witness :
  view_individual (mkApp [alice; bob] None) (Some "   ") (Some bob)
  = ret (Some bob).
Proof.
  apply (view_individual_blank (mkApp [alice; bob] None) "   " (Some bob));
    [discriminate | reflexivity].
Defined.

(** * The maths quiz *)

Lemma in_bounds_cases (lvl x : Z) :
  in_bounds lvl x <->
  (lvl = 1 /\ 1 <= x <= 9) \/ (lvl = 2 /\ 10 <= x <= 99) \/
  (lvl = 3 /\ 1000 <= x <= 9999).
Proof.
  unfold in_bounds, Quiz.DIFFICULTY_BOUNDS. split.
  - intros (n & lo & hi & H & B).
    destruct (lvl =? 1) eqn:E1; [apply Z.eqb_eq in E1; injection H as <- <- <-; auto|].
    destruct (lvl =? 2) eqn:E2; [apply Z.eqb_eq in E2; injection H as <- <- <-; auto|].
    destruct (lvl =? 3) eqn:E3; [apply Z.eqb_eq in E3; injection H as <- <- <-; auto|].
    discriminate.
  - intros [[-> B]|[[-> B]|[-> B]]]; simpl; eauto 6.
Qed.

Lemma in_bounds_table (lvl x : Z) :
  in_bounds lvl x -> exists t, Quiz.DIFFICULTY_BOUNDS lvl = Some t.
Proof. intros (n & lo & hi & H & _). eauto. Qed.

(** [next_question] before the tenth question is done: it asks a new
    question. *)
Lemma next_question_asks (app : Quiz.QuizApp) (d : Quiz.draw) (again : bool) :
  Quiz.q_index app + 1 <= Quiz.TOTAL_QUESTIONS ->
  possible (Quiz.level app) d ->
  exists x y,
    ((x, y) = (Quiz.d_a d, Quiz.d_b d) \/ (x, y) = (Quiz.d_b d, Quiz.d_a d)) /\
    (Quiz.level app <> 3 -> 0 <= Quiz.compute x (Quiz.d_op d) y) /\
    Quiz.next_question app d again
    = Some (Quiz.mkQuizApp (Quiz.level app) (Quiz.q_index app + 1)
              (Quiz.score app) 1 (Quiz.first_try_correct app)
              (Quiz.second_try_correct app) x y (Quiz.d_op d)
              (Py.str x ++ " " ++ Quiz.d_op d ++ " " ++ Py.str y ++ " =")%string
              Quiz.NoFeedback
              ("Q" ++ Py.str (Quiz.q_index app + 1) ++ "/"
               ++ Py.str Quiz.TOTAL_QUESTIONS)%string
              (Quiz.var_score app) (Quiz.shown app),
            None).
Proof.
  intros Q (Ba & Bb & O).
  unfold Quiz.next_question.
  assert (E : (Quiz.TOTAL_QUESTIONS <? Quiz.q_index app + 1) = false)
    by (apply Z.ltb_ge; exact Q).
  rewrite E. unfold Quiz.randomInt.
  destruct (in_bounds_table _ _ Ba) as [t T]. rewrite T.
  apply in_bounds_cases in Ba, Bb.
  destruct (String.eqb (Quiz.d_op d) "-" && negb (Quiz.level app =? 3)
            && (Quiz.d_a d <? Quiz.d_b d)) eqn:S.
  - exists (Quiz.d_b d), (Quiz.d_a d). split; [now right|]. split; [|reflexivity].
    intros _. apply andb_true_iff in S. destruct S as [S L].
    apply andb_true_iff in S. destruct S as [S _].
    apply Z.ltb_lt in L. unfold Quiz.compute.
    apply String.eqb_eq in S. rewrite S. simpl. lia.
  - exists (Quiz.d_a d), (Quiz.d_b d). split; [now left|]. split; [|reflexivity].
    intro L3. unfold Quiz.compute.
    destruct O as [O|O]; rewrite O in *; simpl in *.
    + lia.
    + apply Z.eqb_neq in L3. rewrite L3 in S. simpl in S.
      apply Z.ltb_ge in S. lia.
Qed.

(** The percentage of a score from 0 to 100 out of 100 is the score. *)
Lemma percentage_of_score (sc : Z) :
  0 <= sc <= 100 -> Quiz.percentage sc 100 = Some sc.
Proof.
  intro H.
  assert (T : 0 <= sc <= 160) by lia.
  apply (totals_forallb
           (fun t => if t <=? 100
                     then match Quiz.percentage t 100 with
                          | Some p => p =? t
                          | None => false
                          end
                     else true)) in T.
  - assert (L : (sc <=? 100) = true) by (apply Z.leb_le; lia).
    rewrite L in T.
    destruct (Quiz.percentage sc 100) as [p|]; [|discriminate].
    apply Z.eqb_eq in T. now subst p.
  - vm_compute. reflexivity.
Qed.

(** [next_question] during a quiz: a new question, or the results
    after the tenth. *)
Lemma next_question_step (app : Quiz.QuizApp) (d : Quiz.draw) (again : bool) :
  Quiz.shown app = Quiz.Questions ->
  0 <= Quiz.q_index app <= Quiz.TOTAL_QUESTIONS ->
  counted app ->
  Quiz.first_try_correct app + Quiz.second_try_correct app <= Quiz.q_index app ->
  possible (Quiz.level app) d ->
  exists app' r,
    Quiz.next_question app d again = Some (app', r) /\
    match r with
    | None =>
        playing app' /\ Quiz.level app' = Quiz.level app /\
        Quiz.q_index app' = Quiz.q_index app + 1 /\
        Quiz.score app' = Quiz.score app /\
        Quiz.first_try_correct app' = Quiz.first_try_correct app /\
        Quiz.second_try_correct app' = Quiz.second_try_correct app /\
        Quiz.attempt app' = 1 /\
        Quiz.var_feedback app' = Quiz.NoFeedback
    | Some rep =>
        Quiz.q_index app = Quiz.TOTAL_QUESTIONS /\
        fair_report rep /\
        Quiz.r_score rep = Quiz.score app /\
        Quiz.shown app' = (if again then Quiz.Menu else Quiz.Closed) /\
        (again = true ->
         Quiz.q_index app' = 0 /\ Quiz.score app' = 0 /\
         Quiz.first_try_correct app' = 0 /\ Quiz.second_try_correct app' = 0)
    end.
Proof.
  intros V Q C F P.
  destruct (Z.eq_dec (Quiz.q_index app) Quiz.TOTAL_QUESTIONS) as [E|NE].
  - (* the tenth question is done *)
    unfold Quiz.next_question.
    assert (L : (Quiz.TOTAL_QUESTIONS <? Quiz.q_index app + 1) = true)
      by (apply Z.ltb_lt; lia).
    rewrite L. unfold Quiz.displayResults. cbn [Quiz.score Quiz.level].
    destruct C as (C1 & C2 & C3).
    unfold Quiz.TOTAL_QUESTIONS, Quiz.PTS_FIRST, Quiz.PTS_SECOND in *.
    change (10 * 10) with 100.
    rewrite percentage_of_score by lia.
    destruct P as (Ba & _). destruct Ba as (n & lo & hi & T & _). rewrite T.
    destruct again; eexists; eexists; (split; [reflexivity|]);
      unfold fair_report; cbn; repeat split; intros; try assumption; try lia;
      try reflexivity; try discriminate.
  - destruct (next_question_asks app d again) as (x & y & XY & NN & H);
      [unfold Quiz.TOTAL_QUESTIONS in *; lia | exact P|].
    rewrite H. eexists. eexists. split; [reflexivity|].
    destruct P as (Ba & Bb & O). destruct C as (C1 & C2 & C3).
    unfold playing, counted. cbn.
    unfold Quiz.TOTAL_QUESTIONS in *.
    repeat split; try assumption; try lia; auto;
      destruct XY as [XY|XY]; injection XY as -> ->; assumption.
Qed.

(** What [submit_answer] does with an integer answer. *)
Lemma submit_answer_int (app : Quiz.QuizApp) (entry : string) (d : Quiz.draw)
    (again : bool) (ans : Z) :
  Py.strip entry <> EmptyString -> Py.int (Py.strip entry) = ret ans ->
  Quiz.submit_answer app entry d again
  = if ans =? Quiz.compute (Quiz.a app) (Quiz.op app) (Quiz.b app) then
      Quiz.next_question
        (Quiz.mkQuizApp (Quiz.level app) (Quiz.q_index app)
           (Quiz.score app
            + (if Quiz.attempt app =? 1 then Quiz.PTS_FIRST else Quiz.PTS_SECOND))
           (Quiz.attempt app)
           (if Quiz.attempt app =? 1 then Quiz.first_try_correct app + 1
            else Quiz.first_try_correct app)
           (if Quiz.attempt app =? 1 then Quiz.second_try_correct app
            else Quiz.second_try_correct app + 1)
           (Quiz.a app) (Quiz.b app) (Quiz.op app) (Quiz.var_question app)
           Quiz.Correct (Quiz.var_progress app)
           ("Score: "
            ++ Py.str (Quiz.score app
                       + (if Quiz.attempt app =? 1 then Quiz.PTS_FIRST
                          else Quiz.PTS_SECOND))%Z)%string
           (Quiz.shown app))
        d again
    else if Quiz.attempt app =? 1 then
      Some (Quiz.mkQuizApp (Quiz.level app) (Quiz.q_index app) (Quiz.score app) 2
              (Quiz.first_try_correct app) (Quiz.second_try_correct app)
              (Quiz.a app) (Quiz.b app) (Quiz.op app)
              (Py.str (Quiz.a app) ++ " " ++ Quiz.op app ++ " "
               ++ Py.str (Quiz.b app) ++ " =")%string
              Quiz.TryAgain (Quiz.var_progress app) (Quiz.var_score app)
              (Quiz.shown app),
            None)
    else
      Quiz.next_question
        (Quiz.set_feedback app
           (Quiz.AnswerWas (Quiz.compute (Quiz.a app) (Quiz.op app) (Quiz.b app))))
        d again.
Proof.
  intros NE I. unfold Quiz.submit_answer.
  apply is_empty_false in NE. rewrite NE, I. unfold ret, Quiz.isCorrect.
  destruct (ans =? Quiz.compute (Quiz.a app) (Quiz.op app) (Quiz.b app)).
  - reflexivity.
  - destruct (Quiz.attempt app =? 1) eqn:A; cbn; rewrite A; reflexivity.
Qed.

(** What [submit_answer] does with an entry that is no integer. *)
Lemma submit_answer_invalid (app : Quiz.QuizApp) (entry : string) (d : Quiz.draw)
    (again : bool) :
  (Py.strip entry = EmptyString ->
   Quiz.submit_answer app entry d again
   = Some (Quiz.set_feedback app Quiz.EnterWhole, None)) /\
  (Py.strip entry <> EmptyString ->
   (forall ans, Py.int (Py.strip entry) <> ret ans) ->
   Quiz.submit_answer app entry d again
   = Some (Quiz.set_feedback app Quiz.EnterValid, None)).
Proof.
  unfold Quiz.submit_answer. split.
  - intros ->. reflexivity.
  - intros NE I. apply is_empty_false in NE. rewrite NE.
    destruct (Py.int (Py.strip entry)) as [e|ans] eqn:E.
    + apply int_error in E. now subst e.
    + now contradiction (I ans).
Qed.

(** X16: starting the quiz at a level of the menu sets every score
    back to zero and asks the first of the ten questions. *)
Theorem start_quiz_asks (app : Quiz.QuizApp) (lvl : Z) (d : Quiz.draw) :
  possible lvl d ->
  exists app',
    Quiz.start_quiz app lvl d = Some (app', None) /\
    playing app' /\
    Quiz.level app' = lvl /\ Quiz.q_index app' = 1 /\ Quiz.score app' = 0 /\
    Quiz.first_try_correct app' = 0 /\ Quiz.second_try_correct app' = 0 /\
    Quiz.attempt app' = 1.
Proof.
  intro P. unfold Quiz.start_quiz.
  match goal with
  | |- exists _, Quiz.next_question ?x _ _ = _ /\ _ =>
      destruct (next_question_step x d false) as (app' & r & H & R)
  end; cbn; try reflexivity; try lia; try exact P.
  - unfold Quiz.TOTAL_QUESTIONS. lia.
  - unfold counted. cbn. lia.
  - destruct r as [rep|].
    + destruct R as (Q & _). cbn in Q. discriminate Q.
    + exists app'. cbn in R. intuition.
Qed.

Lemma start_quiz_asks_witness :
  exists app',
    Quiz.start_quiz Quiz.init 1 (Quiz.mkDraw 3 7 "-") = Some (app', None) /\
    playing app' /\ Quiz.q_index app' = 1 /\ Quiz.score app' = 0.
Proof.
  destruct (start_quiz_asks Quiz.init 1 (Quiz.mkDraw 3 7 "-"))
    as (app' & H & P & _ & Q & S & _).
  - repeat split; try (apply in_bounds_cases; cbn; lia). now right.
  - exists app'. auto.
Defined.

Lemma int_or_not (s : string) :
  (exists ans, Py.int s = ret ans) \/ (forall ans, Py.int s <> ret ans).
Proof.
  destruct (Py.int s) as [e|z]; [right; discriminate | left; now exists z].
Qed.

(** The fields of a state or of a report that is written out. *)
Ltac quiz_fields :=
  cbn [Quiz.level Quiz.q_index Quiz.score Quiz.attempt Quiz.first_try_correct
       Quiz.second_try_correct Quiz.a Quiz.b Quiz.op Quiz.var_question
       Quiz.var_feedback Quiz.var_progress Quiz.var_score Quiz.shown
       Quiz.set_feedback Quiz.r_score Quiz.r_total Quiz.r_pct Quiz.r_grade
       Quiz.r_first Quiz.r_second Quiz.r_difficulty] in *.

(** The attempt is the first or the second. *)
Ltac by_attempt A :=
  destruct A as [A|A]; rewrite A in *;
  change (1 =? 1) with true in *; change (2 =? 1) with false in *;
  cbv iota in *; try lia.

(** A written-out state is a state of a quiz, a written-out draw is one
    of its level. *)
Ltac quiz_state :=
  unfold playing, possible, counted, is_operation, Quiz.TOTAL_QUESTIONS,
    Quiz.PTS_FIRST, Quiz.PTS_SECOND;
  quiz_fields; cbn [Quiz.d_a Quiz.d_b Quiz.d_op];
  repeat match goal with |- _ /\ _ => split end;
  try reflexivity; try lia; try (apply in_bounds_cases; lia); auto.

(** X17: during a quiz every press of Submit leaves a question of the
    quiz on show, the same or the next, or ends the quiz after the
    tenth question with a report of at most ten correct answers, a score
    out of 100 equal to its percentage, and the grade of that score;
    the window then shows the menu with the scores reset, or closes. *)
Theorem submit_answer_playing (app : Quiz.QuizApp) (entry : string)
    (d : Quiz.draw) (again : bool) :
  playing app -> possible (Quiz.level app) d ->
  exists app' r,
    Quiz.submit_answer app entry d again = Some (app', r) /\
    match r with
    | None =>
        playing app' /\ Quiz.level app' = Quiz.level app /\
        (Quiz.q_index app' = Quiz.q_index app \/
         Quiz.q_index app' = Quiz.q_index app + 1) /\
        Quiz.score app <= Quiz.score app' <= Quiz.score app + 10
    | Some rep =>
        Quiz.q_index app = Quiz.TOTAL_QUESTIONS /\
        fair_report rep /\
        Quiz.score app <= Quiz.r_score rep <= Quiz.score app + 10 /\
        Quiz.shown app' = (if again then Quiz.Menu else Quiz.Closed) /\
        (again = true ->
         Quiz.q_index app' = 0 /\ Quiz.score app' = 0 /\
         Quiz.first_try_correct app' = 0 /\ Quiz.second_try_correct app' = 0)
    end.
Proof.
  intros (V & Q & (C1 & C2 & C3) & F & A & Ba & Bb & O) P.
  unfold Quiz.PTS_FIRST, Quiz.PTS_SECOND, Quiz.TOTAL_QUESTIONS in *.
  assert (Same : forall f,
             playing (Quiz.set_feedback app f) /\
             Quiz.level (Quiz.set_feedback app f) = Quiz.level app /\
             (Quiz.q_index (Quiz.set_feedback app f) = Quiz.q_index app \/
              Quiz.q_index (Quiz.set_feedback app f) = Quiz.q_index app + 1) /\
             Quiz.score app <= Quiz.score (Quiz.set_feedback app f)
             <= Quiz.score app + 10).
  { intro f. unfold playing, counted, Quiz.PTS_FIRST, Quiz.PTS_SECOND,
      Quiz.TOTAL_QUESTIONS. quiz_fields. repeat split; auto; lia. }
  destruct (string_dec (Py.strip entry) EmptyString) as [E|NE].
  { rewrite (proj1 (submit_answer_invalid app entry d again) E).
    eexists. eexists. split; [reflexivity | apply Same]. }
  destruct (int_or_not (Py.strip entry)) as [[ans I]|I].
  2: { rewrite (proj2 (submit_answer_invalid app entry d again) NE I).
       eexists. eexists. split; [reflexivity | apply Same]. }
  rewrite (submit_answer_int app entry d again ans NE I).
  unfold Quiz.PTS_FIRST, Quiz.PTS_SECOND.
  destruct (ans =? Quiz.compute (Quiz.a app) (Quiz.op app) (Quiz.b app)).
  - match goal with
    | |- exists _ _, Quiz.next_question ?x _ _ = _ /\ _ =>
        destruct (next_question_step x d again) as (app' & r & H & R)
    end;
      unfold counted, Quiz.PTS_FIRST, Quiz.PTS_SECOND, Quiz.TOTAL_QUESTIONS;
      quiz_fields; try assumption; try lia.
    + by_attempt A.
    + by_attempt A.
    + exists app', r. split; [exact H|].
      destruct r as [rep|].
      * destruct R as (R1 & R2 & R3 & R4 & R5).
        split; [exact R1|]. split; [exact R2|].
        split; [rewrite R3; by_attempt A|]. split; [exact R4 | exact R5].
      * destruct R as (R1 & R2 & R3 & R4 & _).
        split; [exact R1|]. split; [exact R2|]. split; [now right|].
        rewrite R4. by_attempt A.
  - destruct A as [A|A]; rewrite A;
      change (1 =? 1) with true; change (2 =? 1) with false; cbv iota.
    + eexists. eexists. split; [reflexivity|].
      unfold playing, counted, Quiz.PTS_FIRST, Quiz.PTS_SECOND,
        Quiz.TOTAL_QUESTIONS.
      quiz_fields. repeat split; auto; lia.
    + match goal with
      | |- exists _ _, Quiz.next_question ?x _ _ = _ /\ _ =>
          destruct (next_question_step x d again) as (app' & r & H & R)
      end;
        unfold counted, Quiz.PTS_FIRST, Quiz.PTS_SECOND, Quiz.TOTAL_QUESTIONS;
        quiz_fields; try assumption; try lia; auto.
      exists app', r. split; [exact H|].
      destruct r as [rep|].
      * destruct R as (R1 & R2 & R3 & R4 & R5).
        split; [exact R1|]. split; [exact R2|].
        split; [rewrite R3; lia|]. split; [exact R4 | exact R5].
      * destruct R as (R1 & R2 & R3 & R4 & _).
        split; [exact R1|]. split; [exact R2|]. split; [now right|].
        rewrite R4. lia.
Qed.

Lemma submit_answer_playing_witness :
  exists app' r,
    Quiz.submit_answer
      (Quiz.mkQuizApp 1 10 85 2 8 1 9 4 "-" "9 - 4 =" Quiz.TryAgain "Q10/10"
         "Score: 85" Quiz.Questions)
      " 5 " (Quiz.mkDraw 1 1 "+") false
    = Some (app', r) /\
    match r with
    | None => False
    | Some rep =>
        Quiz.r_score rep = 90 /\ Quiz.r_pct rep = 90 /\
        Quiz.r_grade rep = "A+" /\ Quiz.shown app' = Quiz.Closed
    end.
Proof.
  destruct (submit_answer_playing
              (Quiz.mkQuizApp 1 10 85 2 8 1 9 4 "-" "9 - 4 =" Quiz.TryAgain
                 "Q10/10" "Score: 85" Quiz.Questions)
              " 5 " (Quiz.mkDraw 1 1 "+") false) as (app' & r & H & R).
  - quiz_state.
  - quiz_state.
  - exists app', r. split; [exact H|].
    vm_compute in H. injection H as <- <-. repeat split.
Defined.

(** X18: two attempts for each of the ten questions. A correct answer
    scores 10 on the first attempt and 5 on the second; a wrong first
    answer keeps the question for a second attempt, without a point; a
    wrong second answer scores nothing. After a correct answer or a
    wrong second answer the next question is shown, with an empty
    feedback label that keeps neither "Correct!" nor the answer that
    was expected, or, when the question was the tenth, the results are
    reported with the points just scored. *)
Theorem two_attempts (app : Quiz.QuizApp) (entry : string) (d : Quiz.draw)
    (again : bool) (ans : Z) :
  playing app -> possible (Quiz.level app) d ->
  Py.strip entry <> EmptyString -> Py.int (Py.strip entry) = ret ans ->
  exists app' r,
    Quiz.submit_answer app entry d again = Some (app', r) /\
    if ans =? Quiz.compute (Quiz.a app) (Quiz.op app) (Quiz.b app) then
      moves_on app app' r (if Quiz.attempt app =? 1 then 10 else 5)
    else if Quiz.attempt app =? 1 then
      r = None /\
      Quiz.q_index app' = Quiz.q_index app /\
      Quiz.score app' = Quiz.score app /\
      Quiz.attempt app' = 2 /\
      (Quiz.a app', Quiz.op app', Quiz.b app')
      = (Quiz.a app, Quiz.op app, Quiz.b app) /\
      Quiz.var_feedback app' = Quiz.TryAgain
    else
      moves_on app app' r 0.
Proof.
  intros (V & Q & (C1 & C2 & C3) & F & A & Ba & Bb & O) P NE I.
  rewrite (submit_answer_int app entry d again ans NE I).
  assert (M : forall x pts,
             Quiz.shown x = Quiz.Questions -> counted x ->
             Quiz.q_index x = Quiz.q_index app ->
             Quiz.level x = Quiz.level app ->
             Quiz.score x = Quiz.score app + pts ->
             Quiz.first_try_correct x + Quiz.second_try_correct x
             <= Quiz.q_index x ->
             exists app' r, Quiz.next_question x d again = Some (app', r) /\
               moves_on app app' r pts).
  { intros x pts Vx Cx Qx Lx Sx Fx.
    destruct (next_question_step x d again) as (app' & r & H & R);
      try assumption; [lia | now rewrite Lx|].
    exists app', r. split; [exact H|]. unfold moves_on.
    destruct r as [rep|].
    - destruct R as (R1 & _ & R3 & _). split; congruence.
    - destruct R as ((_ & Q' & _) & _ & R3 & R4 & _ & _ & R7 & R8).
      repeat split; try congruence; lia. }
  unfold Quiz.PTS_FIRST, Quiz.PTS_SECOND, Quiz.TOTAL_QUESTIONS in *.
  destruct (ans =? Quiz.compute (Quiz.a app) (Quiz.op app) (Quiz.b app)).
  - apply M; unfold counted, Quiz.PTS_FIRST, Quiz.PTS_SECOND; quiz_fields;
      try reflexivity; try assumption; by_attempt A.
  - destruct (Quiz.attempt app =? 1).
    + eexists. eexists. split; [reflexivity|]. quiz_fields. auto 10.
    + apply M; unfold counted, Quiz.PTS_FIRST, Quiz.PTS_SECOND; quiz_fields;
        try reflexivity; try assumption; try lia; auto.
Qed.

Lemma two_attempts_witness :
  exists app' rep,
    Quiz.submit_answer
      (Quiz.mkQuizApp 1 10 15 2 1 1 9 4 "-" "9 - 4 =" Quiz.TryAgain "Q10/10"
         "Score: 15" Quiz.Questions)
      "5" (Quiz.mkDraw 2 3 "+") false
    = Some (app', Some rep) /\
    Quiz.r_score rep = 20.
Proof.
  destruct (two_attempts
              (Quiz.mkQuizApp 1 10 15 2 1 1 9 4 "-" "9 - 4 =" Quiz.TryAgain
                 "Q10/10" "Score: 15" Quiz.Questions)
              "5" (Quiz.mkDraw 2 3 "+") false 5) as (app' & r & H & R).
  - quiz_state.
  - quiz_state.
  - discriminate.
  - reflexivity.
  - cbn in R. destruct r as [rep|]; [|destruct R as [R _]; discriminate R].
    exists app', rep. split; [exact H | apply R].
Defined.

(** X19: an entry that is blank, or that [int] does not read, costs
    no attempt: only the feedback label changes, in any state. *)
Theorem invalid_entry_costs_nothing (app : Quiz.QuizApp) (entry : string)
    (d : Quiz.draw) (again : bool) :
  Py.strip entry = EmptyString \/ (forall ans, Py.int (Py.strip entry) <> ret ans) ->
  exists f,
    Quiz.submit_answer app entry d again = Some (Quiz.set_feedback app f, None) /\
    (f = Quiz.EnterWhole \/ f = Quiz.EnterValid) /\
    (f = Quiz.EnterWhole <-> Py.strip entry = EmptyString).
Proof.
  intro H.
  destruct (string_dec (Py.strip entry) EmptyString) as [E|NE].
  - exists Quiz.EnterWhole. split; [|tauto].
    exact (proj1 (submit_answer_invalid app entry d again) E).
  - destruct H as [H|H]; [contradiction|].
    exists Quiz.EnterValid. split; [|split; [tauto|split; [discriminate|contradiction]]].
    exact (proj2 (submit_answer_invalid app entry d again) NE H).
Qed.

Lemma invalid_entry_costs_nothing_witness :
  exists f,
    Quiz.submit_answer Quiz.init "4.5" (Quiz.mkDraw 1 1 "+") false
    = Some (Quiz.set_feedback Quiz.init f, None) /\
    (f = Quiz.EnterWhole \/ f = Quiz.EnterValid) /\
    (f = Quiz.EnterWhole <-> Py.strip "4.5" = EmptyString).
Proof.
  apply (invalid_entry_costs_nothing Quiz.init "4.5").
  right. intros ans H. vm_compute in H. discriminate H.
Defined.

(** X20: a new question has its two numbers within the bounds of the
    level and shows them with the operation; at the levels Easy and
    Moderate the numbers of a subtraction are swapped when needed, so
    the expected answer is never negative. *)
Theorem question_operands (app : Quiz.QuizApp) (d : Quiz.draw) (again : bool) :
  Quiz.q_index app < Quiz.TOTAL_QUESTIONS -> possible (Quiz.level app) d ->
  exists app',
    Quiz.next_question app d again = Some (app', None) /\
    in_bounds (Quiz.level app) (Quiz.a app') /\
    in_bounds (Quiz.level app) (Quiz.b app') /\
    Quiz.op app' = Quiz.d_op d /\
    (Quiz.level app <> 3 ->
     0 <= Quiz.compute (Quiz.a app') (Quiz.op app') (Quiz.b app')) /\
    Quiz.var_question app'
    = (Py.str (Quiz.a app') ++ " " ++ Quiz.op app' ++ " "
       ++ Py.str (Quiz.b app') ++ " =")%string.
Proof.
  intros Q P.
  destruct (next_question_asks app d again) as (x & y & XY & NN & H);
    [unfold Quiz.TOTAL_QUESTIONS in *; lia | exact P|].
  rewrite H. eexists. split; [reflexivity|]. quiz_fields.
  destruct P as (Ba & Bb & _).
  repeat split; try assumption;
    destruct XY as [XY|XY]; injection XY as -> ->; assumption.
Qed.

Lemma question_operands_witness :
  exists app',
    Quiz.next_question
      (Quiz.mkQuizApp 2 4 0 1 0 0 0 0 "+" "" Quiz.NoFeedback "" "Score: 0"
         Quiz.Questions)
      (Quiz.mkDraw 12 80 "-") false
    = Some (app', None) /\
    Quiz.var_question app' = "80 - 12 =".
Proof.
  destruct (question_operands
              (Quiz.mkQuizApp 2 4 0 1 0 0 0 0 "+" "" Quiz.NoFeedback ""
                 "Score: 0" Quiz.Questions)
              (Quiz.mkDraw 12 80 "-") false) as (app' & H & _).
  - reflexivity.
  - quiz_state.
  - exists app'. split; [exact H|].
    vm_compute in H. injection H as <-. reflexivity.
Defined.

(** At the level Advanced a subtraction is left as drawn: the expected
    answer can be negative. *)
Example advanced_answer_negative :
  exists app',
    Quiz.next_question
      (Quiz.mkQuizApp 3 4 0 1 0 0 0 0 "+" "" Quiz.NoFeedback "" "Score: 0"
         Quiz.Questions)
      (Quiz.mkDraw 1200 8000 "-") false
    = Some (app', None) /\
    Quiz.compute (Quiz.a app') (Quiz.op app') (Quiz.b app') = -6800.
Proof. eexists. split; reflexivity. Qed.

(** * The joke teller *)

(** ** Reading the file of jokes *)

Lemma split_once_first (sep : ascii) (s : string) :
  Py.contains sep s = true ->
  exists s1 s2, Jokes.split_once sep s = [s1; s2] /\
    Py.contains sep s1 = false /\ s = (s1 ++ String sep s2)%string.
Proof.
  induction s as [|c s IH]; simpl; [discriminate|].
  destruct (Ascii.eqb c sep) eqn:E.
  - intros _. apply Ascii.eqb_eq in E. subst c.
    exists EmptyString, s. auto.
  - simpl. intro H. destruct (IH H) as (s1 & s2 & -> & C & ->).
    exists (String c s1), s2. simpl. rewrite E. auto.
Qed.

Lemma split_once_app (sep : ascii) (a b : string) :
  Py.contains sep a = false ->
  Jokes.split_once sep (a ++ String sep b)%string = [a; b].
Proof.
  induction a as [|c a IH]; simpl.
  - intros _. now rewrite Ascii.eqb_refl.
  - intro E. apply orb_false_iff in E. destruct E as [E1 E2].
    now rewrite E1, (IH E2).
Qed.

Lemma told_fallback : Forall told Jokes.fallback /\ Forall one_line Jokes.fallback.
Proof.
  split; (constructor; [|constructor]).
  - exists "Why did the chicken cross the road".
    split; [|split; [|split]]; reflexivity.
  - split; reflexivity.
Qed.

(** A round of the loop tells a joke or leaves the list as it is. *)
Lemma load_jokes_line_told (jokes : list Jokes.joke) (line : string) :
  Py.forall_chars not_linebreak line = true ->
  exists jokes', Jokes.load_jokes_line jokes line = ret jokes' /\
    (jokes' = jokes \/
     exists j, jokes' = jokes ++ [j] /\ told j /\ one_line j).
Proof.
  intro L. unfold Jokes.load_jokes_line.
  destruct (Py.is_empty (Py.strip line)
            || negb (Py.contains Jokes.question_mark (Py.strip line))) eqn:E;
    [eauto|].
  apply orb_false_iff in E. destruct E as [_ E].
  apply negb_false_iff in E.
  destruct (split_once_first _ _ E) as (s1 & s2 & -> & C & S).
  eexists. split; [reflexivity|]. right. eexists. split; [reflexivity|].
  apply forall_chars_strip with (q := not_linebreak) in L.
  rewrite S, forall_chars_app in L. apply andb_true_iff in L.
  destruct L as [L1 L2]. cbn [Py.forall_chars] in L2.
  apply andb_true_iff in L2. destruct L2 as [_ L2].
  split.
  - exists (Py.strip s1). cbn [fst snd].
    repeat split; auto using contains_strip, strip_idempotent.
  - unfold one_line. cbn [fst snd]. rewrite forall_chars_app.
    rewrite !forall_chars_strip by assumption. split; reflexivity.
Qed.

Lemma load_jokes_loop_told (lines : list string) (jokes : list Jokes.joke) :
  Forall (fun l => Py.forall_chars not_linebreak l = true) lines ->
  Forall told jokes -> Forall one_line jokes ->
  exists jokes', Jokes.load_jokes_loop jokes lines = ret jokes' /\
    Forall told jokes' /\ Forall one_line jokes'.
Proof.
  revert jokes. induction lines as [|line rest IH]; intros jokes L T O;
    cbn [Jokes.load_jokes_loop]; [eauto|].
  inversion L as [|? ? L1 L2]; subst.
  destruct (load_jokes_line_told jokes line L1) as (jokes' & -> & H).
  cbn [bind ret]. apply IH; [exact L2| |];
    destruct H as [->|(j & -> & Tj & Oj)]; try assumption;
    apply Forall_app; split; auto.
Qed.

(** X21: [load_jokes] raises nothing and returns at least one joke,
    whatever the file holds and also when there is none. In each joke
    the setup ends with a question mark, its only one, no part starts
    or ends with white space, and no part holds a line boundary. *)
Theorem load_jokes_told (file : option string) :
  exists jokes, Jokes.load_jokes file = ret jokes /\ jokes <> [] /\
    Forall told jokes /\ Forall one_line jokes.
Proof.
  unfold Jokes.load_jokes.
  assert (H : exists jokes,
             match file with
             | Some text => Jokes.load_jokes_loop [] (Py.splitlines text)
             | None => ret []
             end = ret jokes /\ Forall told jokes /\ Forall one_line jokes).
  { destruct file as [text|]; [|eauto].
    apply load_jokes_loop_told; auto using splitlines_no_linebreak. }
  destruct H as (jokes & -> & T & O). cbn [bind ret].
  destruct jokes as [|j r].
  - exists Jokes.fallback. destruct told_fallback. repeat split; auto.
    discriminate.
  - exists (j :: r). repeat split; auto. discriminate.
Qed.

(** *** A file written one joke a line *)

Lemma strip_rstrip (s : string) :
  Py.strip s = s -> Py.rstrip_by Py.is_space s = s.
Proof.
  intro H. rewrite <- H at 1. unfold Py.strip.
  rewrite rstrip_by_idempotent. exact H.
Qed.

Lemma strip_head (s : string) :
  Py.strip s = s -> head_not Py.is_space s = true.
Proof.
  intro H. rewrite <- H. unfold Py.strip.
  apply rstrip_by_head, lstrip_by_head.
Qed.

Lemma line_of_told (j : Jokes.joke) (jokes : list Jokes.joke) :
  told j -> Jokes.load_jokes_line jokes (line_of j) = ret (jokes ++ [j]).
Proof.
  destruct j as [s p]. intros (t & S & C & T & P). cbn [fst snd] in *.
  subst s. unfold line_of. cbn [fst snd].
  assert (A : ((t ++ "?") ++ p)%string = (t ++ String Jokes.question_mark p)%string).
  { rewrite append_assoc. reflexivity. }
  rewrite A. clear A.
  assert (R : Py.rstrip_by Py.is_space (String Jokes.question_mark p)
              = String Jokes.question_mark p).
  { cbn [Py.rstrip_by]. rewrite (strip_rstrip p P).
    change (Py.is_space Jokes.question_mark) with false.
    now rewrite andb_false_r. }
  assert (K : Py.strip (t ++ String Jokes.question_mark p)
              = (t ++ String Jokes.question_mark p)%string).
  { unfold Py.strip. rewrite head_not_lstrip.
    - rewrite rstrip_by_app; rewrite R; [reflexivity | discriminate].
    - destruct t as [|c t]; [reflexivity|]. exact (strip_head _ T). }
  unfold Jokes.load_jokes_line. rewrite K.
  rewrite contains_app. cbn [Py.contains].
  change (Ascii.eqb Jokes.question_mark Jokes.question_mark) with true.
  rewrite orb_true_r.
  assert (N : Py.is_empty (t ++ String Jokes.question_mark p) = false)
    by (destruct t; reflexivity).
  rewrite N. cbn [orb negb]. rewrite split_once_app by exact C.
  now rewrite T, P.
Qed.

Lemma load_jokes_loop_lines (js jokes : list Jokes.joke) :
  Forall told js ->
  Jokes.load_jokes_loop jokes (map line_of js) = ret (jokes ++ js).
Proof.
  revert jokes. induction js as [|j js IH]; intros jokes T;
    cbn [map Jokes.load_jokes_loop]; [now rewrite app_nil_r|].
  inversion T as [|? ? Tj Tr]; subst.
  rewrite line_of_told by exact Tj. cbn [bind ret].
  rewrite IH by exact Tr. now rewrite <- app_assoc.
Qed.

(** X22: a file of jokes round trip: a file written one joke a line,
    the setup with its question mark and then the punchline, is read
    back as these jokes, in their order, when there is at least one and
    each is told the way [load_jokes] tells a joke, on one line. *)
Theorem load_jokes_written (js : list Jokes.joke) :
  js <> [] -> Forall told js -> Forall one_line js ->
  Jokes.load_jokes (Some (Py.join newline (map line_of js))) = ret js.
Proof.
  intros N T O. unfold Jokes.load_jokes, newline.
  rewrite splitlines_join.
  - rewrite load_jokes_loop_lines by exact T. cbn [bind ret List.app].
    destruct js; [now contradiction N | reflexivity].
  - apply Forall_map. apply Forall_impl with (2 := O).
    intros j (O1 & O2). unfold line_of. rewrite forall_chars_app.
    now rewrite O1, O2.
  - apply Forall_map. apply Forall_impl with (2 := T).
    intros [s p] (t & S & _). cbn [fst snd] in S. subst s.
    unfold line_of. cbn [fst snd]. rewrite append_assoc.
    apply append_nonempty.
Qed.

Lemma load_jokes_written_witness :
  Jokes.load_jokes
    (Some (Py.join newline
             (map line_of
                [("What do you call a fish with no eyes?", "A fsh.");
                 ("Is this a joke?", "Is it? Yes.");
                 ("?", "")])))
  = ret [("What do you call a fish with no eyes?", "A fsh.");
         ("Is this a joke?", "Is it? Yes.");
         ("?", "")].
Proof.
  apply load_jokes_written.
  - discriminate.
  - constructor; [exists "What do you call a fish with no eyes"|].
    { split; [|split; [|split]]; reflexivity. }
    constructor; [exists "Is this a joke"|].
    { split; [|split; [|split]]; reflexivity. }
    constructor; [exists EmptyString|constructor].
    split; [|split; [|split]]; reflexivity.
  - repeat (constructor; [split; reflexivity|]). constructor.
Defined.

(** ** The button *)

Lemma load_jokes_some (file : option string) :
  exists j r, Jokes.load_jokes file = ret (j :: r).
Proof.
  unfold Jokes.load_jokes.
  assert (H : exists jokes,
             match file with
             | Some text => Jokes.load_jokes_loop [] (Py.splitlines text)
             | None => ret []
             end = ret jokes).
  { destruct file as [text|]; [|eauto].
    destruct (load_jokes_loop_told (Py.splitlines text) [])
      as (jokes & H & _); eauto using splitlines_no_linebreak. }
  destruct H as (jokes & ->). cbn [bind ret].
  destruct jokes as [|j r]; unfold Jokes.fallback; eauto.
Qed.

Lemma init_on_show (file : option string) :
  exists app, Jokes.init file = ret app /\ on_show app /\
    Jokes.load_jokes file = ret (Jokes.jokes app).
Proof.
  unfold Jokes.init. destruct (load_jokes_some file) as (j & r & ->).
  cbn [bind ret]. eexists. split; [reflexivity|].
  unfold on_show. cbn. repeat split. discriminate.
Qed.

Lemma choice_drawn {A : Type} (seq : list A) (drawn : nat) :
  (drawn < List.length seq)%nat ->
  exists x, nth_error seq drawn = Some x /\ Jokes.choice seq drawn = ret x /\
    In x seq.
Proof.
  intro H. unfold Jokes.choice.
  destruct (nth_error seq drawn) as [x|] eqn:E.
  - exists x. repeat split. now apply nth_error_In with drawn.
  - apply nth_error_None in E. lia.
Qed.

Lemma on_start_on_show (app : Jokes.App) (entry : string) (drawn : nat) :
  on_show app -> (drawn < List.length (Jokes.jokes app))%nat ->
  exists app', Jokes.on_start app entry drawn = ret app' /\ on_show app' /\
    Jokes.jokes app' = Jokes.jokes app.
Proof.
  intros (N & S) D. unfold Jokes.on_start.
  assert (G : exists app',
             (if String.eqb (Py.lower (Py.strip entry)) Jokes.PHRASE
              then Jokes.new_joke app drawn
              else ret (Jokes.mkApp (Jokes.jokes app) (Jokes.cur app)
                          (Jokes.stage app) (Jokes.setup app) (Jokes.punch app)
                          "Please type exactly: Alexa tell me a joke"
                          (Jokes.btn app))) = ret app' /\
             on_show app' /\ Jokes.jokes app' = Jokes.jokes app).
  { destruct (String.eqb (Py.lower (Py.strip entry)) Jokes.PHRASE).
    - unfold Jokes.new_joke.
      destruct (choice_drawn _ _ D) as (j & _ & -> & I). cbn [bind ret].
      eexists. split; [reflexivity|]. split; [|reflexivity].
      split; [exact N|]. cbn. eauto.
    - eexists. split; [reflexivity|]. split; [|reflexivity].
      split; [exact N|]. exact S. }
  destruct (Jokes.stage app) eqn:E; try exact G.
  destruct S as (j & C & I & S1 & S2).
  eexists. split; [reflexivity|]. unfold Jokes.show_punch. rewrite C.
  split; [|reflexivity]. split; [exact N|]. cbn. eauto.
Qed.

(** X23: in every state of the window the labels show what the stage
    says: no text before the first joke, then the setup of a joke of
    the list without a punchline, and after the reveal the punchline
    of that same joke. The list is the one loaded at the start, and a
    press of the button raises nothing. *)
Theorem reachable_on_show (file : option string) (app : Jokes.App) :
  reachable file app ->
  on_show app /\ Jokes.load_jokes file = ret (Jokes.jokes app) /\
  forall entry drawn, (drawn < List.length (Jokes.jokes app))%nat ->
    exists app', Jokes.on_start app entry drawn = ret app'.
Proof.
  intro R.
  assert (H : on_show app /\ Jokes.load_jokes file = ret (Jokes.jokes app)).
  { induction R as [app I | app app' entry drawn R [IH1 IH2] D S].
    - destruct (init_on_show file) as (app0 & I0 & H).
      rewrite I0 in I. injection I as <-. exact H.
    - destruct (on_start_on_show app entry drawn IH1 D) as (x & S' & O & J).
      rewrite S' in S. injection S as <-. split; [exact O|].
      now rewrite J. }
  destruct H as [O L]. split; [exact O|]. split; [exact L|].
  intros entry drawn D.
  destruct (on_start_on_show app entry drawn O D) as (x & S & _). eauto.
Qed.

Lemma reachable_on_show_witness :
  on_show
    (Jokes.mkApp [("Why?", "Because."); ("Who?", "Me.")] (Some ("Who?", "Me."))
       Jokes.PunchlineShown "Who?" "Me."
       "Type the phrase again, then press Enter/Start for a new joke" "Start").
Proof.
  apply (reachable_on_show
           (Some ("Why? Because." ++ newline ++ "no joke here" ++ newline
                  ++ " Who ?Me. ")%string)).
  eapply reachable_on_start with (entry := "anything") (drawn := 0%nat);
    [eapply reachable_on_start
       with (entry := " Alexa Tell me a JOKE") (drawn := 1%nat);
     [apply reachable_init; reflexivity | cbn; lia | reflexivity]
    | cbn; lia | reflexivity].
Defined.

(** *** The phrase *)

Lemma is_space_lower_char (c : ascii) :
  Py.is_space (Py.lower_char c) = Py.is_space c.
Proof. destruct c as [[] [] [] [] [] [] [] []]; reflexivity. Qed.

Lemma is_empty_lower (s : string) : Py.is_empty (Py.lower s) = Py.is_empty s.
Proof. destruct s; reflexivity. Qed.

Lemma lower_app (a b : string) :
  Py.lower (a ++ b)%string = (Py.lower a ++ Py.lower b)%string.
Proof. induction a as [|c a IH]; simpl; congruence. Qed.

Lemma lower_lstrip (s : string) :
  Py.lower (Py.lstrip_by Py.is_space s) = Py.lstrip_by Py.is_space (Py.lower s).
Proof.
  induction s as [|c s IH]; [reflexivity|].
  cbn [Py.lower Py.lstrip_by]. rewrite is_space_lower_char.
  destruct (Py.is_space c); [exact IH | reflexivity].
Qed.

Lemma lower_rstrip (s : string) :
  Py.lower (Py.rstrip_by Py.is_space s) = Py.rstrip_by Py.is_space (Py.lower s).
Proof.
  induction s as [|c s IH]; [reflexivity|].
  cbn [Py.lower Py.rstrip_by]. rewrite is_space_lower_char, <- IH, is_empty_lower.
  destruct (Py.is_empty (Py.rstrip_by Py.is_space s) && Py.is_space c);
    reflexivity.
Qed.

Lemma lower_strip (s : string) : Py.lower (Py.strip s) = Py.strip (Py.lower s).
Proof. unfold Py.strip. now rewrite lower_rstrip, lower_lstrip. Qed.

Lemma lower_spaces (s : string) :
  Py.forall_chars Py.is_space s = true ->
  Py.forall_chars Py.is_space (Py.lower s) = true.
Proof.
  induction s as [|c s IH]; [reflexivity|].
  cbn [Py.lower Py.forall_chars]. rewrite is_space_lower_char.
  intro H. apply andb_true_iff in H. destruct H as [-> H]. now apply IH.
Qed.

Lemma lstrip_by_all (p : ascii -> bool) (pre s : string) :
  Py.forall_chars p pre = true ->
  Py.lstrip_by p (pre ++ s)%string = Py.lstrip_by p s.
Proof.
  induction pre as [|c pre IH]; [reflexivity|].
  cbn [Py.forall_chars]. intro H. apply andb_true_iff in H.
  destruct H as [H1 H2]. simpl. rewrite H1. now apply IH.
Qed.

Lemma rstrip_by_all (p : ascii -> bool) (s post : string) :
  Py.forall_chars p post = true ->
  Py.rstrip_by p (s ++ post)%string = Py.rstrip_by p s.
Proof.
  intro H. induction s as [|c s IH].
  - simpl. induction post as [|c post IH]; [reflexivity|].
    cbn [Py.forall_chars] in H. apply andb_true_iff in H.
    destruct H as [H1 H2]. simpl. now rewrite (IH H2), H1.
  - simpl. now rewrite IH.
Qed.

(** The test of [on_start] on an entry made of the phrase in any
    letter case, with white space around it. *)
Lemma phrase_test (pre typed post : string) :
  Py.forall_chars Py.is_space pre = true ->
  Py.forall_chars Py.is_space post = true ->
  Py.lower typed = Jokes.PHRASE ->
  Py.lower (Py.strip (pre ++ typed ++ post)) = Jokes.PHRASE.
Proof.
  intros H1 H2 T.
  rewrite lower_strip, !lower_app, T. unfold Py.strip.
  rewrite lstrip_by_all by now apply lower_spaces.
  rewrite (head_not_lstrip _ (Jokes.PHRASE ++ _)%string) by reflexivity.
  rewrite rstrip_by_all by now apply lower_spaces.
  reflexivity.
Qed.

(** X24: the phrase is accepted in any letter case and with white
    space before and after it: when no setup waits for its punchline,
    the press shows the setup of the joke that is drawn, and no
    punchline. *)
Theorem phrase_any_case (app : Jokes.App) (pre typed post : string)
    (drawn : nat) (j : Jokes.joke) :
  Jokes.stage app <> Jokes.SetupShown ->
  nth_error (Jokes.jokes app) drawn = Some j ->
  Py.forall_chars Py.is_space pre = true ->
  Py.forall_chars Py.is_space post = true ->
  Py.lower typed = Jokes.PHRASE ->
  exists app',
    Jokes.on_start app (pre ++ typed ++ post) drawn = ret app' /\
    Jokes.stage app' = Jokes.SetupShown /\ Jokes.cur app' = Some j /\
    Jokes.setup app' = fst j /\ Jokes.punch app' = EmptyString /\
    Jokes.btn app' = "Reveal Punchline" /\
    Jokes.jokes app' = Jokes.jokes app.
Proof.
  intros S D H1 H2 T. unfold Jokes.on_start.
  rewrite (phrase_test pre typed post H1 H2 T).
  change (String.eqb Jokes.PHRASE Jokes.PHRASE) with true. cbv iota.
  unfold Jokes.new_joke, Jokes.choice. rewrite D. cbn [bind ret].
  destruct (Jokes.stage app); [|now contradiction S|];
    eexists; (split; [reflexivity|]); cbn; repeat split.
Qed.

Lemma phrase_any_case_witness :
  exists app',
    Jokes.on_start
      (Jokes.mkApp Jokes.fallback None Jokes.Idle "" "" "" "Start")
      ("  " ++ "ALEXA tell Me a Joke" ++ String Py.LF "")%string 0
    = ret app' /\
    Jokes.setup app' = "Why did the chicken cross the road?".
Proof.
  destruct (phrase_any_case
              (Jokes.mkApp Jokes.fallback None Jokes.Idle "" "" "" "Start")
              "  " "ALEXA tell Me a Joke" (String Py.LF "") 0
              ("Why did the chicken cross the road?",
               "To get to the other side."))
    as (app' & H & _ & _ & S & _); try reflexivity; [discriminate|].
  exists app'. split; [exact H | exact S].
Defined.

(** X25: a joke in two presses. With the phrase typed the first press
    shows the setup of the joke that is drawn; the second press shows
    the punchline of that joke below its setup whatever the entry
    holds then, the phrase included: no other joke is drawn. *)
Theorem setup_then_punchline (app : Jokes.App) (entry : string)
    (drawn drawn2 : nat) (j : Jokes.joke) :
  Jokes.stage app <> Jokes.SetupShown ->
  nth_error (Jokes.jokes app) drawn = Some j ->
  exists app1 app2,
    Jokes.on_start app Jokes.PHRASE drawn = ret app1 /\
    Jokes.on_start app1 entry drawn2 = ret app2 /\
    Jokes.stage app1 = Jokes.SetupShown /\
    Jokes.setup app1 = fst j /\ Jokes.punch app1 = EmptyString /\
    Jokes.stage app2 = Jokes.PunchlineShown /\
    Jokes.setup app2 = fst j /\ Jokes.punch app2 = snd j /\
    Jokes.cur app2 = Some j /\ Jokes.btn app2 = "Start".
Proof.
  intros S D. unfold Jokes.on_start at 1.
  change (String.eqb (Py.lower (Py.strip Jokes.PHRASE)) Jokes.PHRASE) with true.
  cbv iota. unfold Jokes.new_joke, Jokes.choice. rewrite D. cbn [bind ret].
  destruct (Jokes.stage app); [|now contradiction S|];
    eexists; eexists; (split; [reflexivity|]);
    (split; [reflexivity|]); cbn; repeat split.
Qed.

Lemma setup_then_punchline_witness :
  exists app1 app2,
    Jokes.on_start
      (Jokes.mkApp [("Why?", "Because."); ("Who?", "Me.")] (Some ("Why?", "Because."))
         Jokes.PunchlineShown "Why?" "Because." "" "Start")
      Jokes.PHRASE 1 = ret app1 /\
    Jokes.on_start app1 Jokes.PHRASE 0 = ret app2 /\
    Jokes.setup app2 = "Who?" /\ Jokes.punch app2 = "Me.".
Proof.
  destruct (setup_then_punchline
              (Jokes.mkApp [("Why?", "Because."); ("Who?", "Me.")]
                 (Some ("Why?", "Because."))
                 Jokes.PunchlineShown "Why?" "Because." "" "Start")
              Jokes.PHRASE 1 0 ("Who?", "Me."))
    as (app1 & app2 & H1 & H2 & _ & _ & _ & _ & S & P & _);
    [discriminate | reflexivity|].
  exists app1, app2. repeat split; assumption.
Defined.
